(** * Model Analyzer: configuration-search core

  Shallow embedding of the generators under
  [model_analyzer/config/generate] and of
  [model_analyzer/result/constraint_manager.py].

  Python integers are [Z]; Python dicts that keep insertion order are
  association lists; objects whose identity matters carry an identity
  next to their contents; generator coroutines are a frame (created or
  suspended at the [yield]) next to the object they mutate. *)

From stdpp Require Import base gmap strings list pretty.
From Stdlib Require Import ZArith QArith Lia Ascii.

Open Scope Z_scope.

#[local] Set Warnings "-register-all".

(** ** Python values and dicts *)

Module Py.

(** The heterogeneous trees held by a model-config dictionary. *)
Inductive Value : Type :=
| VNone
| VInt (z : Z)
| VStr (s : string)
| VList (l : list Value)
| VDict (d : list (string * Value)).

Definition Dict := list (string * Value).

(** [d[k]] as an option ([None] where Python raises [KeyError]). *)
Fixpoint dict_get (k : string) (d : Dict) : option Value :=
  match d with
  | [] => None
  | (k', v') :: d' => if decide (k = k') then Some v' else dict_get k d'
  end.

(** [d[k] = v]: overwrite in place, or append a new key. *)
Fixpoint dict_set (k : string) (v : Value) (d : Dict) : Dict :=
  match d with
  | [] => [(k, v)]
  | (k', v') :: d' =>
      if decide (k = k') then (k, v) :: d' else (k', v') :: dict_set k v d'
  end.

(** [value is not None] *)
Definition is_not_None (v : Value) : bool :=
  match v with VNone => false | _ => true end.

(** Identity of a dict object.  [BaseModelConfigGenerator.DEFAULT_PARAM_COMBO]
    is created once, with the class; every dict display evaluated later
    allocates a new object. *)
Inductive ObjId : Type :=
| ClassDefaultCombo
| Allocated (n : nat).

#[global] Instance ObjId_eq_dec : EqDecision ObjId.
Proof. solve_decision. Defined.

Record DictObj : Type := mkDictObj { obj_id : ObjId; obj_items : Dict }.

(** Python's [a is b]. *)
Definition is_ (a b : DictObj) : bool := bool_decide (obj_id a = obj_id b).

End Py.

(** ** deep_merge, as the specification words it *)

Module SpecUtils.
Import Py.

(** Modelled from the spec: [GeneratorUtils.deep_merge] is not among the
    sources.  "Recursive overwrite: when both sides at a key are maps,
    recurse; otherwise overlay replaces base wholesale.  Returns a new
    map; inputs unchanged."  The function is pure, so its inputs are
    unchanged by construction. *)
Fixpoint deep_merge_value (overlay base : Value) {struct overlay} : Value :=
  match overlay, base with
  | VDict od, VDict bd =>
      VDict
        ((fix merge_items (items : Dict) (acc : Dict) {struct items} : Dict :=
            match items with
            | [] => acc
            | (k, ov) :: items' =>
                merge_items items'
                  (dict_set k
                     (match dict_get k acc with
                      | Some bv => deep_merge_value ov bv
                      | None => ov
                      end) acc)
            end) od bd)
  | _, _ => overlay
  end.

Definition deep_merge (base overlay : Dict) : Dict :=
  match deep_merge_value (VDict overlay) (VDict base) with
  | VDict d => d
  | _ => overlay
  end.

(** Modelled from the spec: the ladder of batch sizes, "[min_bs],
    [2·min_bs], [4·min_bs], … capped at [max_bs]" ([power_of_two_ladder_between]
    is not among the sources).  [fuel] bounds the number of rungs. *)
Fixpoint ladder_from (fuel : nat) (bs max_bs : Z) : list Z :=
  match fuel with
  | O => []
  | S fuel' =>
      if bool_decide (bs ≤ max_bs) then bs :: ladder_from fuel' (2 * bs) max_bs
      else []
  end.

Definition power_of_two_ladder_between (min_bs max_bs : Z) : list Z :=
  ladder_from (Z.to_nat max_bs) min_bs max_bs.

(** Modelled from the spec: the number of candidates of the automatic
    mode, [N·K + 1] with [N = max_inst − min_inst + 1] and [K] the length
    of the ladder. *)
Definition automatic_candidate_count (min_inst max_inst min_bs max_bs : Z) : Z :=
  (max_inst - min_inst + 1)
  * Z.of_nat (length (power_of_two_ladder_between min_bs max_bs)) + 1.

End SpecUtils.

(** ** base_model_config_generator.py *)

(** The options of [ModelAnalyzerConfig] that the generators are handed.
    [run_config_search_min_instance_count] is an option of the profile
    configuration (the repository's tests set it). *)
Record Config : Type := mkConfig {
  model_repository : string;
  run_config_search_min_instance_count : Z;
  run_config_search_max_instance_count : Z;
  run_config_search_min_model_batch_size : Z;
  run_config_search_max_model_batch_size : Z
}.

(** [ConfigModelProfileSpec], as far as the generators read it. *)
Record ModelSpec : Type := mkModelSpec {
  model_name : string;
  cpu_only : bool;
  triton_server_environment : gmap string string
}.

Module BaseModelConfigGenerator.
Import Py.

Section WithMeasurement.
Context {Measurement : Type}.

(** What [set_last_results] is given: one list of measurements per result,
    an entry being [None] where Python has [None]. *)
Definition Results : Type := list (list (option Measurement)).

(** The instance attributes set by [__init__], and two pieces of the
    world around the object: the dictionary that
    [ModelConfig.create_from_file(...).get_config()] reads from the model
    repository, and the allocation counter for new dict objects. *)
Record t : Type := mk {
  _model_repository : string;
  _base_model_name : string;
  _cpu_only : bool;
  _model_name_index : Z;
  _live : bool;
  _last_results : Results;
  stored_config : Dict;
  heap_next : nat
}.

Definition DEFAULT_PARAM_COMBO : DictObj :=
  {| obj_id := ClassDefaultCombo; obj_items := [] |}.

Definition __init__ (config : Config) (model : ModelSpec) (stored : Dict) : t :=
  {| _model_repository := model_repository config;
     _base_model_name := model_name model;
     _cpu_only := cpu_only model;
     _model_name_index := 0;
     _live := false;
     _last_results := [];
     stored_config := stored;
     heap_next := 0 |}.

Definition with_live (b : bool) (g : t) : t :=
  {| _model_repository := _model_repository g;
     _base_model_name := _base_model_name g;
     _cpu_only := _cpu_only g;
     _model_name_index := _model_name_index g;
     _live := b;
     _last_results := _last_results g;
     stored_config := stored_config g;
     heap_next := heap_next g |}.

Definition with_model_name_index (i : Z) (g : t) : t :=
  {| _model_repository := _model_repository g;
     _base_model_name := _base_model_name g;
     _cpu_only := _cpu_only g;
     _model_name_index := i;
     _live := _live g;
     _last_results := _last_results g;
     stored_config := stored_config g;
     heap_next := heap_next g |}.

Definition with_heap_next (n : nat) (g : t) : t :=
  {| _model_repository := _model_repository g;
     _base_model_name := _base_model_name g;
     _cpu_only := _cpu_only g;
     _model_name_index := _model_name_index g;
     _live := _live g;
     _last_results := _last_results g;
     stored_config := stored_config g;
     heap_next := n |}.

(** [self._last_results = measurements] *)
Definition set_last_results (measurements : Results) (g : t) : t :=
  {| _model_repository := _model_repository g;
     _base_model_name := _base_model_name g;
     _cpu_only := _cpu_only g;
     _model_name_index := _model_name_index g;
     _live := _live g;
     _last_results := measurements;
     stored_config := stored_config g;
     heap_next := heap_next g |}.

(** The two f-strings of [_get_model_variant_name]. *)
Definition default_variant_name (base_name : string) : string :=
  base_name +:+ "_config_default".

Definition indexed_variant_name (base_name : string) (k : Z) : string :=
  base_name +:+ "_config_" +:+ pretty k.

(** [param_combo] is [None] for Python's [None]. *)
Definition is_default_combo (param_combo : option DictObj) : bool :=
  match param_combo with
  | Some c => is_ c DEFAULT_PARAM_COMBO
  | None => false
  end.

Definition _get_model_variant_name (param_combo : option DictObj) (g : t)
  : string * t :=
  if is_default_combo param_combo then
    (default_variant_name (_base_model_name g), g)
  else
    (indexed_variant_name (_base_model_name g) (_model_name_index g),
     with_model_name_index (_model_name_index g + 1) g).

(** A fresh dictionary per call, read from the repository. *)
Definition _get_base_model_config_dict (g : t) : Dict := stored_config g.

(** [for key, value in param_combo.items(): if value is not None: d[key] = value] *)
Fixpoint apply_param_combo (items : Dict) (model_config_dict : Dict) : Dict :=
  match items with
  | [] => model_config_dict
  | (key, value) :: items' =>
      apply_param_combo items'
        (if is_not_None value then dict_set key value model_config_dict
         else model_config_dict)
  end.

(** The returned [ModelConfig] is represented by the dictionary it is
    created from. *)
Definition _make_direct_mode_model_config (param_combo : option DictObj) (g : t)
  : Dict * t :=
  let model_config_dict := _get_base_model_config_dict g in
  let model_config_dict :=
    match param_combo with
    | Some c => apply_param_combo (obj_items c) model_config_dict
    | None => model_config_dict
    end in
  let '(name, g') := _get_model_variant_name param_combo g in
  (dict_set "name" (VStr name) model_config_dict, g').

End WithMeasurement.

Arguments t : clear implicits.
Arguments Results : clear implicits.

End BaseModelConfigGenerator.

(** ** automatic_model_config_generator.py *)

Module AutomaticModelConfigGenerator.
Import Py.
Module Base := BaseModelConfigGenerator.

Section WithMeasurement.
Context {Measurement : Type}.

Abbreviation Results := (Base.Results Measurement).

(** The object: the attributes of the base class, then those added by
    the subclass. *)
Record t : Type := mk {
  base : Base.t Measurement;
  _max_instance_count : Z;
  _max_model_batch_size : Z;
  _min_model_batch_size : Z;
  _instance_kind : string;
  _curr_instance_count : Z;
  _curr_max_batch_size : Z;
  _state_machine_started : bool
}.

Definition __init__ (config : Config) (model : ModelSpec) (stored : Dict) : t :=
  let b := Base.__init__ config model stored in
  {| base := b;
     _max_instance_count := run_config_search_max_instance_count config;
     _max_model_batch_size := run_config_search_max_model_batch_size config;
     _min_model_batch_size := run_config_search_min_model_batch_size config;
     _instance_kind := if Base._cpu_only b then "KIND_CPU" else "KIND_GPU";
     _curr_instance_count := 0;
     _curr_max_batch_size := 0;
     _state_machine_started := false |}.

Definition with_base (b : Base.t Measurement) (g : t) : t :=
  {| base := b;
     _max_instance_count := _max_instance_count g;
     _max_model_batch_size := _max_model_batch_size g;
     _min_model_batch_size := _min_model_batch_size g;
     _instance_kind := _instance_kind g;
     _curr_instance_count := _curr_instance_count g;
     _curr_max_batch_size := _curr_max_batch_size g;
     _state_machine_started := _state_machine_started g |}.

Definition with_counters (started : bool) (count batch : Z) (g : t) : t :=
  {| base := base g;
     _max_instance_count := _max_instance_count g;
     _max_model_batch_size := _max_model_batch_size g;
     _min_model_batch_size := _min_model_batch_size g;
     _instance_kind := _instance_kind g;
     _curr_instance_count := count;
     _curr_max_batch_size := batch;
     _state_machine_started := started |}.

(** Inherited. *)
Definition set_last_results (measurements : Results) (g : t) : t :=
  with_base (Base.set_last_results measurements (base g)) g.

Definition _max_batch_size_limit_reached (g : t) : bool :=
  bool_decide (_curr_max_batch_size g * 2 > _max_model_batch_size g).

(** The two nested [for] loops returning [True] at the first [None]. *)
Definition _last_results_erroneous (g : t) : bool :=
  existsb (fun result => existsb (fun measurement =>
             match measurement with None => true | Some _ => false end) result)
          (Base._last_results (base g)).

Definition _done_walking_max_batch_size (g : t) : bool :=
  _max_batch_size_limit_reached g || _last_results_erroneous g.

Definition _done_walking_instance_count (g : t) : bool :=
  bool_decide (_curr_instance_count g >= _max_instance_count g).

Definition _done_walking (g : t) : bool :=
  _done_walking_max_batch_size g && _done_walking_instance_count g.

(** [BaseModelConfigGenerator.is_done], with [_done_walking] resolved in
    the subclass. *)
Definition is_done (g : t) : bool :=
  Base._live (base g) && _done_walking g.

Definition _start_state_machine (g : t) : t :=
  with_counters true 1 (_min_model_batch_size g) g.

Definition _reset_max_batch_size (g : t) : t :=
  with_counters (_state_machine_started g) (_curr_instance_count g)
    (_min_model_batch_size g) g.

Definition _step_instance_count (g : t) : t :=
  with_counters (_state_machine_started g) (_curr_instance_count g + 1)
    (_curr_max_batch_size g) g.

Definition _step_max_batch_size (g : t) : t :=
  with_counters (_state_machine_started g) (_curr_instance_count g)
    (_curr_max_batch_size g * 2) g.

Definition _step_state_machine (g : t) : t :=
  if _done_walking_max_batch_size g then
    _step_instance_count (_reset_max_batch_size g)
  else
    _step_max_batch_size g.

Definition _step (g : t) : t :=
  if negb (_state_machine_started g) then _start_state_machine g
  else _step_state_machine g.

(** The dict display allocates a new object on every call. *)
Definition _get_curr_param_combo (g : t) : DictObj * t :=
  if negb (_state_machine_started g) then (Base.DEFAULT_PARAM_COMBO, g)
  else
    let config :=
      {| obj_id := Allocated (Base.heap_next (base g));
         obj_items :=
           [ ("dynamic_batching", VDict []);
             ("max_batch_size", VInt (_curr_max_batch_size g));
             ("instance_group",
              VList [VDict [ ("count", VInt (_curr_instance_count g));
                             ("kind", VStr (_instance_kind g)) ]]) ] |} in
    (config,
     with_base (Base.with_heap_next (S (Base.heap_next (base g))) (base g)) g).

Definition _get_next_model_config (g : t) : Dict * t :=
  let '(param_combo, g1) := _get_curr_param_combo g in
  let '(model_config, b) :=
    Base._make_direct_mode_model_config (Some param_combo) (base g1) in
  (model_config, with_base b g1).

(** The generator object returned by [next_config()]: its frame has not
    started running, or is suspended at the [yield]. *)
Inductive Frame : Type := Created | Suspended.

(** [next(generator)]: run the body of [next_config] up to the next
    [yield]. *)
Definition next (fr : Frame) (g : t) : Dict * (Frame * t) :=
  let g1 :=
    match fr with
    | Created => with_base (Base.with_live true (base g)) g
    | Suspended => _step g
    end in
  let '(config, g2) := _get_next_model_config g1 in
  (config, (Suspended, g2)).

(** The loop that consumes the generator (as the repository's tests
    write it):
    [while not mcg.is_done(): c = next(gen); mcg.set_last_results(r)].
    [feedback k] is the result handed back for the [k]-th candidate.
    The boolean tells whether the loop ended within the fuel. *)
Fixpoint drive (fuel : nat) (feedback : nat → Results) (k : nat)
    (fr : Frame) (g : t) : list Dict * bool :=
  match fuel with
  | O => ([], is_done g)
  | S fuel' =>
      if is_done g then ([], true)
      else
        let '(config, (fr', g')) := next fr g in
        let '(rest, finished) :=
          drive fuel' feedback (S k) fr' (set_last_results (feedback k) g') in
        (config :: rest, finished)
  end.

(** The same alternation of [next] and [set_last_results], [n] times,
    whatever [is_done] says; the frame and the object are returned with
    the candidates. *)
Fixpoint pull (n : nat) (feedback : nat → Results) (k : nat)
    (fr : Frame) (g : t) : list Dict * (Frame * t) :=
  match n with
  | O => ([], (fr, g))
  | S n' =>
      let '(config, (fr', g')) := next fr g in
      let '(rest, final) :=
        pull n' feedback (S k) fr' (set_last_results (feedback k) g') in
      (config :: rest, final)
  end.

End WithMeasurement.

Arguments t : clear implicits.

(** The [name] entry of an emitted configuration. *)
Definition config_name (c : Dict) : option string :=
  match dict_get "name" c with
  | Some (VStr s) => Some s
  | _ => None
  end.

(** The instance count and the max batch size of an emitted
    configuration. *)
Definition config_instance_count (c : Dict) : option Z :=
  match dict_get "instance_group" c with
  | Some (VList (VDict group :: _)) =>
      match dict_get "count" group with
      | Some (VInt n) => Some n
      | _ => None
      end
  | _ => None
  end.

Definition config_max_batch_size (c : Dict) : option Z :=
  match dict_get "max_batch_size" c with
  | Some (VInt n) => Some n
  | _ => None
  end.

End AutomaticModelConfigGenerator.

(** ** run_config_generator.py *)

(** Exceptions that the modelled code can raise. *)
Inductive Raised : Type :=
| IndexError
| AttributeError
| ZeroDivisionError
| StopIteration
| TritonModelAnalyzerException.

#[global] Instance Raised_eq_dec : EqDecision Raised.
Proof. solve_decision. Defined.

(** A result, or the exception raised instead. *)
Inductive Exc (A : Type) : Type :=
| Ok (a : A)
| Raise (e : Raised).

Arguments Ok {A} a.
Arguments Raise {A} e.

#[global] Instance Exc_ret : MRet Exc := fun A a => Ok a.

#[global] Instance Exc_bind : MBind Exc := fun A B k m =>
  match m with
  | Ok a => k a
  | Raise e => Raise e
  end.

(** Python list objects live in a store: two names for one list see each
    other's updates. *)
Definition loc : Type := nat.

(** The interface of [ModelRunConfigGenerator], whose source is not part
    of the development: construction (together with the call of its
    [next_config()]), [is_done], [next] on its generator, and
    [set_last_results], which is handed a reference to a list object and
    may read the store. *)
Class ModelRunConfigGeneratorInterface (Measurement ModelRunConfig G : Type) := {
  mrcg_new : Config → ModelSpec → G;
  mrcg_is_done : gmap loc (list Measurement) → G → bool;
  mrcg_next : gmap loc (list Measurement) → G → ModelRunConfig * G;
  mrcg_set_last_results : loc → gmap loc (list Measurement) → G → G
}.

Module RunConfigGenerator.

Section WithGenerators.
Context {Measurement ModelRunConfig G : Type}.
Context `{!ModelRunConfigGeneratorInterface Measurement ModelRunConfig G}.

(** [RunConfig(triton_env)] followed by the [add_model_run_config] calls. *)
Record RunConfig : Type := mkRunConfig {
  rc_triton_env : gmap string string;
  rc_model_run_configs : list (option ModelRunConfig)
}.

Record t : Type := mk {
  _config : Config;
  _models : list ModelSpec;
  _triton_env : gmap string string;
  _num_models : nat;
  _curr_model_run_configs : list (option ModelRunConfig);
  _curr_results : list loc;
  _curr_generators : list (option G);
  store : gmap loc (list Measurement);
  store_next : loc
}.

(** The [for] loop of [_determine_triton_server_env]. *)
Fixpoint check_envs (triton_env : gmap string string) (models : list ModelSpec)
  : Exc (gmap string string) :=
  match models with
  | [] => Ok triton_env
  | model :: models' =>
      if bool_decide (triton_server_environment model ≠ triton_env)
      then Raise TritonModelAnalyzerException
      else check_envs triton_env models'
  end.

Definition _determine_triton_server_env (models : list ModelSpec)
  : Exc (gmap string string) :=
  match models with
  | [] => Raise IndexError
  | model0 :: _ => check_envs (triton_server_environment model0) models
  end.

(** [[[]] * n] evaluates the inner display once: one list object, [n]
    references to it. *)
Definition __init__ (config : Config) (models : list ModelSpec) : Exc t :=
  triton_env ← _determine_triton_server_env models;
  let n := length models in
  let shared : loc := 0%nat in
  Ok {| _config := config;
        _models := models;
        _triton_env := triton_env;
        _num_models := n;
        _curr_model_run_configs := replicate n None;
        _curr_results := replicate n shared;
        _curr_generators := replicate n None;
        store := {[ shared := [] ]};
        store_next := 1%nat |}.

Definition with_store (h : gmap loc (list Measurement)) (next : loc) (s : t) : t :=
  {| _config := _config s;
     _models := _models s;
     _triton_env := _triton_env s;
     _num_models := _num_models s;
     _curr_model_run_configs := _curr_model_run_configs s;
     _curr_results := _curr_results s;
     _curr_generators := _curr_generators s;
     store := h;
     store_next := next |}.

Definition with_curr_results (r : list loc) (s : t) : t :=
  {| _config := _config s;
     _models := _models s;
     _triton_env := _triton_env s;
     _num_models := _num_models s;
     _curr_model_run_configs := _curr_model_run_configs s;
     _curr_results := r;
     _curr_generators := _curr_generators s;
     store := store s;
     store_next := store_next s |}.

Definition with_curr_generators (gens : list (option G)) (s : t) : t :=
  {| _config := _config s;
     _models := _models s;
     _triton_env := _triton_env s;
     _num_models := _num_models s;
     _curr_model_run_configs := _curr_model_run_configs s;
     _curr_results := _curr_results s;
     _curr_generators := gens;
     store := store s;
     store_next := store_next s |}.

Definition with_curr_model_run_configs
    (slots : list (option ModelRunConfig)) (s : t) : t :=
  {| _config := _config s;
     _models := _models s;
     _triton_env := _triton_env s;
     _num_models := _num_models s;
     _curr_model_run_configs := slots;
     _curr_results := _curr_results s;
     _curr_generators := _curr_generators s;
     store := store s;
     store_next := store_next s |}.

(** [self._curr_results[index].extend(measurements)] for each index. *)
Fixpoint update_loop (indices : list nat) (measurements : list Measurement)
    (s : t) : Exc t :=
  match indices with
  | [] => Ok s
  | index :: rest =>
      match _curr_results s !! index with
      | None => Raise IndexError
      | Some l =>
          update_loop rest measurements
            (with_store (alter (fun old => old ++ measurements) l (store s))
               (store_next s) s)
      end
  end.

Definition _update_results_for_all_generators (measurements : list Measurement)
    (s : t) : Exc t :=
  update_loop (seq 0 (_num_models s)) measurements s.

(** The loop body of [_send_results_to_appropriate_generators]: hand the
    list over, bind the slot to a new empty list, stop at the first
    generator that is not done. *)
Fixpoint send_loop (indices : list nat) (s : t) : Exc t :=
  match indices with
  | [] => Ok s
  | index :: rest =>
      match _curr_generators s !! index, _curr_results s !! index with
      | Some (Some g), Some l =>
          let g' := mrcg_set_last_results l (store s) g in
          let s1 :=
            with_curr_generators (<[index := Some g']> (_curr_generators s)) s in
          let fresh := store_next s1 in
          let s2 :=
            with_curr_results (<[index := fresh]> (_curr_results s1))
              (with_store (<[fresh := []]> (store s1)) (S fresh) s1) in
          if negb (mrcg_is_done (store s2) g') then Ok s2
          else send_loop rest s2
      | Some None, _ => Raise AttributeError
      | _, _ => Raise IndexError
      end
  end.

Definition _send_results_to_appropriate_generators (s : t) : Exc t :=
  send_loop (rev (seq 0 (_num_models s))) s.

Definition set_last_results (measurements : list Measurement) (s : t) : Exc t :=
  s1 ← _update_results_for_all_generators measurements s;
  _send_results_to_appropriate_generators s1.

Definition _make_run_config (s : t) : RunConfig :=
  {| rc_triton_env := _triton_env s;
     rc_model_run_configs :=
       (fun index => mjoin (_curr_model_run_configs s !! index))
         <$> seq 0 (length (_models s)) |}.

(** [is_done]: the first generator exists and every generator is done. *)
Definition is_done (s : t) : Exc bool :=
  match _curr_generators s !! 0%nat with
  | None => Raise IndexError
  | Some None => Ok false
  | Some (Some _) =>
      (fix all_done (gens : list (option G)) : Exc bool :=
         match gens with
         | [] => Ok true
         | None :: _ => Raise AttributeError
         | Some g :: gens' =>
             rest ← all_done gens';
             Ok (mrcg_is_done (store s) g && rest)
         end) (_curr_generators s)
  end.

(** What one [next] on the generator of [next_config()] ends with. *)
Inductive Outcome : Type :=
| Yield (rc : RunConfig) (s : t)
| Stopped (s : t)
| Failed (e : Raised)
| OutOfFuel.

(** Entry into [_generate_subset(index)]: build the generator of the model
    and record it. *)
Definition enter_subset (index : nat) (s : t) : Exc t :=
  match _models s !! index with
  | None => Raise IndexError
  | Some model =>
      Ok (with_curr_generators
            (<[index := Some (mrcg_new (_config s) model)]> (_curr_generators s)) s)
  end.

(** The [while] loop of the frame of [_generate_subset(index)], from its
    test.  A frame that ends returns into the loop of the frame below
    it; the frame of index 0 ending ends the generator. *)
Fixpoint subset_loop (fuel : nat) (index : nat) (s : t) : Outcome :=
  match fuel with
  | O => OutOfFuel
  | S fuel' =>
      match _curr_generators s !! index with
      | Some (Some mrcg) =>
          if negb (mrcg_is_done (store s) mrcg) then
            let '(next_config, mrcg') := mrcg_next (store s) mrcg in
            let s1 :=
              with_curr_model_run_configs
                (<[index := Some next_config]> (_curr_model_run_configs s))
                (with_curr_generators
                   (<[index := Some mrcg']> (_curr_generators s)) s) in
            if bool_decide (Z.of_nat index = Z.of_nat (length (_models s1)) - 1)
            then Yield (_make_run_config s1) s1
            else
              match enter_subset (S index) s1 with
              | Raise e => Failed e
              | Ok s2 => subset_loop fuel' (S index) s2
              end
          else
            match index with
            | O => Stopped s
            | S below => subset_loop fuel' below s
            end
      | _ => Failed AttributeError
      end
  end.

(** The frames of the generator returned by [next_config()]. *)
Inductive Frame : Type := Created | Suspended | Finished.

Definition next (fuel : nat) (fr : Frame) (s : t) : Outcome :=
  match fr with
  | Created =>
      match enter_subset 0 s with
      | Raise e => Failed e
      | Ok s1 => subset_loop fuel 0 s1
      end
  | Suspended => subset_loop fuel (length (_models s) - 1) s
  | Finished => Failed StopIteration
  end.

End WithGenerators.

Arguments t : clear implicits.
Arguments RunConfig : clear implicits.
Arguments Outcome : clear implicits.

End RunConfigGenerator.

(** ** model_run_config_generator.py *)

Module ModelRunConfigGenerator.
Module A := AutomaticModelConfigGenerator.

Section WithRepository.
Context {Measurement : Type}.

(** The model repository: the stored configuration of each model, by
    name. *)
Context (repository : string → Py.Dict).

(** Modelled from the spec: [ModelRunConfigGenerator], the class that
    [RunConfigGenerator._generate_subset] constructs; its file
    model_run_config_generator.py is not part of the development.  The
    specification (section 4.4) has it compose the serving-configuration
    generator of its model with a new load generator for every serving
    configuration, forward each pair, and route the results: to the load
    generator while that one is running, to the serving generator once
    the load generator is done.  It owns its serving generator, and with
    it the name counter (section 9: no global counters).  The load sweep is
    taken here with one candidate per serving configuration (one batch
    size, one concurrency): its load generator is done as soon as that
    candidate is out, so every candidate is the next serving
    configuration, every batch of results goes to the serving generator,
    and the object is done when its serving generator is.  The load half
    of a candidate, the same every time, is left out. *)
Record t : Type := mk {
  _mcg : A.t Measurement;
  _mcg_frame : A.Frame
}.

(** Modelled from the spec: construction of [ModelRunConfigGenerator],
    which builds the serving generator of the model, a new object with
    its own name counter. *)
Definition __init__ (config : Config) (model : ModelSpec) : t :=
  {| _mcg := A.__init__ config model (repository (model_name model));
     _mcg_frame := A.Created |}.

(** Modelled from the spec: [ModelRunConfigGenerator.is_done], with a
    load generator that is done. *)
Definition is_done (g : t) : bool := A.is_done (_mcg g).

(** Modelled from the spec: [next] on the generator of
    [ModelRunConfigGenerator.next_config()], which forwards the next
    serving configuration. *)
Definition next (g : t) : Py.Dict * t :=
  let '(model_config, (fr, mcg)) := A.next (_mcg_frame g) (_mcg g) in
  (model_config, {| _mcg := mcg; _mcg_frame := fr |}).

(** Modelled from the spec: [ModelRunConfigGenerator.set_last_results],
    which routes the results to the serving generator once the load
    generator is done. *)
Definition set_last_results (measurements : A.Base.Results Measurement) (g : t) : t :=
  {| _mcg := A.set_last_results measurements (_mcg g);
     _mcg_frame := _mcg_frame g |}.

(** Modelled from the spec: the four operations as
    [RunConfigGenerator] calls them.  A batch handed over is a list of
    results, each of them a list of measurements; the list is read when
    it is handed over. *)
Definition interface
  : ModelRunConfigGeneratorInterface (list (option Measurement)) Py.Dict t :=
  {| mrcg_new := __init__;
     mrcg_is_done _ g := is_done g;
     mrcg_next _ g := next g;
     mrcg_set_last_results l h g := set_last_results (default [] (h !! l)) g |}.

End WithRepository.

Arguments t : clear implicits.

End ModelRunConfigGenerator.

(** ** perf_analyzer_config_generator.py *)

Module PerfAnalyzerConfigGenerator.

(** [l[i]] with Python's negative indices. *)
Definition py_index {A : Type} (l : list A) (i : Z) : Exc A :=
  let pos := if bool_decide (i < 0) then Z.of_nat (length l) + i else i in
  if bool_decide (pos < 0) then Raise IndexError
  else
    match l !! Z.to_nat pos with
    | Some a => Ok a
    | None => Raise IndexError
    end.

Section WithNumbers.
(** Throughputs are Python numbers.  The generator subtracts, divides
    and compares them; these operations and the constant
    [THROUGHPUT_GAIN] of [model_analyzer.constants] are taken as given.
    [num_is_zero] tells when [/] raises [ZeroDivisionError]. *)
Context {Measurement PerfAnalyzerConfig Num : Type}.
Context (get_metric_value_perf_throughput : Measurement → Num).
Context (num_sub num_div : Num → Num → Num).
Context (num_is_zero : Num → bool).
Context (num_gt : Num → Num → bool).
Context (THROUGHPUT_GAIN : Num).

(** An element of [_last_results]: the placeholder string that [__init__]
    puts there, or a measurement. *)
Inductive LastResult : Type :=
| Placeholder (s : string)
| Measured (m : Measurement).

Record t : Type := mk {
  _curr_config_index : Z;
  _last_results : list LastResult;
  _all_results : list Measurement;
  _configs : list PerfAnalyzerConfig
}.

(** [_generate_perf_configs] fills [_configs] at construction; the list it
    builds is a parameter here. *)
Definition __init__ (configs : list PerfAnalyzerConfig) : t :=
  {| _curr_config_index := 0;
     _last_results := [Placeholder "valid"];
     _all_results := [];
     _configs := configs |}.

Definition next_config (s : t) : Exc (PerfAnalyzerConfig * t) :=
  config ← py_index (_configs s) (_curr_config_index s);
  Ok (config,
      {| _curr_config_index := _curr_config_index s + 1;
         _last_results := _last_results s;
         _all_results := _all_results s;
         _configs := _configs s |}).

Definition set_last_results (measurement : list Measurement) (s : t) : t :=
  {| _curr_config_index := _curr_config_index s;
     _last_results := Measured <$> measurement;
     _all_results := _all_results s ++ measurement;
     _configs := _configs s |}.

Definition _all_configs_returned (s : t) : bool :=
  bool_decide (Z.of_nat (length (_configs s)) = _curr_config_index s).

(** [not self._last_results] *)
Definition _last_results_erroneous (s : t) : bool :=
  match _last_results s with
  | [] => true
  | _ :: _ => false
  end.

Definition _get_throughput (measurement : Measurement) : Num :=
  get_metric_value_perf_throughput measurement.

Definition _calculate_throughput_gain (index : Z) (s : t) : Exc Num :=
  before ← py_index (_all_results s) (- (index + 1));
  let throughput_before := _get_throughput before in
  after ← py_index (_all_results s) (- index);
  let throughput_after := _get_throughput after in
  if num_is_zero throughput_before then Raise ZeroDivisionError
  else Ok (num_div (num_sub throughput_after throughput_before) throughput_before).

(** [a or b], [b] being evaluated only when [a] is false. *)
Definition or_else (a : Exc bool) (b : Exc bool) : Exc bool :=
  match a with
  | Ok true => Ok true
  | Ok false => b
  | Raise e => Raise e
  end.

Definition gain_above_threshold (index : Z) (s : t) : Exc bool :=
  gain ← _calculate_throughput_gain index s;
  Ok (num_gt gain THROUGHPUT_GAIN).

Definition _throughput_gain_valid (s : t) : Exc bool :=
  if bool_decide (Z.of_nat (length (_all_results s)) < 4) then Ok true
  else
    or_else (gain_above_threshold 1 s)
      (or_else (gain_above_threshold 2 s) (gain_above_threshold 3 s)).

Definition is_done (s : t) : Exc bool :=
  or_else (Ok (_all_configs_returned s))
    (or_else (Ok (_last_results_erroneous s))
       (valid ← _throughput_gain_valid s; Ok (negb valid))).

End WithNumbers.

Arguments t : clear implicits.
Arguments LastResult : clear implicits.

End PerfAnalyzerConfigGenerator.

(** ** constraint_manager.py *)

Module ConstraintManager.

(** A metric record: the [tag] of its type and its [value()]. *)
Record Metric : Type := mkMetric {
  tag : string;
  value : Q
}.

(** [RunConfigMeasurement.data()]: per model, the list of its metrics. *)
Record RunConfigMeasurement : Type := mkRunConfigMeasurement {
  data : list (list Metric)
}.

Definition Qlt_bool (a b : Q) : bool := negb (Qle_bool b a).

(** The body of the inner loop: [false] where the code returns [False]. *)
Definition metric_within (constraints : gmap string (gmap string Q))
    (metric : Metric) : bool :=
  match constraints !! tag metric with
  | Some constraint =>
      if match constraint !! "min" with
         | Some lo => Qlt_bool (value metric) lo
         | None => false
         end
      then false
      else
        if match constraint !! "max" with
           | Some hi => Qlt_bool hi (value metric)
           | None => false
           end
        then false
        else true
  | None => true
  end.

Fixpoint check_metrics (constraints : gmap string (gmap string Q))
    (model_metrics : list Metric) : bool :=
  match model_metrics with
  | [] => true
  | metric :: rest =>
      if metric_within constraints metric then check_metrics constraints rest
      else false
  end.

Fixpoint check_models (constraints : gmap string (gmap string Q))
    (models : list (list Metric)) : bool :=
  match models with
  | [] => true
  | model_metrics :: rest =>
      if check_metrics constraints model_metrics
      then check_models constraints rest
      else false
  end.

(** [constraints] is [None] for Python's [None]; [if constraints:] holds
    for a dict that is not empty. *)
Definition check_constraints (constraints : option (gmap string (gmap string Q)))
    (run_config_measurement : RunConfigMeasurement) : bool :=
  match constraints with
  | Some cs =>
      if bool_decide (cs ≠ ∅) then check_models cs (data run_config_measurement)
      else true
  | None => true
  end.

(** An entry of [config.analysis_models]: [model_name()] and
    [constraints()], the latter in the form that [check_constraints]
    takes. *)
Record AnalysisModel : Type := mkAnalysisModel {
  model_name : string;
  constraints : option (gmap string (gmap string Q))
}.

(** The configuration as [get_constraints_for_all_models] reads it: the
    models, and the entry of [get_all_config()] under the key
    ["constraints"] when there is one. *)
Record AnalysisConfig : Type := mkAnalysisConfig {
  analysis_models : list AnalysisModel;
  all_config_constraints : option (option (gmap string (gmap string Q)))
}.

Definition get_constraints_for_all_models (config : AnalysisConfig)
  : gmap string (option (gmap string (gmap string Q))) :=
  let per_model :=
    foldl (fun acc model => <[model_name model := constraints model]> acc)
      ∅ (analysis_models config) in
  match all_config_constraints config with
  | Some global => <["default" := global]> per_model
  | None => per_model
  end.

End ConstraintManager.

(** * Properties *)

(** ** Dicts and names *)

Module PyFacts.
Import Py.

Lemma dict_get_set_eq k v d : dict_get k (dict_set k v d) = Some v.
Proof.
  induction d as [|[k' v'] d IH]; simpl.
  - by rewrite decide_True.
  - destruct (decide (k = k')) as [->|Hne]; simpl.
    + by rewrite decide_True.
    + by rewrite decide_False.
Qed.

Lemma dict_get_set_ne k k' v d :
  k ≠ k' → dict_get k (dict_set k' v d) = dict_get k d.
Proof.
  intros Hne. induction d as [|[k0 v0] d IH]; simpl.
  - by rewrite decide_False.
  - destruct (decide (k' = k0)) as [->|Hne0]; simpl.
    + by rewrite !decide_False.
    + destruct (decide (k = k0)); [done | apply IH].
Qed.

(** No decimal numeral starts with the letter d. *)
Lemma pretty_N_go_not_d x s rest :
  s ≠ String "d"%char rest → pretty_N_go x s ≠ String "d"%char rest.
Proof.
  revert s. induction (N.lt_wf_0 x) as [x _ IH]; intros s Hs.
  destruct (decide (x = 0)%N) as [->|Hx].
  - by rewrite pretty_N_go_0.
  - rewrite pretty_N_go_step by lia.
    apply IH; [apply N.div_lt; lia|].
    unfold pretty_N_char. repeat case_match; discriminate.
Qed.

Lemma pretty_Z_not_default (k : Z) : pretty k ≠ "default".
Proof.
  destruct k as [|p|p]; [done| |done].
  unfold pretty, pretty_Z, pretty, pretty_positive, pretty, pretty_N.
  rewrite decide_False by done.
  by apply pretty_N_go_not_d.
Qed.

End PyFacts.

(** ** The automatic search: one step, termination test, naming *)

Module AutomaticFacts.
Import Py PyFacts.
Module A := AutomaticModelConfigGenerator.
Module B := BaseModelConfigGenerator.

Section WithMeasurement.
Context {Measurement : Type}.
Implicit Types (g : A.t Measurement) (b : B.t Measurement).

(** Some result of the last feedback holds a [None] entry. *)
Definition has_None_entry (results : B.Results Measurement) : Prop :=
  ∃ result, result ∈ results ∧ None ∈ result.

(** The batch-size axis is exhausted at the current instance count. *)
Definition batch_axis_exhausted g : Prop :=
  2 * A._curr_max_batch_size g > A._max_model_batch_size g
  ∨ has_None_entry (B._last_results (A.base g)).

Lemma last_results_erroneous_iff g :
  A._last_results_erroneous g = true ↔ has_None_entry (B._last_results (A.base g)).
Proof.
  unfold A._last_results_erroneous, has_None_entry.
  rewrite existsb_exists. split.
  - intros (result & Hin & Hex). apply existsb_exists in Hex as (m & Hm & Hnone).
    exists result. split; [by apply list_elem_of_In|].
    destruct m; [discriminate|]. by apply list_elem_of_In.
  - intros (result & Hin & Hnone). exists result.
    split; [by apply list_elem_of_In|].
    apply existsb_exists. exists None. split; [by apply list_elem_of_In|done].
Qed.

Lemma done_walking_max_batch_size_iff g :
  A._done_walking_max_batch_size g = true ↔ batch_axis_exhausted g.
Proof.
  unfold A._done_walking_max_batch_size, batch_axis_exhausted,
    A._max_batch_size_limit_reached.
  rewrite orb_true_iff, bool_decide_eq_true, last_results_erroneous_iff.
  split; (intros [H|H]; [left; lia | by right]).
Qed.

(** C5.  One step of the started state machine: when the batch-size axis
    is exhausted (twice the current max batch size exceeds the cap, or
    the last results hold a [None] entry) the max batch size goes back to
    the minimum and the instance count grows by one; otherwise the max
    batch size doubles and the instance count stays. *)
Theorem step_state_machine_cases g :
  A._state_machine_started g = true →
  (batch_axis_exhausted g
   ∧ A._curr_max_batch_size (A._step g) = A._min_model_batch_size g
   ∧ A._curr_instance_count (A._step g) = A._curr_instance_count g + 1)
  ∨ (¬ batch_axis_exhausted g
     ∧ A._curr_max_batch_size (A._step g) = 2 * A._curr_max_batch_size g
     ∧ A._curr_instance_count (A._step g) = A._curr_instance_count g).
Proof.
  intros Hstarted. unfold A._step, A._step_state_machine. rewrite Hstarted. simpl.
  destruct (A._done_walking_max_batch_size g) eqn:Hdone.
  - left. split; [by apply done_walking_max_batch_size_iff | done].
  - right. split.
    + rewrite <- done_walking_max_batch_size_iff. congruence.
    + simpl. split; [lia | done].
Qed.

Lemma is_done_iff g :
  A.is_done g = true ↔
    B._live (A.base g) = true
    ∧ A._curr_instance_count g >= A._max_instance_count g
    ∧ batch_axis_exhausted g.
Proof.
  unfold A.is_done, A._done_walking, A._done_walking_instance_count.
  rewrite !andb_true_iff, bool_decide_eq_true, done_walking_max_batch_size_iff.
  tauto.
Qed.

(** [next] and [set_last_results] never clear the latch, and the first
    [next] sets it. *)
Lemma live_after_next fr g :
  B._live (A.base (A.next fr g).2.2) =
    match fr with A.Created => true | A.Suspended => B._live (A.base g) end.
Proof.
  unfold A.next, A._get_next_model_config, A._get_curr_param_combo,
    B._make_direct_mode_model_config, B._get_model_variant_name.
  destruct fr; simpl.
  - repeat (case_match; simplify_eq/=); done.
  - unfold A._step, A._step_state_machine.
    repeat (case_match; simplify_eq/=); done.
Qed.

Lemma frame_after_next fr g : (A.next fr g).2.1 = A.Suspended.
Proof.
  unfold A.next. repeat (case_match; simplify_eq/=); done.
Qed.

Lemma live_after_pull n feedback k fr g :
  B._live (A.base (A.pull n feedback k fr g).2.2) =
    match n, fr with
    | S _, A.Created => true
    | _, _ => B._live (A.base g)
    end.
Proof.
  revert k fr g. induction n as [|n IH]; intros k fr g; simpl.
  - by destruct fr.
  - pose proof (live_after_next fr g) as Hlive.
    pose proof (frame_after_next fr g) as Hfr.
    destruct (A.next fr g) as [config [fr' g']]. simpl in *. subst fr'.
    specialize (IH (S k) A.Suspended (A.set_last_results (feedback k) g')).
    destruct (A.pull n feedback (S k) A.Suspended _) as [rest final].
    simpl in *. rewrite IH.
    destruct n, fr; simpl; done.
Qed.

(** C6.  [is_done] holds exactly when the latch is set, the instance count
    has reached the maximum and the batch-size axis is exhausted; the
    latch is clear on a new generator and set once [next] has run at
    least once. *)
Theorem is_done_characterisation :
  (∀ g, A.is_done g = true ↔
          B._live (A.base g) = true
          ∧ A._curr_instance_count g >= A._max_instance_count g
          ∧ batch_axis_exhausted g)
  ∧ (∀ config model stored,
       A.is_done (A.__init__ (Measurement:=Measurement) config model stored) = false)
  ∧ (∀ config model stored feedback n,
       B._live (A.base (A.pull n feedback 0 A.Created
                          (A.__init__ (Measurement:=Measurement)
                             config model stored)).2.2) = true
       ↔ (0 < n)%nat).
Proof.
  split; [apply is_done_iff|]. split; [done|].
  intros. rewrite live_after_pull. destruct n; simpl; split; (done || lia).
Qed.

End WithMeasurement.

End AutomaticFacts.

(** ** Names of the emitted configurations *)

Module NamingFacts.
Import Py PyFacts.
Module A := AutomaticModelConfigGenerator.
Module B := BaseModelConfigGenerator.

Lemma default_ne_indexed (base_name : string) (k : Z) :
  B.default_variant_name base_name ≠ B.indexed_variant_name base_name k.
Proof.
  unfold B.default_variant_name, B.indexed_variant_name. intros Heq.
  change "_config_default" with ("_config_" +:+ "default") in Heq.
  apply String.app_inj, String.app_inj in Heq.
  by eapply pretty_Z_not_default.
Qed.

Lemma indexed_inj (base_name : string) : Inj (=) (=) (B.indexed_variant_name base_name).
Proof.
  intros j k Heq. unfold B.indexed_variant_name in Heq.
  apply String.app_inj, String.app_inj in Heq. by apply (inj pretty).
Qed.

Section WithMeasurement.
Context {Measurement : Type}.
Implicit Types (g : A.t Measurement) (b : B.t Measurement).

Definition name_of g : string := B._base_model_name (A.base g).
Definition index_of g : Z := B._model_name_index (A.base g).

(** The names that [n] emissions of a new generator carry. *)
Definition expected_names (base_name : string) (n : nat) : list string :=
  take n (B.default_variant_name base_name
          :: ((fun k : nat => B.indexed_variant_name base_name (Z.of_nat k))
                <$> seq 0 n)).

Lemma make_config_name (combo : option DictObj) b :
  A.config_name (B._make_direct_mode_model_config combo b).1 =
    Some (B._get_model_variant_name combo b).1.
Proof.
  unfold B._make_direct_mode_model_config.
  destruct (B._get_model_variant_name combo b) as [name b']. simpl.
  unfold A.config_name. by rewrite dict_get_set_eq.
Qed.

Lemma step_started g : A._state_machine_started (A._step g) = true.
Proof.
  unfold A._step, A._step_state_machine.
  destruct (A._state_machine_started g) eqn:Hs; simpl; [|done].
  by destruct (A._done_walking_max_batch_size g).
Qed.

Lemma step_base g : A.base (A._step g) = A.base g.
Proof.
  unfold A._step, A._step_state_machine.
  destruct (A._state_machine_started g); simpl; [|done].
  by destruct (A._done_walking_max_batch_size g).
Qed.

(** What one emission does to the name counter. *)
Lemma get_next_model_config_name g :
  let r := A._get_next_model_config g in
  name_of r.2 = name_of g
  ∧ if A._state_machine_started g
    then A.config_name r.1 = Some (B.indexed_variant_name (name_of g) (index_of g))
         ∧ index_of r.2 = index_of g + 1
    else A.config_name r.1 = Some (B.default_variant_name (name_of g))
         ∧ index_of r.2 = index_of g.
Proof.
  unfold A._get_next_model_config, A._get_curr_param_combo, name_of, index_of.
  destruct (A._state_machine_started g) eqn:Hs; simpl.
  - split_and!; [done| |done].
    unfold A.config_name. by rewrite dict_get_set_eq.
  - split_and!; [done| |done].
    unfold A.config_name. by rewrite dict_get_set_eq.
Qed.

Lemma next_suspended_name g :
  let r := A.next A.Suspended g in
  A.config_name r.1 = Some (B.indexed_variant_name (name_of g) (index_of g))
  ∧ r.2.1 = A.Suspended
  ∧ name_of r.2.2 = name_of g
  ∧ index_of r.2.2 = index_of g + 1.
Proof.
  unfold A.next.
  pose proof (get_next_model_config_name (A._step g)) as Hn.
  rewrite step_started in Hn. unfold name_of, index_of in *.
  rewrite step_base in Hn.
  destruct (A._get_next_model_config (A._step g)) as [config g2].
  simpl in *. destruct Hn as (? & ? & ?). by split_and!.
Qed.

Lemma next_created_name g :
  A._state_machine_started g = false →
  let r := A.next A.Created g in
  A.config_name r.1 = Some (B.default_variant_name (name_of g))
  ∧ r.2.1 = A.Suspended
  ∧ name_of r.2.2 = name_of g
  ∧ index_of r.2.2 = index_of g.
Proof.
  intros Hs. unfold A.next.
  pose proof (get_next_model_config_name
                (A.with_base (B.with_live true (A.base g)) g)) as Hn.
  simpl in Hn. rewrite Hs in Hn. unfold name_of, index_of in *. simpl in Hn.
  destruct (A._get_next_model_config _) as [config g2].
  simpl in *. destruct Hn as (? & ? & ?). by split_and!.
Qed.

Lemma pull_S n feedback k fr g :
  (A.pull (S n) feedback k fr g).1 =
    (A.next fr g).1
    :: (A.pull n feedback (S k) (A.next fr g).2.1
          (A.set_last_results (feedback k) (A.next fr g).2.2)).1.
Proof.
  simpl. destruct (A.next fr g) as [config [fr' g']]. simpl.
  by destruct (A.pull n feedback (S k) fr' _).
Qed.

Lemma pull_suspended_names n feedback k g :
  A.config_name <$> (A.pull n feedback k A.Suspended g).1 =
    (fun j : nat => Some (B.indexed_variant_name (name_of g) (index_of g + Z.of_nat j)))
      <$> seq 0 n.
Proof.
  revert k g. induction n as [|n IH]; intros k g; [done|].
  rewrite pull_S, fmap_cons.
  pose proof (next_suspended_name g) as (Hname & Hfr & Hbase & Hidx).
  cbv zeta in *. rewrite Hfr, Hname, IH.
  cbn [seq]. rewrite fmap_cons, Z.add_0_r. f_equal.
  rewrite <- fmap_S_seq, <- list_fmap_compose. apply list_fmap_ext.
  intros i j _. cbn. unfold name_of, index_of in *. cbn.
  rewrite Hbase, Hidx. do 2 f_equal. lia.
Qed.

Lemma pull_names config model stored feedback n :
  A.config_name <$>
    (A.pull n feedback 0 A.Created
       (A.__init__ (Measurement:=Measurement) config model stored)).1 =
  Some <$> expected_names (model_name model) n.
Proof.
  unfold expected_names. destruct n as [|n]; [done|].
  set (g0 := A.__init__ config model stored).
  rewrite pull_S, fmap_cons.
  pose proof (next_created_name g0 eq_refl) as (Hname & Hfr & Hbase & Hidx).
  cbv zeta in *. rewrite Hfr, Hname, pull_suspended_names.
  rewrite firstn_cons, fmap_cons. f_equal.
  rewrite seq_S, fmap_app.
  rewrite take_app_le, take_ge by (rewrite ?length_fmap, ?length_seq; lia).
  rewrite <- !list_fmap_compose. apply list_fmap_ext.
  intros i j _. cbn. unfold name_of, index_of in *. cbn.
  rewrite Hbase, Hidx. done.
Qed.

Lemma expected_names_NoDup base_name n : NoDup (expected_names base_name n).
Proof.
  unfold expected_names.
  eapply sublist_NoDup; [|apply sublist_take]. constructor.
  - rewrite list_elem_of_fmap. intros (k & Heq & _).
    by eapply default_ne_indexed.
  - apply NoDup_fmap_2; [|apply NoDup_seq].
    intros i j Heq. apply indexed_inj in Heq. lia.
Qed.

(** The loop that stops at [is_done] consumes a prefix of what [pull]
    produces. *)
Lemma drive_is_pull fuel feedback k fr g :
  ∃ n, (n ≤ fuel)%nat
       ∧ (A.drive fuel feedback k fr g).1 = (A.pull n feedback k fr g).1.
Proof.
  revert k fr g. induction fuel as [|fuel IH]; intros k fr g; simpl.
  - by exists 0%nat.
  - destruct (A.is_done g); [by exists 0%nat; split; [lia|]|].
    destruct (A.next fr g) as [config [fr' g']] eqn:Hnext.
    destruct (IH (S k) fr' (A.set_last_results (feedback k) g')) as (n & Hle & Heq).
    exists (S n). split; [lia|]. simpl. rewrite Hnext.
    destruct (A.drive fuel feedback (S k) fr' _) as [rest fin].
    destruct (A.pull n feedback (S k) fr' _) as [rest' final].
    simpl in *. by subst.
Qed.

(** Successive calls of [_make_direct_mode_model_config] on one object,
    one per parameter combination. *)
Fixpoint make_all (combos : list (option DictObj)) b : list Dict :=
  match combos with
  | [] => []
  | combo :: rest =>
      let '(model_config, b') := B._make_direct_mode_model_config combo b in
      model_config :: make_all rest b'
  end.

(** How many of the combinations are not the default object. *)
Definition non_default (combos : list (option DictObj)) : nat :=
  length (filter (fun combo => B.is_default_combo combo = false) combos).

(** The name of the configuration built from a combination when [k]
    combinations other than the default object came before it. *)
Definition variant_name (base_name : string) (k : Z) (combo : option DictObj)
  : string :=
  if B.is_default_combo combo then B.default_variant_name base_name
  else B.indexed_variant_name base_name k.

Lemma non_default_cons combo combos :
  non_default (combo :: combos) =
    ((if B.is_default_combo combo then 0 else 1) + non_default combos)%nat.
Proof.
  unfold non_default. rewrite filter_cons.
  destruct (decide (B.is_default_combo combo = false)) as [->|Hd]; [done|].
  by destruct (B.is_default_combo combo).
Qed.

Lemma make_all_name combos b (i : nat) combo :
  combos !! i = Some combo →
  A.config_name <$> make_all combos b !! i =
    Some (Some (variant_name (B._base_model_name b)
                  (B._model_name_index b + Z.of_nat (non_default (take i combos)))
                  combo)).
Proof.
  revert b i. induction combos as [|first rest IH]; intros b i Hi; [done|].
  simpl.
  pose proof (make_config_name first b) as Hname.
  destruct (B._make_direct_mode_model_config first b) as [model_config b'] eqn:Hmake.
  assert (B._base_model_name b' = B._base_model_name b
          ∧ B._model_name_index b' =
              B._model_name_index b
              + (if B.is_default_combo first then 0 else 1)) as [Hbase Hidx].
  { unfold B._make_direct_mode_model_config, B._get_model_variant_name in Hmake.
    destruct (B.is_default_combo first) eqn:Hd; simplify_eq; simpl; split;
      (done || lia). }
  destruct i as [|i]; simpl in *.
  - simplify_eq. rewrite Hname. unfold B._get_model_variant_name, variant_name.
    change (non_default []) with 0%nat. rewrite Z.add_0_r.
    by destruct (B.is_default_combo combo).
  - rewrite (IH b' i Hi), Hbase, Hidx. do 3 f_equal.
    rewrite non_default_cons.
    destruct (B.is_default_combo first); lia.
Qed.

Lemma non_default_take_lt combos (i j : nat) ci :
  (i < j)%nat → combos !! i = Some ci → B.is_default_combo ci = false →
  (non_default (take i combos) < non_default (take j combos))%nat.
Proof.
  intros Hlt Hi Hd.
  assert (non_default (take (S i) combos) = S (non_default (take i combos))) as HS.
  { rewrite (take_S_r _ _ _ Hi). unfold non_default.
    rewrite filter_app, length_app. fold (non_default [ci]).
    rewrite non_default_cons, Hd. change (non_default []) with 0%nat. lia. }
  assert (non_default (take (S i) combos) ≤ non_default (take j combos))%nat; [|lia].
  replace j with (S i + (j - S i))%nat by lia.
  rewrite <- (take_drop (S i) (take (S i + (j - S i)) combos)).
  rewrite take_take. replace (S i `min` (S i + (j - S i)))%nat with (S i) by lia.
  unfold non_default. rewrite filter_app, length_app. lia.
Qed.

Lemma make_all_distinct combos b (i j : nat) ci cj :
  i ≠ j → combos !! i = Some ci → combos !! j = Some cj →
  B.is_default_combo ci && B.is_default_combo cj = false →
  A.config_name <$> make_all combos b !! i ≠ A.config_name <$> make_all combos b !! j.
Proof.
  intros Hne Hi Hj Hnot.
  rewrite (make_all_name combos b i ci Hi), (make_all_name combos b j cj Hj).
  unfold variant_name. intros Heq. simplify_eq.
  destruct (B.is_default_combo ci) eqn:Hdi, (B.is_default_combo cj) eqn:Hdj;
    simpl in *; try done.
  - by apply default_ne_indexed in Heq.
  - symmetry in Heq. by apply default_ne_indexed in Heq.
  - apply indexed_inj in Heq.
    destruct (decide (i < j)%nat).
    + pose proof (non_default_take_lt combos i j ci ltac:(done) Hi Hdi). lia.
    + pose proof (non_default_take_lt combos j i cj ltac:(lia) Hj Hdj). lia.
Qed.

(** C8.  The names emitted by one generator object are pairwise
    distinct.  For the automatic generator: the first candidate is named
    [<base>_config_default], the candidate after it [<base>_config_0],
    and each later one takes the next integer, for any number of
    emissions and any feedback, and so for the candidates consumed by
    the loop that stops at [is_done].  For [_get_model_variant_name] on
    one object and any sequence of parameter combinations: a combination
    that is the default object gets [<base>_config_default], any other
    [<base>_config_<k>] where [k] counts the combinations other than the
    default object before it, so two configurations share a name only
    when both come from the default object.  The counter belongs to the
    object and starts at 0 in every object that is built. *)
Theorem emitted_names_distinct config model stored
    (feedback : nat → B.Results Measurement) :
  let g0 := A.__init__ config model stored in
  let b0 := B.__init__ (Measurement:=Measurement) config model stored in
  (∀ n, A.config_name <$> (A.pull n feedback 0 A.Created g0).1 =
          Some <$> expected_names (model_name model) n)
  ∧ (∀ n, NoDup (A.config_name <$> (A.pull n feedback 0 A.Created g0).1))
  ∧ (∀ fuel, NoDup (A.config_name <$> (A.drive fuel feedback 0 A.Created g0).1))
  ∧ (∀ combos (i : nat) combo,
       combos !! i = Some combo →
       A.config_name <$> make_all combos b0 !! i =
         Some (Some (variant_name (model_name model)
                       (Z.of_nat (non_default (take i combos))) combo)))
  ∧ (∀ combos (i j : nat) ci cj,
       i ≠ j → combos !! i = Some ci → combos !! j = Some cj →
       B.is_default_combo ci && B.is_default_combo cj = false →
       A.config_name <$> make_all combos b0 !! i
       ≠ A.config_name <$> make_all combos b0 !! j)
  ∧ B._model_name_index b0 = 0
  ∧ index_of g0 = 0.
Proof.
  intros g0 b0.
  assert (∀ n, NoDup (A.config_name <$> (A.pull n feedback 0 A.Created g0).1))
    as Hpull.
  { intros n. unfold g0. rewrite pull_names.
    apply NoDup_fmap_2; [apply _ | apply expected_names_NoDup]. }
  split_and!; [intros n; apply pull_names | done | | | |done..].
  - intros fuel.
    destruct (drive_is_pull fuel feedback 0 A.Created g0) as (n & _ & ->).
    apply Hpull.
  - intros combos i combo Hi. by rewrite (make_all_name combos b0 i combo Hi).
  - intros combos i j ci cj. apply make_all_distinct.
Qed.

(** C9.  The default probe is recognised by the identity of the combo
    object.  A combo gets the default name exactly when it is the
    [DEFAULT_PARAM_COMBO] object; a different object with the same, empty
    contents is named [<base>_config_<k>] and advances the counter, also
    in the configuration built from it. *)
Theorem default_combo_by_identity b :
  (∀ combo : DictObj,
     (B._get_model_variant_name (Some combo) b).1 =
       B.default_variant_name (B._base_model_name b)
     ↔ obj_id combo = ClassDefaultCombo)
  ∧ B._get_model_variant_name (Some B.DEFAULT_PARAM_COMBO) b =
      (B.default_variant_name (B._base_model_name b), b)
  ∧ (∀ n : nat,
       let empty := {| obj_id := Allocated n; obj_items := [] |} in
       obj_items empty = obj_items B.DEFAULT_PARAM_COMBO
       ∧ B._get_model_variant_name (Some empty) b =
           (B.indexed_variant_name (B._base_model_name b) (B._model_name_index b),
            B.with_model_name_index (B._model_name_index b + 1) b)
       ∧ A.config_name (B._make_direct_mode_model_config (Some empty) b).1 =
           Some (B.indexed_variant_name (B._base_model_name b)
                   (B._model_name_index b))
       ∧ B._model_name_index (B._make_direct_mode_model_config (Some empty) b).2 =
           B._model_name_index b + 1)
  ∧ (∀ g : A.t Measurement,
       is_ (A._get_curr_param_combo g).1 B.DEFAULT_PARAM_COMBO =
         negb (A._state_machine_started g)).
Proof.
  split_and!.
  - intros combo. unfold B._get_model_variant_name, B.is_default_combo, is_.
    simpl. case_bool_decide as Hid; simpl.
    + done.
    + split; [|done]. intros Heq. symmetry in Heq.
      by apply default_ne_indexed in Heq.
  - done.
  - intros n empty. split_and!; try done.
    rewrite make_config_name. done.
  - intros g. unfold A._get_curr_param_combo.
    by destruct (A._state_machine_started g).
Qed.

End WithMeasurement.

End NamingFacts.

(** ** The automatic search on the inputs of the repository's tests *)

Module SearchFacts.
Import Py.
Module A := AutomaticModelConfigGenerator.
Module B := BaseModelConfigGenerator.

(** Feedback without any [None] entry, one measurement per candidate. *)
Definition good_feedback : nat → B.Results unit := fun _ => [[Some ()]].

Definition my_model : ModelSpec :=
  {| model_name := "my-model"; cpu_only := false; triton_server_environment := ∅ |}.

(** [test_run_config_search_min_instance_counts]: instance counts 2 to 3,
    batch sizes 2 to 8. *)
Definition min_instance_config : Config :=
  {| model_repository := "cli_repository";
     run_config_search_min_instance_count := 2;
     run_config_search_max_instance_count := 3;
     run_config_search_min_model_batch_size := 2;
     run_config_search_max_model_batch_size := 8 |}.

(** C1.  With instance counts bounded by 2 and 3 and batch sizes by 2 and
    8, the state machine starts at instance count 1, not at the minimum,
    and the loop ends after 10 candidates, where [N·K + 1] is 7. *)
Theorem automatic_search_starts_at_one :
  let g0 := A.__init__ min_instance_config my_model [("max_batch_size", VInt 8)] in
  let run := A.drive 100 good_feedback 0 A.Created g0 in
  run.2 = true
  ∧ length run.1 = 10%nat
  ∧ A.config_instance_count <$> run.1 =
      [None; Some 1; Some 1; Some 1; Some 2; Some 2; Some 2;
       Some 3; Some 3; Some 3]
  ∧ A.config_max_batch_size <$> run.1 =
      Some <$> [8; 2; 4; 8; 2; 4; 8; 2; 4; 8]
  ∧ SpecUtils.power_of_two_ladder_between 2 8 = [2; 4; 8]
  ∧ SpecUtils.automatic_candidate_count 2 3 2 8 = 7.
Proof. vm_compute. by split_and!. Qed.

(** The generator of that search once its state machine has started:
    instance count 1, max batch size 2, no feedback yet. *)
Definition started_generator : A.t unit :=
  A._start_state_machine
    (A.__init__ min_instance_config my_model [("max_batch_size", VInt 8)]).

Lemma step_state_machine_cases_witness :
  A._curr_max_batch_size (A._step started_generator) = 4
  ∧ A._curr_instance_count (A._step started_generator) = 1.
Proof.
  destruct (AutomaticFacts.step_state_machine_cases started_generator eq_refl)
    as [(Hexhausted & _)|(_ & Hbatch & Hcount)].
  - exfalso. destruct Hexhausted as [Hlimit|(result & Hin & _)].
    + by vm_compute in Hlimit.
    + by apply elem_of_nil in Hin.
  - by rewrite Hbatch, Hcount.
Defined.

(** [test_search_dynamic_batching_subparameter]: the stored configuration
    has dynamic batching on, with a sub-parameter. *)
Definition batching_config : Config :=
  {| model_repository := "cli_repository";
     run_config_search_min_instance_count := 1;
     run_config_search_max_instance_count := 4;
     run_config_search_min_model_batch_size := 8;
     run_config_search_max_model_batch_size := 8 |}.

Definition batching_stored : Dict :=
  [ ("max_batch_size", VInt 4);
    ("instance_group", VList [VDict [("kind", VStr "KIND_GPU"); ("count", VInt 1)]]);
    ("dynamic_batching", VDict [("max_queue_delay_microseconds", VInt 100)]) ].

Definition batching_overlay : Dict :=
  [ ("dynamic_batching", VDict []);
    ("max_batch_size", VInt 8);
    ("instance_group", VList [VDict [("count", VInt 1); ("kind", VStr "KIND_GPU")]]) ].

(** C2.  The second candidate of the automatic search over a stored
    configuration whose [dynamic_batching] has a sub-parameter: the code
    assigns the overlay value to the key, so the emitted [dynamic_batching]
    is empty, where [deep_merge] of the same two dictionaries keeps the
    sub-parameter. *)
Theorem overlay_assignment_drops_subparameter :
  let g0 := A.__init__ (Measurement:=unit) batching_config my_model batching_stored in
  let g1 := (A.next A.Created g0).2.2 in
  let emitted := (A.next A.Suspended g1).1 in
  (A._get_curr_param_combo (A._step g1)).1.(obj_items) = batching_overlay
  ∧ dict_get "dynamic_batching" emitted = Some (VDict [])
  ∧ dict_get "dynamic_batching" (SpecUtils.deep_merge batching_stored batching_overlay)
      = Some (VDict [("max_queue_delay_microseconds", VInt 100)])
  ∧ dict_get "max_batch_size" emitted = Some (VInt 8)
  ∧ dict_get "max_batch_size" (SpecUtils.deep_merge batching_stored batching_overlay)
      = Some (VInt 8).
Proof. vm_compute. by split_and!. Qed.

End SearchFacts.

(** ** The run-config generator: environment check and feedback routing *)

Module RunConfigFacts.
Module R := RunConfigGenerator.

Section WithGenerators.
Context {Measurement ModelRunConfig G : Type}.
Context `{!ModelRunConfigGeneratorInterface Measurement ModelRunConfig G}.
Implicit Types (s : R.t Measurement ModelRunConfig G) (models : list ModelSpec).

(** What the driver does with the generator: ask for the next candidate,
    or hand back measurements. *)
Inductive Action : Type :=
| DoNext (fuel : nat)
| DoSetLastResults (measurements : list Measurement).

(** The candidates emitted along a sequence of driver actions; an
    exception ends the session. *)
Fixpoint session (actions : list Action) (fr : R.Frame) s
  : list (R.RunConfig ModelRunConfig) :=
  match actions with
  | [] => []
  | DoNext fuel :: rest =>
      match R.next fuel fr s with
      | R.Yield rc s' => rc :: session rest R.Suspended s'
      | R.Stopped s' => session rest R.Finished s'
      | R.Failed _ => []
      | R.OutOfFuel => []
      end
  | DoSetLastResults measurements :: rest =>
      match R.set_last_results measurements s with
      | Ok s' => session rest fr s'
      | Raise _ => []
      end
  end.

Lemma check_envs_cases triton_env models :
  (R.check_envs triton_env models = Ok triton_env
   ∧ ∀ m, m ∈ models → triton_server_environment m = triton_env)
  ∨ (R.check_envs triton_env models = Raise TritonModelAnalyzerException
     ∧ ∃ m, m ∈ models ∧ triton_server_environment m ≠ triton_env).
Proof.
  induction models as [|model models IH]; simpl.
  - left. split; [done|]. intros m Hm. by apply elem_of_nil in Hm.
  - case_bool_decide as Hne.
    + right. split; [done|]. exists model. split; [apply list_elem_of_here | done].
    + destruct IH as [[Hok Hall]|[Hraise (m & Hin & Hm)]].
      * left. split; [done|]. intros m Hm.
        apply elem_of_cons in Hm as [->|Hm]; [|by apply Hall].
        by destruct (decide (triton_server_environment model = triton_env)).
      * right. split; [done|]. exists m. split; [by apply list_elem_of_further | done].
Qed.

Lemma determine_env_mismatch models :
  R._determine_triton_server_env models = Raise TritonModelAnalyzerException
  ↔ ∃ m1 m2, m1 ∈ models ∧ m2 ∈ models
             ∧ triton_server_environment m1 ≠ triton_server_environment m2.
Proof.
  destruct models as [|model0 models]; simpl.
  - split; [done|]. intros (m1 & _ & Hin & _). by apply elem_of_nil in Hin.
  - change (if bool_decide (triton_server_environment model0
                            ≠ triton_server_environment model0)
            then Raise TritonModelAnalyzerException
            else R.check_envs (triton_server_environment model0) models)
      with (R.check_envs (triton_server_environment model0) (model0 :: models)).
    destruct (check_envs_cases (triton_server_environment model0) (model0 :: models))
      as [[Hok Hall]|[Hraise (m & Hin & Hm)]].
    + rewrite Hok. split; [done|]. intros (m1 & m2 & H1 & H2 & Hne).
      apply Hall in H1, H2. congruence.
    + rewrite Hraise. split; [|done]. intros _.
      exists m, model0. split_and!; [done | apply list_elem_of_here | done].
Qed.

Lemma determine_env_ok models triton_env :
  R._determine_triton_server_env models = Ok triton_env →
  models ≠ [] ∧ ∀ m, m ∈ models → triton_server_environment m = triton_env.
Proof.
  destruct models as [|model0 models]; [done|]. intros Hok.
  split; [done|].
  change (R._determine_triton_server_env (model0 :: models))
    with (R.check_envs (triton_server_environment model0) (model0 :: models)) in Hok.
  destruct (check_envs_cases (triton_server_environment model0) (model0 :: models))
    as [[Hok' Hall]|[Hraise _]]; [|congruence].
  rewrite Hok' in Hok. by simplify_eq.
Qed.

(** No method assigns [_triton_env] after construction. *)
Lemma update_loop_env indices measurements s s' :
  R.update_loop indices measurements s = Ok s' → R._triton_env s' = R._triton_env s.
Proof.
  revert s. induction indices as [|index rest IH]; intros s Hok; simpl in Hok.
  - by simplify_eq.
  - destruct (R._curr_results s !! index); [|done].
    by apply IH in Hok.
Qed.

Lemma send_loop_env indices s s' :
  R.send_loop indices s = Ok s' → R._triton_env s' = R._triton_env s.
Proof.
  revert s. induction indices as [|index rest IH]; intros s Hok; simpl in Hok.
  - by simplify_eq.
  - destruct (R._curr_generators s !! index) as [[g|]|]; [|done..].
    destruct (R._curr_results s !! index); [|done].
    destruct (negb _); [by simplify_eq|].
    by apply IH in Hok.
Qed.

Lemma set_last_results_env measurements s s' :
  R.set_last_results measurements s = Ok s' → R._triton_env s' = R._triton_env s.
Proof.
  unfold R.set_last_results, R._update_results_for_all_generators,
    R._send_results_to_appropriate_generators.
  destruct (R.update_loop _ measurements s) as [s1|e] eqn:Hupd; [|done].
  simpl. intros Hsend. apply send_loop_env in Hsend. apply update_loop_env in Hupd.
  congruence.
Qed.

Lemma subset_loop_env fuel index s :
  match R.subset_loop fuel index s with
  | R.Yield rc s' =>
      R.rc_triton_env rc = R._triton_env s ∧ R._triton_env s' = R._triton_env s
  | R.Stopped s' => R._triton_env s' = R._triton_env s
  | _ => True
  end.
Proof.
  revert index s. induction fuel as [|fuel IH]; intros index s; simpl; [done|].
  destruct (R._curr_generators s !! index) as [[mrcg|]|]; [|done..].
  destruct (negb _).
  - destruct (mrcg_next (R.store s) mrcg) as [next_config mrcg'].
    case_bool_decide; [done|].
    unfold R.enter_subset. simpl.
    destruct (R._models s !! S index); [|done].
    match goal with |- context [R.subset_loop fuel ?i ?st] =>
      specialize (IH i st) end.
    by destruct (R.subset_loop fuel _ _).
  - destruct index as [|below]; [done|]. apply IH.
Qed.

Lemma next_env fuel fr s :
  match R.next fuel fr s with
  | R.Yield rc s' =>
      R.rc_triton_env rc = R._triton_env s ∧ R._triton_env s' = R._triton_env s
  | R.Stopped s' => R._triton_env s' = R._triton_env s
  | _ => True
  end.
Proof.
  destruct fr; simpl; [|apply subset_loop_env|done].
  unfold R.enter_subset. destruct (R._models s !! 0%nat); [|done].
  match goal with |- context [R.subset_loop fuel ?i ?st] =>
    pose proof (subset_loop_env fuel i st) as Hloop end.
  by destruct (R.subset_loop fuel _ _).
Qed.

Lemma session_env actions fr s rc :
  rc ∈ session actions fr s → R.rc_triton_env rc = R._triton_env s.
Proof.
  revert fr s. induction actions as [|[fuel|measurements] rest IH]; intros fr s; simpl.
  - intros Hin. by apply elem_of_nil in Hin.
  - pose proof (next_env fuel fr s) as Hnext.
    destruct (R.next fuel fr s) as [rc' s'|s'| |].
    + destruct Hnext as [Hrc Hs]. intros [->|Hin]%elem_of_cons; [done|].
      apply IH in Hin. congruence.
    + intros Hin. apply IH in Hin. congruence.
    + intros Hin. by apply elem_of_nil in Hin.
    + intros Hin. by apply elem_of_nil in Hin.
  - destruct (R.set_last_results measurements s) as [s'|e] eqn:Hset.
    + intros Hin. apply IH in Hin. apply set_last_results_env in Hset. congruence.
    + intros Hin. by apply elem_of_nil in Hin.
Qed.

(** C7.  Construction raises [TritonModelAnalyzerException] exactly when
    two of the models have unequal environments; then there is no
    generator to ask for candidates.  When construction succeeds, every
    model has the environment kept by the generator, and every candidate
    emitted afterwards, along any sequence of [next] and
    [set_last_results], carries it. *)
Theorem environment_check config models :
  (R.__init__ (Measurement:=Measurement) (ModelRunConfig:=ModelRunConfig)
      (G:=G) config models = Raise TritonModelAnalyzerException
   ↔ ∃ m1 m2, m1 ∈ models ∧ m2 ∈ models
              ∧ triton_server_environment m1 ≠ triton_server_environment m2)
  ∧ (∀ s, R.__init__ config models = Ok s →
          (∀ m, m ∈ models → triton_server_environment m = R._triton_env s)
          ∧ ∀ actions rc,
              rc ∈ session actions R.Created s →
              R.rc_triton_env rc = R._triton_env s).
Proof.
  unfold R.__init__. split.
  - rewrite <- determine_env_mismatch.
    destruct (R._determine_triton_server_env models) as [env|e]; simpl; [done|].
    split; congruence.
  - intros s Hinit.
    destruct (R._determine_triton_server_env models) as [env|e] eqn:Hdet;
      simpl in Hinit; [|done].
    apply determine_env_ok in Hdet as [_ Hall]. simplify_eq. simpl.
    split; [done|]. intros actions rc Hin. by apply session_env in Hin.
Qed.

End WithGenerators.

End RunConfigFacts.

(** ** A run over two models with recording generators *)

Module TwoModelRun.
Module R := RunConfigGenerator.

(** A generator that records what it is handed: the contents, at the time
    of the call, of the list it receives.  It numbers its candidates and is
    never done. *)
Record Probe : Type := mkProbe {
  received : list (list nat);
  pulls : nat
}.

#[global] Instance probe_interface : ModelRunConfigGeneratorInterface nat nat Probe := {
  mrcg_new _ _ := {| received := []; pulls := 0 |};
  mrcg_is_done _ _ := false;
  mrcg_next _ p := (pulls p, {| received := received p; pulls := S (pulls p) |});
  mrcg_set_last_results l h p :=
    {| received := received p ++ [default [] (h !! l)]; pulls := pulls p |}
}.

Definition gpu_env : gmap string string := {[ "CUDA_VISIBLE_DEVICES" := "0" ]}.

Definition model_a : ModelSpec :=
  {| model_name := "model_a"; cpu_only := false; triton_server_environment := gpu_env |}.

Definition model_b : ModelSpec :=
  {| model_name := "model_b"; cpu_only := false; triton_server_environment := gpu_env |}.

Definition run_config : Config :=
  {| model_repository := "cli_repository";
     run_config_search_min_instance_count := 1;
     run_config_search_max_instance_count := 5;
     run_config_search_min_model_batch_size := 1;
     run_config_search_max_model_batch_size := 128 |}.

Definition constructed : option (R.t nat nat Probe) :=
  match R.__init__ run_config [model_a; model_b] with
  | Ok s0 => Some s0
  | Raise _ => None
  end.

(** Construction, the first [next], then [set_last_results(measurements)]. *)
Definition first_feedback (measurements : list nat) : option (R.t nat nat Probe) :=
  match R.__init__ run_config [model_a; model_b] with
  | Ok s0 =>
      match R.next 10 R.Created s0 with
      | R.Yield _ s1 =>
          match R.set_last_results measurements s1 with
          | Ok s2 => Some s2
          | Raise _ => None
          end
      | _ => None
      end
  | Raise _ => None
  end.

(** C3.  Two models, one call [set_last_results([7])] after the first
    candidate: the two slots of [_curr_results] name one list, which is
    extended once per model, so the innermost generator is handed [7; 7],
    and the list left for the outer generator holds the measurement twice
    as well. *)
Theorem shared_list_duplicates_feedback :
  R._curr_results <$> constructed = Some [0; 0]%nat
  ∧ (fmap (M:=list) (fmap (M:=option) received) ∘ R._curr_generators
       <$> first_feedback [7%nat])
    = Some [Some []; Some [[7; 7]%nat]]
  ∧ ((fun s => (fun l => R.store s !! l) <$> R._curr_results s)
       <$> first_feedback [7%nat])
    = Some [Some [7; 7]%nat; Some []].
Proof. vm_compute. by split_and!. Qed.

Definition two_rounds : list (RunConfigFacts.Action (Measurement:=nat)) :=
  [RunConfigFacts.DoNext 10; RunConfigFacts.DoSetLastResults [7%nat];
   RunConfigFacts.DoNext 10].

Lemma environment_check_witness :
  match constructed with
  | Some s =>
      length (RunConfigFacts.session two_rounds R.Created s) = 2%nat
      ∧ Forall (fun rc => R.rc_triton_env rc = gpu_env)
          (RunConfigFacts.session two_rounds R.Created s)
  | None => False
  end.
Proof.
  unfold constructed.
  destruct (RunConfigFacts.environment_check (G:=Probe) (Measurement:=nat)
              (ModelRunConfig:=nat) run_config [model_a; model_b]) as [_ Hok].
  destruct (R.__init__ run_config [model_a; model_b]) as [s|e] eqn:Hinit;
    [|vm_compute in Hinit; discriminate].
  destruct (Hok s eq_refl) as [Henv Hrc]. split.
  - vm_compute in Hinit. injection Hinit as <-. vm_compute. reflexivity.
  - apply Forall_forall. intros rc Hin.
    rewrite (Hrc _ _ Hin). symmetry. apply (Henv model_a). apply list_elem_of_here.
Defined.

End TwoModelRun.

(** ** Names along a session over two models *)

Module SessionNames.
Import Py.
Module A := AutomaticModelConfigGenerator.
Module R := RunConfigGenerator.
Module MR := ModelRunConfigGenerator.

Definition env : gmap string string := {[ "LD_LIBRARY_PATH" := "/opt/lib" ]}.

Definition resnet : ModelSpec :=
  {| model_name := "resnet"; cpu_only := false; triton_server_environment := env |}.

Definition bert : ModelSpec :=
  {| model_name := "bert"; cpu_only := true; triton_server_environment := env |}.

(** One instance count and one batch size: each serving generator emits
    the default and one more candidate. *)
Definition options : Config :=
  {| model_repository := "models";
     run_config_search_min_instance_count := 1;
     run_config_search_max_instance_count := 1;
     run_config_search_min_model_batch_size := 1;
     run_config_search_max_model_batch_size := 1 |}.

Definition repository (name : string) : Dict :=
  [("name", VStr name); ("max_batch_size", VInt 4)].

#[local] Instance model_run_config_generators
  : ModelRunConfigGeneratorInterface (list (option nat)) Dict (MR.t nat) :=
  MR.interface repository.

(** One result holding one measurement after every candidate, until the
    generator ends. *)
Definition driver : list (RunConfigFacts.Action (Measurement:=list (option nat))) :=
  [RunConfigFacts.DoNext 10; RunConfigFacts.DoSetLastResults [[Some 1%nat]];
   RunConfigFacts.DoNext 10; RunConfigFacts.DoSetLastResults [[Some 1%nat]];
   RunConfigFacts.DoNext 10; RunConfigFacts.DoSetLastResults [[Some 1%nat]];
   RunConfigFacts.DoNext 10; RunConfigFacts.DoSetLastResults [[Some 1%nat]];
   RunConfigFacts.DoNext 10].

(** The candidates of the session over [resnet] and [bert]. *)
Definition candidates : list (R.RunConfig Dict) :=
  match R.__init__ (G:=MR.t nat) options [resnet; bert] with
  | Ok s0 => RunConfigFacts.session driver R.Created s0
  | Raise _ => []
  end.

(** The names of the serving configurations of the model at [index],
    candidate by candidate. *)
Definition names_of_model (index : nat) (rcs : list (R.RunConfig Dict))
  : list (option string) :=
  (fun rc => mjoin (R.rc_model_run_configs rc !! index) ≫= A.config_name) <$> rcs.

(** Within one session the names emitted for [bert] are not pairwise
    distinct: its generator is built again, with the counter at 0, when
    the generator of [resnet] moves on to its second candidate.  The
    generator of [bert], the innermost, emits once per candidate; the
    slot of [resnet] is carried from one candidate to the next. *)
Lemma names_repeat_in_session_counterexample :
  names_of_model 0 candidates =
    [Some "resnet_config_default"; Some "resnet_config_default";
     Some "resnet_config_0"; Some "resnet_config_0"]
  ∧ names_of_model 1 candidates =
      [Some "bert_config_default"; Some "bert_config_0";
       Some "bert_config_default"; Some "bert_config_0"]
  ∧ ¬ NoDup (names_of_model 1 candidates).
Proof.
  assert (names_of_model 1 candidates =
            [Some "bert_config_default"; Some "bert_config_0";
             Some "bert_config_default"; Some "bert_config_0"]) as Hinner
    by (by vm_compute).
  split_and!; [by vm_compute|done|].
  rewrite Hinner. intros [Hnot _]%NoDup_cons. apply Hnot.
  apply list_elem_of_further, list_elem_of_here.
Qed.

End SessionNames.

(** ** The load-profile generator: when it is done *)

Module PerfAnalyzerFacts.
Module P := PerfAnalyzerConfigGenerator.

Lemma py_index_from_end {A : Type} (older recent : list A) (k : nat) (x : A) :
  (0 < k)%nat → recent !! (length recent - k)%nat = Some x → (k ≤ length recent)%nat →
  P.py_index (older ++ recent) (- Z.of_nat k) = Ok x.
Proof.
  intros Hk Hx Hle. unfold P.py_index.
  rewrite (bool_decide_eq_true_2 (- Z.of_nat k < 0)) by lia.
  rewrite bool_decide_eq_false_2 by (rewrite length_app; lia).
  replace (Z.to_nat (Z.of_nat (length (older ++ recent)) + - Z.of_nat k))
    with (length older + (length recent - k))%nat by (rewrite length_app; lia).
  rewrite lookup_app_r by lia.
  replace (length older + (length recent - k) - length older)%nat
    with (length recent - k)%nat by lia.
  by rewrite Hx.
Qed.

Lemma last_four {A : Type} (l : list A) :
  (4 ≤ length l)%nat → ∃ older a b c d, l = older ++ [a; b; c; d].
Proof.
  intros Hlen. exists (take (length l - 4) l).
  pose proof (take_drop (length l - 4) l) as Hsplit.
  assert (length (drop (length l - 4) l) = 4%nat) as Hdrop
    by (rewrite length_drop; lia).
  destruct (drop (length l - 4) l) as [|a [|b [|c [|d [|? ?]]]]]; try discriminate.
  by exists a, b, c, d.
Qed.

Section WithNumbers.
Context {Measurement PerfAnalyzerConfig Num : Type}.
Context (throughput : Measurement → Num).
Context (num_sub num_div : Num → Num → Num).
Context (num_is_zero : Num → bool).
Context (num_gt : Num → Num → bool).
Context (THROUGHPUT_GAIN : Num).

Implicit Types s : P.t Measurement PerfAnalyzerConfig.

Abbreviation is_done :=
  (P.is_done throughput num_sub num_div num_is_zero num_gt THROUGHPUT_GAIN).
Abbreviation throughput_gain_valid :=
  (P._throughput_gain_valid throughput num_sub num_div num_is_zero num_gt
     THROUGHPUT_GAIN).
Abbreviation gain_above_threshold :=
  (P.gain_above_threshold throughput num_sub num_div num_is_zero num_gt
     THROUGHPUT_GAIN).

(** The relative gain from one throughput to the next. *)
Definition relative_gain (before after : Measurement) : Num :=
  num_div (num_sub (throughput after) (throughput before)) (throughput before).

(** The test [gain > THROUGHPUT_GAIN] fails. *)
Definition not_above (gain : Num) : Prop := num_gt gain THROUGHPUT_GAIN = false.

(** At least four measurements, and each of the last three gains is
    defined and not above the threshold. *)
Definition plateau s : Prop :=
  ∃ older a b c d,
    P._all_results s = older ++ [a; b; c; d]
    ∧ num_is_zero (throughput a) = false
    ∧ num_is_zero (throughput b) = false
    ∧ num_is_zero (throughput c) = false
    ∧ not_above (relative_gain c d)
    ∧ not_above (relative_gain b c)
    ∧ not_above (relative_gain a b).

(** The same with a relation [≤] on the numbers in place of the failed
    test. *)
Definition plateau_le (num_le : Num → Num → Prop) s : Prop :=
  ∃ older a b c d,
    P._all_results s = older ++ [a; b; c; d]
    ∧ num_is_zero (throughput a) = false
    ∧ num_is_zero (throughput b) = false
    ∧ num_is_zero (throughput c) = false
    ∧ num_le (relative_gain c d) THROUGHPUT_GAIN
    ∧ num_le (relative_gain b c) THROUGHPUT_GAIN
    ∧ num_le (relative_gain a b) THROUGHPUT_GAIN.

Definition stop_condition s : Prop :=
  Z.of_nat (length (P._configs s)) = P._curr_config_index s
  ∨ P._last_results s = []
  ∨ plateau s.

(** Among the last four measurements, a gain that the chain of [or]
    reaches has a zero throughput to divide by: the most recent gain is
    always reached, an earlier one only when every gain after it is
    defined and not above the threshold. *)
Definition reaches_zero (a b c d : Measurement) : Prop :=
  num_is_zero (throughput c) = true
  ∨ (num_is_zero (throughput c) = false
     ∧ not_above (relative_gain c d)
     ∧ (num_is_zero (throughput b) = true
        ∨ (num_is_zero (throughput b) = false
           ∧ not_above (relative_gain b c)
           ∧ num_is_zero (throughput a) = true))).

(** Configurations remain, the last measurement list is not empty, four
    measurements are recorded, and a division by zero is reached. *)
Definition zero_division s : Prop :=
  Z.of_nat (length (P._configs s)) ≠ P._curr_config_index s
  ∧ P._last_results s ≠ []
  ∧ ∃ older a b c d,
      P._all_results s = older ++ [a; b; c; d] ∧ reaches_zero a b c d.

(** One comparison of [_throughput_gain_valid]. *)
Definition gain_test (before after : Measurement) : Exc bool :=
  if num_is_zero (throughput before) then Raise ZeroDivisionError
  else Ok (num_gt (relative_gain before after) THROUGHPUT_GAIN).

Lemma throughput_gain_valid_short s :
  (length (P._all_results s) < 4)%nat → throughput_gain_valid s = Ok true.
Proof.
  intros Hlen. unfold P._throughput_gain_valid.
  by rewrite bool_decide_eq_true_2 by lia.
Qed.

Lemma throughput_gain_valid_last_four s older a b c d :
  P._all_results s = older ++ [a; b; c; d] →
  throughput_gain_valid s =
    P.or_else (gain_test c d) (P.or_else (gain_test b c) (gain_test a b)).
Proof.
  intros Hall. unfold P._throughput_gain_valid.
  rewrite bool_decide_eq_false_2 by (rewrite Hall, length_app; simpl; lia).
  unfold P.gain_above_threshold, P._calculate_throughput_gain. rewrite Hall.
  assert (∀ i (k : nat) x,
            i = - Z.of_nat k → (0 < k)%nat → (k ≤ 4)%nat →
            [a; b; c; d] !! (4 - k)%nat = Some x →
            P.py_index (older ++ [a; b; c; d]) i = Ok x) as Hindex.
  { intros i k x -> Hk Hle Hx. by apply py_index_from_end. }
  rewrite (Hindex (- (1 + 1)) 2%nat c), (Hindex (Z.opp 1) 1%nat d),
    (Hindex (- (2 + 1)) 3%nat b), (Hindex (Z.opp 2) 2%nat c),
    (Hindex (- (3 + 1)) 4%nat a), (Hindex (Z.opp 3) 3%nat b) by (done || lia).
  unfold gain_test, relative_gain, P._get_throughput. simpl.
  destruct (num_is_zero (throughput c)), (num_is_zero (throughput b)),
    (num_is_zero (throughput a)); simpl; done.
Qed.

Lemma plateau_iff_not_valid s : plateau s ↔ throughput_gain_valid s = Ok false.
Proof.
  destruct (decide (length (P._all_results s) < 4)%nat) as [Hshort|Hlong].
  - rewrite throughput_gain_valid_short by done. split; [|done].
    intros (older & a & b & c & d & Hall & _).
    rewrite Hall, length_app in Hshort. simpl in Hshort. lia.
  - destruct (last_four (P._all_results s)) as (older & a & b & c & d & Hall);
      [lia|].
    rewrite (throughput_gain_valid_last_four s older a b c d Hall).
    unfold plateau, not_above, gain_test. split.
    + intros (older' & a' & b' & c' & d' & Hall' & Ha & Hb & Hc & H1 & H2 & H3).
      rewrite Hall in Hall'.
      apply app_inj_2 in Hall' as [_ Heq]; [|done]. simplify_eq.
      rewrite Ha, Hb, Hc, H1, H2, H3. done.
    + intros Hvalid. exists older, a, b, c, d.
      destruct (num_is_zero (throughput c)); [done|].
      destruct (num_gt (relative_gain c d) THROUGHPUT_GAIN); [done|].
      destruct (num_is_zero (throughput b)); [done|].
      destruct (num_gt (relative_gain b c) THROUGHPUT_GAIN); [done|].
      destruct (num_is_zero (throughput a)); [done|].
      destruct (num_gt (relative_gain a b) THROUGHPUT_GAIN); done.
Qed.

Lemma throughput_gain_valid_raises s (e : Raised) :
  throughput_gain_valid s = Raise e ↔
    e = ZeroDivisionError
    ∧ ∃ older a b c d,
        P._all_results s = older ++ [a; b; c; d] ∧ reaches_zero a b c d.
Proof.
  destruct (decide (length (P._all_results s) < 4)%nat) as [Hshort|Hlong].
  - rewrite throughput_gain_valid_short by done. split; [done|].
    intros (_ & older & a & b & c & d & Hall & _).
    rewrite Hall, length_app in Hshort. simpl in Hshort. lia.
  - destruct (last_four (P._all_results s)) as (older & a & b & c & d & Hall);
      [lia|].
    rewrite (throughput_gain_valid_last_four s older a b c d Hall).
    unfold reaches_zero, not_above, gain_test. split.
    + intros Hraise.
      enough (e = ZeroDivisionError ∧ reaches_zero a b c d) as [-> Hzero]
        by (split; [done|]; by exists older, a, b, c, d).
      unfold reaches_zero, not_above.
      destruct (num_is_zero (throughput c)); simpl in Hraise;
        [by simplify_eq; split; [|left]|].
      destruct (num_gt (relative_gain c d) THROUGHPUT_GAIN); simpl in Hraise; [done|].
      destruct (num_is_zero (throughput b)); simpl in Hraise;
        [by simplify_eq; split; [|right; split_and!; [..|left]]|].
      destruct (num_gt (relative_gain b c) THROUGHPUT_GAIN); simpl in Hraise; [done|].
      destruct (num_is_zero (throughput a)); simpl in Hraise;
        [by simplify_eq; split; [|right; split_and!; [..|right]]|].
      by destruct (num_gt (relative_gain a b) THROUGHPUT_GAIN).
    + intros (-> & older' & a' & b' & c' & d' & Hall' & Hzero).
      rewrite Hall in Hall'.
      apply app_inj_2 in Hall' as [_ Heq]; [|done]. simplify_eq.
      destruct Hzero as [->|(-> & -> & [->|(-> & -> & ->)])]; done.
Qed.

Lemma is_done_true_iff s : is_done s = Ok true ↔ stop_condition s.
Proof.
  unfold stop_condition. rewrite plateau_iff_not_valid.
  unfold P.is_done, P._all_configs_returned, P._last_results_erroneous.
  case_bool_decide as Hidx; simpl; [by split; [left|]|].
  destruct (P._last_results s) as [|r rs]; simpl; [by split; [right; left|]|].
  destruct (throughput_gain_valid s) as [[|]|e]; simpl.
  - split; [done|]. intros [?|[?|?]]; done.
  - split; [by right; right|done].
  - split; [done|]. intros [?|[?|?]]; done.
Qed.

Lemma is_done_raise_iff s (e : Raised) :
  is_done s = Raise e ↔ e = ZeroDivisionError ∧ zero_division s.
Proof.
  pose proof (throughput_gain_valid_raises s e) as Hvalid.
  unfold zero_division.
  unfold P.is_done, P._all_configs_returned, P._last_results_erroneous.
  case_bool_decide as Hidx; simpl.
  { split; [done|]. by intros (_ & ? & _). }
  destruct (P._last_results s) as [|r rs]; simpl.
  { split; [done|]. by intros (_ & _ & ? & _). }
  destruct (throughput_gain_valid s) as [valid|e']; simpl.
  - split; [done|]. intros (He & _ & _ & Hzero).
    by pose proof (proj2 Hvalid (conj He Hzero)).
  - split.
    + intros [= ->]. destruct (proj1 Hvalid eq_refl) as [He Hzero].
      by split_and!.
    + intros (He & _ & _ & Hzero).
      exact (proj2 Hvalid (conj He Hzero)).
Qed.

Lemma plateau_le_iff (num_le : Num → Num → Prop) s :
  (∀ a b, num_le a b ↔ num_gt a b = false) → plateau s ↔ plateau_le num_le s.
Proof.
  intros Hle. unfold plateau, plateau_le, not_above.
  repeat (f_equiv; intros ?). by rewrite !Hle.
Qed.

(** C4.  [is_done] returns true exactly when the index has
    reached the number of configurations, or the last measurement list
    is empty, or at least four measurements are recorded and each of the
    last three relative gains is defined and not above the threshold.
    It raises [ZeroDivisionError], and nothing else, exactly when none
    of the first two holds, four measurements are recorded and a gain
    that has to be computed divides by a zero throughput.  In every
    other case it returns false.  The last measurement list is the
    argument of the latest [set_last_results], and is not empty on a new
    generator.  Where [≤] on the numbers is the failure of [>], a gain
    is not above the threshold exactly when it is [≤] the threshold. *)
Theorem is_done_stop_condition s :
  (is_done s = Ok true ↔ stop_condition s)
  ∧ (∀ e, is_done s = Raise e ↔ e = ZeroDivisionError ∧ zero_division s)
  ∧ (is_done s = Ok false ↔ ¬ stop_condition s ∧ ¬ zero_division s)
  ∧ (∀ measurement,
       P._last_results (P.set_last_results measurement s) = [] ↔ measurement = [])
  ∧ (∀ configs : list PerfAnalyzerConfig,
       P._last_results (P.__init__ (Measurement:=Measurement) configs) ≠ [])
  ∧ (∀ num_le : Num → Num → Prop,
       (∀ a b, num_le a b ↔ num_gt a b = false) →
       (plateau s ↔ plateau_le num_le s)).
Proof.
  split_and!; [apply is_done_true_iff|apply is_done_raise_iff| | |done|].
  - rewrite <- is_done_true_iff.
    pose proof (is_done_raise_iff s) as Hraise.
    destruct (is_done s) as [[|]|e].
    + split; [done|]. intros [Hstop _]. by destruct Hstop.
    + split; [|done]. intros _. split; [done|].
      intros Hzero. by pose proof (proj2 (Hraise ZeroDivisionError) (conj eq_refl Hzero)).
    + split; [done|]. intros [_ Hzero]. destruct Hzero.
      apply (proj1 (Hraise e) eq_refl).
  - intros measurement. simpl. by destruct measurement.
  - intros num_le. apply plateau_le_iff.
Qed.

End WithNumbers.

End PerfAnalyzerFacts.

(** ** The load-profile generator over rational throughputs *)

Module PerfAnalyzerRational.
Module P := PerfAnalyzerConfigGenerator.
Module F := PerfAnalyzerFacts.

Definition Qgt_bool (a b : Q) : bool := negb (Qle_bool a b).
Definition Qis_zero (a : Q) : bool := Qeq_bool a 0.

(** The threshold named as an example by the specification. *)
Definition threshold : Q := 5 # 100.

(** A measurement is its throughput; a configuration is its number. *)
Definition is_done (s : P.t Q nat) : Exc bool :=
  P.is_done (fun m : Q => m) Qminus Qdiv Qis_zero Qgt_bool threshold s.

Lemma Qle_not_gt (a b : Q) : (a <= b)%Q ↔ Qgt_bool a b = false.
Proof.
  unfold Qgt_bool. rewrite negb_false_iff. symmetry. apply Qle_bool_iff.
Qed.

(** One measurement handed back after each of the given throughputs. *)
Definition after_throughputs (throughputs : list Q) : P.t Q nat :=
  foldl (fun s m => P.set_last_results [m] s)
    (P.__init__ [1; 2; 4; 8; 16; 32; 64; 128]%nat) throughputs.

(** Throughputs 10, 11, 11.1, 11.15, 11.17. *)
Definition flattening : P.t Q nat :=
  after_throughputs [10 # 1; 11 # 1; 111 # 10; 1115 # 100; 1117 # 100]%Q.

(** Throughputs 10, 20, 40, 80. *)
Definition doubling : P.t Q nat :=
  after_throughputs [10 # 1; 20 # 1; 40 # 1; 80 # 1]%Q.

Example flattening_is_done : is_done flattening = Ok true.
Proof. reflexivity. Qed.

Example doubling_is_not_done : is_done doubling = Ok false.
Proof. reflexivity. Qed.

Example zero_throughput_raises :
  is_done (after_throughputs [0 # 1; 0 # 1; 0 # 1; 0 # 1]%Q) = Raise ZeroDivisionError.
Proof. reflexivity. Qed.

(** Throughputs 10, 0, 10, 10: the second gain divides by zero. *)
Definition stalled : P.t Q nat :=
  after_throughputs [10 # 1; 0 # 1; 10 # 1; 10 # 1]%Q.

Abbreviation stop_condition :=
  (F.stop_condition (fun m : Q => m) Qminus Qdiv Qis_zero Qgt_bool threshold).
Abbreviation zero_division :=
  (F.zero_division (fun m : Q => m) Qminus Qdiv Qis_zero Qgt_bool threshold).

Lemma flattening_plateau :
  F.plateau (fun m : Q => m) Qminus Qdiv Qis_zero Qgt_bool threshold flattening.
Proof.
  exists [10 # 1]%Q, (11 # 1)%Q, (111 # 10)%Q, (1115 # 100)%Q, (1117 # 100)%Q.
  split_and!; try reflexivity; by vm_compute.
Qed.

Lemma doubling_goes_on : ¬ stop_condition doubling ∧ ¬ zero_division doubling.
Proof.
  split.
  - intros [Hidx|[Hlast|Hplateau]]; [done..|].
    destruct Hplateau as (older & a & b & c & d & Hall & _ & _ & _ & Hgain & _).
    apply (app_inj_2 [] older [10 # 1; 20 # 1; 40 # 1; 80 # 1]%Q [a; b; c; d])
      in Hall as [_ Hall]; [|done].
    injection Hall as <- <- <- <-. by vm_compute in Hgain.
  - intros (_ & _ & older & a & b & c & d & Hall & Hzero).
    apply (app_inj_2 [] older [10 # 1; 20 # 1; 40 # 1; 80 # 1]%Q [a; b; c; d])
      in Hall as [_ Hall]; [|done].
    injection Hall as <- <- <- <-.
    destruct Hzero as [Hc|(_ & Hgain & _)]; [by vm_compute in Hc|].
    by vm_compute in Hgain.
Qed.

Lemma stalled_divides_by_zero : zero_division stalled.
Proof.
  split_and!; [done..|].
  exists [], (10 # 1)%Q, (0 # 1)%Q, (10 # 1)%Q, (10 # 1)%Q.
  split; [reflexivity|]. right. split_and!; [by vm_compute..|]. by left.
Qed.

Lemma is_done_stop_condition_witness :
  is_done flattening = Ok true
  ∧ is_done doubling = Ok false
  ∧ is_done stalled = Raise ZeroDivisionError
  ∧ F.plateau_le (fun m : Q => m) Qminus Qdiv Qis_zero threshold Qle flattening.
Proof.
  split_and!.
  - apply (proj1 (F.is_done_stop_condition (PerfAnalyzerConfig:=nat)
                    (fun m : Q => m) Qminus Qdiv Qis_zero Qgt_bool threshold
                    flattening)).
    right; right. exact flattening_plateau.
  - apply (proj1 (proj2 (proj2 (F.is_done_stop_condition (PerfAnalyzerConfig:=nat)
                                  (fun m : Q => m) Qminus Qdiv Qis_zero Qgt_bool
                                  threshold doubling)))).
    exact doubling_goes_on.
  - apply (proj1 (proj2 (F.is_done_stop_condition (PerfAnalyzerConfig:=nat)
                           (fun m : Q => m) Qminus Qdiv Qis_zero Qgt_bool
                           threshold stalled))).
    split; [reflexivity|exact stalled_divides_by_zero].
  - apply (proj2 (proj2 (proj2 (proj2 (proj2
             (F.is_done_stop_condition (PerfAnalyzerConfig:=nat)
                (fun m : Q => m) Qminus Qdiv Qis_zero Qgt_bool threshold
                flattening))))) Qle Qle_not_gt).
    exact flattening_plateau.
Defined.

(** After the throughputs 10, 0, 10, 10, with configurations left and a
    last measurement list that is not empty, [is_done] returns neither
    true nor false: the most recent gain is 0, so the gain before it is
    computed, and it divides by the zero throughput. *)
Lemma is_done_zero_throughput_counterexample :
  P._all_results stalled = [10 # 1; 0 # 1; 10 # 1; 10 # 1]%Q
  ∧ Z.of_nat (length (P._configs stalled)) = 8
  ∧ P._curr_config_index stalled = 0
  ∧ P._last_results stalled = [P.Measured (10 # 1)%Q]
  ∧ is_done stalled = Raise ZeroDivisionError
  ∧ is_done stalled ≠ Ok true
  ∧ is_done stalled ≠ Ok false.
Proof. by split_and!. Qed.

End PerfAnalyzerRational.

(** ** Constraint checking *)

Module ConstraintFacts.
Module C := ConstraintManager.

(** The metric's tag has a constraint, and its value is below the [min]
    bound or above the [max] bound of that constraint. *)
Definition violates (constraints : gmap string (gmap string Q)) (metric : C.Metric)
  : Prop :=
  ∃ constraint,
    constraints !! C.tag metric = Some constraint
    ∧ ((∃ lo, constraint !! "min" = Some lo ∧ (C.value metric < lo)%Q)
       ∨ (∃ hi, constraint !! "max" = Some hi ∧ (hi < C.value metric)%Q)).

Lemma Qlt_bool_iff (a b : Q) : C.Qlt_bool a b = true ↔ (a < b)%Q.
Proof.
  unfold C.Qlt_bool. rewrite negb_true_iff, <- not_true_iff_false, Qle_bool_iff.
  split; [apply Qnot_le_lt | apply Qlt_not_le].
Qed.

Lemma metric_within_false constraints metric :
  C.metric_within constraints metric = false ↔ violates constraints metric.
Proof.
  unfold C.metric_within, violates.
  destruct (constraints !! C.tag metric) as [constraint|]; [|split; [done|]].
  - destruct (constraint !! "min") as [lo|] eqn:Hmin;
      destruct (constraint !! "max") as [hi|] eqn:Hmax.
    + destruct (C.Qlt_bool (C.value metric) lo) eqn:Hlo;
        [|destruct (C.Qlt_bool hi (C.value metric)) eqn:Hhi].
      * apply Qlt_bool_iff in Hlo. split; [|done]. intros _.
        exists constraint. split; [done|]. left. by exists lo.
      * apply Qlt_bool_iff in Hhi. split; [|done]. intros _.
        exists constraint. split; [done|]. right. by exists hi.
      * split; [done|]. intros (c & [= <-] & [(lo' & Hl & Hlt)|(hi' & Hh & Hlt)]).
        -- rewrite Hmin in Hl. simplify_eq. apply Qlt_bool_iff in Hlt. congruence.
        -- rewrite Hmax in Hh. simplify_eq. apply Qlt_bool_iff in Hlt. congruence.
    + destruct (C.Qlt_bool (C.value metric) lo) eqn:Hlo.
      * apply Qlt_bool_iff in Hlo. split; [|done]. intros _.
        exists constraint. split; [done|]. left. by exists lo.
      * split; [done|]. intros (c & [= <-] & [(lo' & Hl & Hlt)|(hi' & Hh & Hlt)]).
        -- rewrite Hmin in Hl. simplify_eq. apply Qlt_bool_iff in Hlt. congruence.
        -- rewrite Hmax in Hh. done.
    + destruct (C.Qlt_bool hi (C.value metric)) eqn:Hhi.
      * apply Qlt_bool_iff in Hhi. split; [|done]. intros _.
        exists constraint. split; [done|]. right. by exists hi.
      * split; [done|]. intros (c & [= <-] & [(lo' & Hl & Hlt)|(hi' & Hh & Hlt)]).
        -- rewrite Hmin in Hl. done.
        -- rewrite Hmax in Hh. simplify_eq. apply Qlt_bool_iff in Hlt. congruence.
    + split; [done|]. intros (c & [= <-] & [(lo' & Hl & _)|(hi' & Hh & _)]).
      * rewrite Hmin in Hl. done.
      * rewrite Hmax in Hh. done.
  - intros (c & Hc & _). done.
Qed.

Lemma check_metrics_false constraints model_metrics :
  C.check_metrics constraints model_metrics = false
  ↔ ∃ metric, metric ∈ model_metrics ∧ violates constraints metric.
Proof.
  induction model_metrics as [|metric rest IH]; simpl.
  - split; [done|]. intros (m & Hin & _). by apply elem_of_nil in Hin.
  - destruct (C.metric_within constraints metric) eqn:Hwithin.
    + rewrite IH. split.
      * intros (m & Hin & Hv). exists m. split; [by apply list_elem_of_further|done].
      * intros (m & Hin & Hv). apply elem_of_cons in Hin as [->|Hin].
        -- apply metric_within_false in Hv. congruence.
        -- by exists m.
    + split; [|done]. intros _. exists metric.
      split; [apply list_elem_of_here | by apply metric_within_false].
Qed.

Lemma check_models_false constraints models :
  C.check_models constraints models = false
  ↔ ∃ model_metrics metric,
      model_metrics ∈ models ∧ metric ∈ model_metrics ∧ violates constraints metric.
Proof.
  induction models as [|model_metrics rest IH]; simpl.
  - split; [done|]. intros (mm & m & Hin & _). by apply elem_of_nil in Hin.
  - destruct (C.check_metrics constraints model_metrics) eqn:Hcheck.
    + rewrite IH. split.
      * intros (mm & m & Hin & Hm & Hv). exists mm, m.
        split_and!; [by apply list_elem_of_further | done..].
      * intros (mm & m & Hin & Hm & Hv). apply elem_of_cons in Hin as [->|Hin].
        -- assert (C.check_metrics constraints model_metrics = false)
             by (apply check_metrics_false; by exists m).
           congruence.
        -- by exists mm, m.
    + split; [|done]. intros _.
      apply check_metrics_false in Hcheck as (m & Hm & Hv).
      exists model_metrics, m. split_and!; [apply list_elem_of_here | done..].
Qed.

(** C10.  [check_constraints] returns [True] for every measurement when
    the constraints are [None] or empty.  For any constraints it returns
    [False] exactly when some metric of the measurement has a tag that
    the constraints contain and a value strictly below that constraint's
    [min] or strictly above its [max]; a metric whose tag has no
    constraint never makes it fail. *)
Theorem check_constraints_spec (run_config_measurement : C.RunConfigMeasurement) :
  C.check_constraints None run_config_measurement = true
  ∧ C.check_constraints (Some ∅) run_config_measurement = true
  ∧ (∀ constraints,
       C.check_constraints (Some constraints) run_config_measurement = false
       ↔ ∃ model_metrics metric,
           model_metrics ∈ C.data run_config_measurement
           ∧ metric ∈ model_metrics
           ∧ violates constraints metric)
  ∧ (∀ constraints metric,
       constraints !! C.tag metric = None →
       C.metric_within constraints metric = true).
Proof.
  split_and!; [done..| |].
  - intros constraints. unfold C.check_constraints.
    case_bool_decide as Hne; [apply check_models_false|].
    split; [done|]. intros (mm & m & _ & _ & c & Hc & _).
    subst. by rewrite lookup_empty in Hc.
  - intros constraints metric Habsent. unfold C.metric_within. by rewrite Habsent.
Qed.

(** A throughput of 90 against a minimum of 100, next to a latency that
    has no constraint. *)
Example below_minimum_fails :
  C.check_constraints
    (Some {[ "perf_throughput" := {[ "min" := (100 # 1)%Q ]} ]})
    {| C.data := [[ {| C.tag := "perf_latency_p99"; C.value := (5000 # 1)%Q |};
                    {| C.tag := "perf_throughput"; C.value := (90 # 1)%Q |} ]] |}
  = false.
Proof. by vm_compute. Qed.

Lemma check_constraints_spec_witness :
  C.metric_within {[ "perf_throughput" := {[ "min" := (100 # 1)%Q ]} ]}
    {| C.tag := "perf_latency_p99"; C.value := (5000 # 1)%Q |} = true.
Proof.
  apply (proj2 (proj2 (proj2 (check_constraints_spec {| C.data := [] |})))).
  by vm_compute.
Defined.

End ConstraintFacts.

(** ** How many candidates the automatic search emits *)

Module SweepFacts.
Import Py.
Module A := AutomaticModelConfigGenerator.
Module B := BaseModelConfigGenerator.

(** The rungs of the ladder: [b·2^j] stays within the cap exactly for the
    [j] below the length of the ladder. *)
Lemma ladder_from_rungs fuel b max_bs :
  1 ≤ b → max_bs < b + Z.of_nat fuel →
  let n := length (SpecUtils.ladder_from fuel b max_bs) in
  (∀ j : nat, (j < n)%nat → b * 2 ^ Z.of_nat j ≤ max_bs)
  ∧ b * 2 ^ Z.of_nat n > max_bs.
Proof.
  revert b. induction fuel as [|fuel IH]; intros b Hb Hfuel.
  { simpl. split; [intros j Hj; lia | lia]. }
  simpl. case_bool_decide as Hle; simpl.
  - destruct (IH (2 * b)) as [Hin Hout]; [lia..|]. split.
    + intros [|j] Hj; [simpl; lia|].
      specialize (Hin j ltac:(lia)).
      rewrite Nat2Z.inj_succ, Z.pow_succ_r by lia. lia.
    + rewrite Nat2Z.inj_succ, Z.pow_succ_r by lia. lia.
  - split; [intros j Hj; lia|]. simpl. lia.
Qed.

Section WithMeasurement.
Context {Measurement : Type}.
Implicit Types g : A.t Measurement.

(** The walk of the two counters alone: how many candidates the loop
    still consumes from instance count [i] and max batch size [b], when
    no feedback holds a [None]. *)
Fixpoint walk (max_inst min_bs max_bs : Z) (fuel : nat) (i b : Z) : option nat :=
  if bool_decide (b * 2 > max_bs) && bool_decide (i >= max_inst) then Some 0%nat
  else
    match fuel with
    | O => None
    | S fuel' =>
        S <$> (if bool_decide (b * 2 > max_bs)
               then walk max_inst min_bs max_bs fuel' (i + 1) min_bs
               else walk max_inst min_bs max_bs fuel' i (b * 2))
    end.

Lemma walk_count max_inst min_bs max_bs (K : nat) :
  1 ≤ min_bs →
  (∀ j : nat, (j < K)%nat → min_bs * 2 ^ Z.of_nat j ≤ max_bs) →
  min_bs * 2 ^ Z.of_nat K > max_bs →
  (0 < K)%nat →
  ∀ (m d : nat) (i : Z) (j : nat) (fuel : nat),
    i = max_inst - Z.of_nat m → (j + d = K - 1)%nat → (d + m * K ≤ fuel)%nat →
    walk max_inst min_bs max_bs fuel i (min_bs * 2 ^ Z.of_nat j)
      = Some (d + m * K)%nat.
Proof.
  intros Hmin Hin Hout HK.
  assert (∀ j : nat, (j + 0 = K - 1)%nat → min_bs * 2 ^ Z.of_nat j * 2 > max_bs)
    as Htop.
  { intros j Hj. replace K with (S j) in Hout by lia.
    rewrite Nat2Z.inj_succ, Z.pow_succ_r in Hout by lia. lia. }
  assert (∀ (j d : nat), (j + S d = K - 1)%nat →
            ¬ min_bs * 2 ^ Z.of_nat j * 2 > max_bs) as Hbelow.
  { intros j d Hj. specialize (Hin (S j) ltac:(lia)).
    rewrite Nat2Z.inj_succ, Z.pow_succ_r in Hin by lia. lia. }
  induction m as [|m IHm]; induction d as [|d IHd]; intros i j fuel Hi Hj Hfuel.
  - destruct fuel; simpl;
      rewrite (bool_decide_eq_true_2 _ (Htop j Hj));
      rewrite bool_decide_eq_true_2 by lia; done.
  - destruct fuel as [|fuel]; [lia|]. simpl.
    rewrite (bool_decide_eq_false_2 _ (Hbelow j d Hj)). simpl.
    replace (min_bs * 2 ^ Z.of_nat j * 2) with (min_bs * 2 ^ Z.of_nat (S j))
      by (rewrite Nat2Z.inj_succ, Z.pow_succ_r by lia; lia).
    rewrite (IHd i (S j) fuel) by lia. done.
  - destruct fuel as [|fuel]; [lia|]. simpl.
    rewrite (bool_decide_eq_true_2 _ (Htop j Hj)).
    rewrite (bool_decide_eq_false_2 (i >= max_inst)) by lia. simpl.
    replace min_bs with (min_bs * 2 ^ Z.of_nat 0) at 2 by (simpl; lia).
    rewrite (IHm (K - 1)%nat (i + 1) 0%nat fuel) by lia.
    simpl. f_equal. lia.
  - destruct fuel as [|fuel]; [lia|]. simpl.
    rewrite (bool_decide_eq_false_2 _ (Hbelow j d Hj)). simpl.
    replace (min_bs * 2 ^ Z.of_nat j * 2) with (min_bs * 2 ^ Z.of_nat (S j))
      by (rewrite Nat2Z.inj_succ, Z.pow_succ_r by lia; lia).
    rewrite (IHd i (S j) fuel) by lia. done.
Qed.

(** An emission touches the attributes of the base class only, and among
    them neither the latch nor the last results. *)
Lemma get_next_model_config_frame g :
  ∃ b', (A._get_next_model_config g).2 = A.with_base b' g
        ∧ B._live b' = B._live (A.base g)
        ∧ B._last_results b' = B._last_results (A.base g).
Proof.
  unfold A._get_next_model_config, A._get_curr_param_combo.
  destruct (A._state_machine_started g); simpl; eexists; split_and!; done.
Qed.

(** Feedback without [None] entries. *)
Definition clean (results : B.Results Measurement) : Prop :=
  ¬ AutomaticFacts.has_None_entry results.

(** The generator is past its first two emissions and holds clean
    feedback. *)
Definition sweeping g : Prop :=
  A._state_machine_started g = true
  ∧ B._live (A.base g) = true
  ∧ clean (B._last_results (A.base g)).

Lemma clean_not_erroneous g :
  clean (B._last_results (A.base g)) → A._last_results_erroneous g = false.
Proof.
  intros Hclean. apply not_true_iff_false.
  by rewrite AutomaticFacts.last_results_erroneous_iff.
Qed.

Lemma is_done_sweeping g :
  sweeping g →
  A.is_done g =
    bool_decide (A._curr_max_batch_size g * 2 > A._max_model_batch_size g)
    && bool_decide (A._curr_instance_count g >= A._max_instance_count g).
Proof.
  intros (_ & Hlive & Hclean).
  unfold A.is_done, A._done_walking, A._done_walking_max_batch_size,
    A._max_batch_size_limit_reached, A._done_walking_instance_count.
  rewrite Hlive, (clean_not_erroneous g Hclean), orb_false_r. done.
Qed.

(** The loop from a sweeping generator follows the walk of the counters. *)
Lemma drive_walk (feedback : nat → B.Results Measurement) :
  (∀ k, clean (feedback k)) →
  ∀ fuel k g,
    sweeping g →
    let run := A.drive fuel feedback k A.Suspended g in
    match walk (A._max_instance_count g) (A._min_model_batch_size g)
            (A._max_model_batch_size g) fuel
            (A._curr_instance_count g) (A._curr_max_batch_size g) with
    | Some n => length run.1 = n ∧ run.2 = true
    | None => run.2 = false
    end.
Proof.
  intros Hfeedback. induction fuel as [|fuel IH]; intros k g Hsweep.
  - simpl. rewrite (is_done_sweeping g Hsweep). by destruct (_ && _).
  - simpl. rewrite (is_done_sweeping g Hsweep).
    destruct (_ && _) eqn:Hdone; [done|].
    unfold A.next.
    destruct (get_next_model_config_frame (A._step g)) as (b' & Hnext & Hlive & _).
    destruct (A._get_next_model_config (A._step g)) as [config g2].
    simpl in Hnext. subst g2.
    set (g' := A.set_last_results (feedback k) (A.with_base b' (A._step g))).
    destruct Hsweep as (Hstarted & Hl & Hclean).
    assert (sweeping g') as Hsweep'.
    { unfold sweeping, g'. simpl. split_and!.
      - apply NamingFacts.step_started.
      - rewrite Hlive, NamingFacts.step_base. done.
      - apply Hfeedback. }
    specialize (IH (S k) g' Hsweep').
    destruct (A.drive fuel feedback (S k) A.Suspended g') as [rest finished].
    assert (A._max_instance_count g' = A._max_instance_count g
            ∧ A._min_model_batch_size g' = A._min_model_batch_size g
            ∧ A._max_model_batch_size g' = A._max_model_batch_size g
            ∧ A._curr_instance_count g' =
                (if bool_decide (A._curr_max_batch_size g * 2 > A._max_model_batch_size g)
                 then A._curr_instance_count g + 1 else A._curr_instance_count g)
            ∧ A._curr_max_batch_size g' =
                (if bool_decide (A._curr_max_batch_size g * 2 > A._max_model_batch_size g)
                 then A._min_model_batch_size g else A._curr_max_batch_size g * 2))
      as (Hmi & Hmin & Hmax & Hi & Hb).
    { unfold g', A._step, A._step_state_machine, A._done_walking_max_batch_size,
        A._max_batch_size_limit_reached.
      rewrite Hstarted, (clean_not_erroneous g Hclean), orb_false_r. simpl.
      case_bool_decide; done. }
    rewrite Hmi, Hmin, Hmax, Hi, Hb in IH. simpl in *.
    case_bool_decide; simpl in *.
    + destruct (walk _ _ _ fuel _ _); simpl; [|done].
      destruct IH as [<- ->]. done.
    + destruct (walk _ _ _ fuel _ _); simpl; [|done].
      destruct IH as [<- ->]. done.
Qed.

Lemma drive_S_not_done fuel (feedback : nat → B.Results Measurement) k fr g :
  A.is_done g = false →
  A.drive (S fuel) feedback k fr g =
    let emitted := A.next fr g in
    let run := A.drive fuel feedback (S k) emitted.2.1
                 (A.set_last_results (feedback k) emitted.2.2) in
    (emitted.1 :: run.1, run.2).
Proof.
  intros Hnot. simpl. rewrite Hnot.
  destruct (A.next fr g) as [config [fr' g']]. simpl.
  by destruct (A.drive fuel feedback (S k) fr' _).
Qed.

(** The object before the emission of a [next]: the latch set on the
    first, a step taken on the later ones. *)
Definition before_emission (fr : A.Frame) g : A.t Measurement :=
  match fr with
  | A.Created => A.with_base (B.with_live true (A.base g)) g
  | A.Suspended => A._step g
  end.

Lemma next_state fr g :
  ∃ b', (A.next fr g).2.2 = A.with_base b' (before_emission fr g)
        ∧ B._live b' = B._live (A.base (before_emission fr g)).
Proof.
  unfold A.next. fold (before_emission fr g).
  destruct (get_next_model_config_frame (before_emission fr g))
    as (b' & Hnext & Hlive & _).
  destruct (A._get_next_model_config (before_emission fr g)) as [config g2].
  simpl in *. by exists b'.
Qed.

(** With instance counts from 1 to the maximum, batch sizes on the ladder
    and clean feedback, the loop ends and has consumed the default probe
    and one candidate per instance count and rung. *)
Lemma automatic_search_count config model stored
    (feedback : nat → B.Results Measurement) :
  let max_inst := run_config_search_max_instance_count config in
  let min_bs := run_config_search_min_model_batch_size config in
  let max_bs := run_config_search_max_model_batch_size config in
  let K := length (SpecUtils.power_of_two_ladder_between min_bs max_bs) in
  1 ≤ max_inst → 1 ≤ min_bs → min_bs ≤ max_bs →
  (∀ k, clean (feedback k)) →
  ∀ fuel, (Z.to_nat max_inst * K + 1 ≤ fuel)%nat →
    let run := A.drive fuel feedback 0 A.Created (A.__init__ config model stored) in
    run.2 = true ∧ Z.of_nat (length run.1) = max_inst * Z.of_nat K + 1.
Proof.
  intros max_inst min_bs max_bs K Hinst Hmin Hle Hfeedback fuel Hfuel.
  destruct (ladder_from_rungs (Z.to_nat max_bs) min_bs max_bs) as [Hin Hout];
    [lia..|]. fold (SpecUtils.power_of_two_ladder_between min_bs max_bs) in Hin, Hout.
  fold K in Hin, Hout.
  assert (0 < K)%nat as HK.
  { destruct K; [|lia]. simpl in Hout. lia. }
  destruct fuel as [|[|fuel]]; [nia..|].
  set (g0 := A.__init__ config model stored).
  rewrite drive_S_not_done by done. cbv zeta.
  rewrite AutomaticFacts.frame_after_next.
  destruct (next_state A.Created g0) as (b1 & -> & Hlive1).
  set (g1 := A.set_last_results (feedback 0%nat)
               (A.with_base b1 (before_emission A.Created g0))).
  assert (A.is_done g1 = false) as Hnot_done.
  { unfold A.is_done, A._done_walking, A._done_walking_max_batch_size,
      A._max_batch_size_limit_reached.
    rewrite (clean_not_erroneous g1) by apply Hfeedback.
    rewrite bool_decide_eq_false_2 by (simpl; fold max_bs; lia).
    by rewrite andb_false_r. }
  rewrite drive_S_not_done by done. cbv zeta.
  rewrite AutomaticFacts.frame_after_next.
  destruct (next_state A.Suspended g1) as (b2 & -> & Hlive2).
  set (g2 := A.set_last_results (feedback 1%nat)
               (A.with_base b2 (before_emission A.Suspended g1))).
  assert (sweeping g2) as Hsweep.
  { unfold sweeping, g2. simpl. split_and!; [done| |apply Hfeedback].
    rewrite Hlive2. simpl. done. }
  pose proof (drive_walk feedback Hfeedback fuel 2 g2 Hsweep) as Hwalk.
  cbv zeta in Hwalk.
  change (A._max_instance_count g2) with max_inst in Hwalk.
  change (A._min_model_batch_size g2) with min_bs in Hwalk.
  change (A._max_model_batch_size g2) with max_bs in Hwalk.
  change (A._curr_instance_count g2) with 1 in Hwalk.
  change (A._curr_max_batch_size g2) with min_bs in Hwalk.
  pose proof (walk_count max_inst min_bs max_bs K Hmin Hin Hout HK
                (Z.to_nat max_inst - 1) (K - 1) 1 0 fuel) as Hcount.
  replace (min_bs * 2 ^ Z.of_nat 0) with min_bs in Hcount by (simpl; lia).
  rewrite Hcount in Hwalk by nia.
  destruct Hwalk as [Hlen Hfin]. simpl. split; [done|].
  rewrite Hlen. nia.
Qed.

End WithMeasurement.

End SweepFacts.

(** ** What an emitted configuration holds *)

Module OverlayFacts.
Import Py PyFacts.
Module A := AutomaticModelConfigGenerator.
Module B := BaseModelConfigGenerator.

(** The value that the loop over [param_combo.items()] leaves under a
    key: the last entry for the key whose value is not [None], if any. *)
Fixpoint overlay_lookup (k : string) (items : Dict) : option Value :=
  match items with
  | [] => None
  | (key, value) :: items' =>
      match overlay_lookup k items' with
      | Some later => Some later
      | None => if decide (k = key) then
                  (if is_not_None value then Some value else None)
                else None
      end
  end.

Lemma apply_param_combo_get k items d :
  dict_get k (B.apply_param_combo items d) =
    match overlay_lookup k items with
    | Some v => Some v
    | None => dict_get k d
    end.
Proof.
  revert d. induction items as [|[key value] items IH]; intros d; [done|].
  simpl. rewrite IH. destruct (overlay_lookup k items) as [later|]; [done|].
  destruct (is_not_None value) eqn:Hvalue.
  - destruct (decide (k = key)) as [->|Hne].
    + by rewrite dict_get_set_eq.
    + by rewrite dict_get_set_ne.
  - by destruct (decide (k = key)).
Qed.

Section WithMeasurement.
Context {Measurement : Type}.
Implicit Types (g : A.t Measurement) (b : B.t Measurement).

Lemma make_config_get b (param_combo : option DictObj) (k : string) :
  k ≠ "name" →
  dict_get k (B._make_direct_mode_model_config param_combo b).1 =
    match param_combo with
    | Some combo =>
        match overlay_lookup k (obj_items combo) with
        | Some v => Some v
        | None => dict_get k (B.stored_config b)
        end
    | None => dict_get k (B.stored_config b)
    end.
Proof.
  intros Hname. unfold B._make_direct_mode_model_config.
  destruct (B._get_model_variant_name param_combo b) as [name b']. simpl.
  rewrite dict_get_set_ne by done.
  destruct param_combo as [combo|]; [apply apply_param_combo_get | done].
Qed.

(** X1.  In the configuration built from a parameter combination, every
    key other than [name] holds the last value of the combination for
    that key that is not [None], and the stored value when there is
    none; the stored value and the new one are never combined.  With
    [None] for the combination the stored values are kept. *)
Theorem direct_mode_config_lookup b (param_combo : option DictObj) (k : string) :
  k ≠ "name" →
  dict_get k (B._make_direct_mode_model_config param_combo b).1 =
    match param_combo with
    | Some combo =>
        match overlay_lookup k (obj_items combo) with
        | Some v => Some v
        | None => dict_get k (B.stored_config b)
        end
    | None => dict_get k (B.stored_config b)
    end.
Proof. apply make_config_get. Qed.

End WithMeasurement.

(** A stored configuration with dynamic batching on, and a model and
    search options to go with it. *)
Definition sample_stored : Dict :=
  [ ("platform", VStr "fake_platform");
    ("max_batch_size", VInt 4);
    ("dynamic_batching", VDict [("max_queue_delay_microseconds", VInt 100)]) ].

Definition sample_model : ModelSpec :=
  {| model_name := "my-model"; cpu_only := true; triton_server_environment := ∅ |}.

Definition sample_config : Config :=
  {| model_repository := "cli_repository";
     run_config_search_min_instance_count := 1;
     run_config_search_max_instance_count := 2;
     run_config_search_min_model_batch_size := 3;
     run_config_search_max_model_batch_size := 15 |}.

Lemma direct_mode_config_lookup_witness :
  dict_get "max_batch_size"
    (B._make_direct_mode_model_config
       (Some {| obj_id := Allocated 0;
                obj_items := [("max_batch_size", VNone); ("dynamic_batching", VDict [])] |})
       (B.__init__ (Measurement:=unit) sample_config sample_model sample_stored)).1
  = Some (VInt 4).
Proof.
  rewrite direct_mode_config_lookup by done. reflexivity.
Defined.

(** The [kind] of the first instance group of a configuration. *)
Definition config_instance_kind (c : Dict) : option string :=
  match dict_get "instance_group" c with
  | Some (VList (VDict group :: _)) =>
      match dict_get "kind" group with
      | Some (VStr kind) => Some kind
      | _ => None
      end
  | _ => None
  end.

Section Emissions.
Context {Measurement : Type}.
Implicit Types (g : A.t Measurement) (b : B.t Measurement).

(** What a candidate of the started state machine holds. *)
Definition carries (count batch : Z) (kind : string) (c : Dict) : Prop :=
  A.config_instance_count c = Some count
  ∧ A.config_max_batch_size c = Some batch
  ∧ config_instance_kind c = Some kind
  ∧ dict_get "dynamic_batching" c = Some (VDict []).

Lemma started_emission_carries g :
  A._state_machine_started g = true →
  carries (A._curr_instance_count g) (A._curr_max_batch_size g)
    (A._instance_kind g) (A._get_next_model_config g).1.
Proof.
  intros Hstarted.
  unfold carries, A.config_instance_count, A.config_max_batch_size,
    config_instance_kind.
  unfold A._get_next_model_config, A._get_curr_param_combo.
  rewrite Hstarted. cbn [negb].
  match goal with
  | |- context [B._make_direct_mode_model_config ?c ?b] =>
      pose proof (fun k H => make_config_get b c k H) as Hget;
      destruct (B._make_direct_mode_model_config c b) as [mc b']
  end.
  cbn [fst snd obj_items] in *.
  rewrite !Hget by done. by cbn.
Qed.

(** The state machine is on the ladder: the max batch size is the
    minimum doubled some number of times, and the instance count is at
    least 1. *)
Definition on_ladder g : Prop :=
  ∃ j : nat,
    A._curr_max_batch_size g = A._min_model_batch_size g * 2 ^ Z.of_nat j
    ∧ 1 ≤ A._curr_instance_count g.

Lemma step_on_ladder g :
  (A._state_machine_started g = true → on_ladder g) → on_ladder (A._step g).
Proof.
  intros Hinv. unfold A._step, A._step_state_machine.
  destruct (A._state_machine_started g) eqn:Hstarted; simpl.
  - destruct (Hinv eq_refl) as (j & Hbatch & Hcount).
    destruct (A._done_walking_max_batch_size g).
    + exists 0%nat. simpl. split; lia.
    + exists (S j). simpl A._curr_max_batch_size. simpl A._curr_instance_count.
      simpl A._min_model_batch_size.
      rewrite Hbatch, Nat2Z.inj_succ, Z.pow_succ_r by lia. split; lia.
  - exists 0%nat. simpl. split; lia.
Qed.

Lemma step_parameters g :
  A._min_model_batch_size (A._step g) = A._min_model_batch_size g
  ∧ A._max_model_batch_size (A._step g) = A._max_model_batch_size g
  ∧ A._max_instance_count (A._step g) = A._max_instance_count g
  ∧ A._instance_kind (A._step g) = A._instance_kind g.
Proof.
  unfold A._step, A._step_state_machine.
  destruct (A._state_machine_started g); simpl; [|done].
  by destruct (A._done_walking_max_batch_size g).
Qed.

(** A candidate emitted after the default probe. *)
Definition ladder_candidate (min_bs : Z) (kind : string) (c : Dict) : Prop :=
  ∃ (count : Z) (j : nat),
    1 ≤ count ∧ carries count (min_bs * 2 ^ Z.of_nat j) kind c.

Lemma pull_suspended_on_ladder n (feedback : nat → B.Results Measurement) k g :
  (A._state_machine_started g = true → on_ladder g) →
  Forall (ladder_candidate (A._min_model_batch_size g) (A._instance_kind g))
    (A.pull n feedback k A.Suspended g).1.
Proof.
  revert k g. induction n as [|n IH]; intros k g Hinv; [by constructor|].
  rewrite NamingFacts.pull_S.
  pose proof (step_on_ladder g Hinv) as (j & Hbatch & Hcount).
  pose proof (step_parameters g) as (Hmin & _ & _ & Hkind).
  pose proof (started_emission_carries (A._step g) (NamingFacts.step_started g))
    as Hcarries.
  destruct (SweepFacts.next_state A.Suspended g) as (b' & Hstate & _).
  rewrite AutomaticFacts.frame_after_next, Hstate. constructor.
  - exists (A._curr_instance_count (A._step g)), j. split; [done|].
    unfold A.next. destruct (A._get_next_model_config (A._step g)) as [c g2].
    simpl in *. by rewrite <- Hmin, <- Hkind, <- Hbatch.
  - specialize (IH (S k)
      (A.set_last_results (feedback k)
         (A.with_base b' (SweepFacts.before_emission A.Suspended g)))).
    simpl in IH. rewrite Hmin, Hkind in IH. apply IH. intros _. by exists j.
Qed.

(** X2.  The first candidate of the automatic search is the stored
    configuration with the default name set and nothing else changed. *)
Theorem first_candidate_is_stored_config config model stored
    (feedback : nat → B.Results Measurement) n :
  head (A.pull (S n) feedback 0 A.Created (A.__init__ config model stored)).1 =
    Some (dict_set "name" (VStr (B.default_variant_name (model_name model))) stored).
Proof. by rewrite NamingFacts.pull_S. Qed.

(** X3.  Whatever the feedback, every candidate after the first carries
    an empty [dynamic_batching], one instance group of kind [KIND_CPU]
    for a CPU-only model and [KIND_GPU] otherwise with a count of at
    least 1, and a max batch size that is the configured minimum doubled
    some number of times. *)
Theorem later_candidates_on_ladder config model stored
    (feedback : nat → B.Results Measurement) n :
  Forall
    (ladder_candidate (run_config_search_min_model_batch_size config)
       (if cpu_only model then "KIND_CPU" else "KIND_GPU"))
    (drop 1 (A.pull n feedback 0 A.Created (A.__init__ config model stored)).1).
Proof.
  destruct n as [|n]; [by constructor|].
  set (g0 := A.__init__ (Measurement:=Measurement) config model stored).
  rewrite NamingFacts.pull_S. cbn [drop].
  rewrite AutomaticFacts.frame_after_next.
  destruct (SweepFacts.next_state A.Created g0) as (b' & -> & _).
  apply (pull_suspended_on_ladder n feedback 1
           (A.set_last_results (feedback 0%nat)
              (A.with_base b' (SweepFacts.before_emission A.Created g0)))).
  intros Hstarted. simpl in Hstarted. discriminate.
Qed.

End Emissions.

End OverlayFacts.

(** ** The automatic search under arbitrary feedback *)

Module BoundedSearch.
Import Py PyFacts.
Module A := AutomaticModelConfigGenerator.
Module B := BaseModelConfigGenerator.

Lemma rung_below_top (min_bs max_bs : Z) (j K : nat) :
  1 ≤ min_bs → min_bs * 2 ^ Z.of_nat j ≤ max_bs →
  min_bs * 2 ^ Z.of_nat K > max_bs → (j < K)%nat.
Proof.
  intros Hmin Hj HK. destruct (decide (j < K)%nat) as [|Hge]; [done|].
  assert (2 ^ Z.of_nat K ≤ 2 ^ Z.of_nat j) by (apply Z.pow_le_mono_r; lia).
  nia.
Qed.

Section WithMeasurement.
Context {Measurement : Type}.
Implicit Types g : A.t Measurement.

(** A candidate whose instance count and max batch size lie within the
    configured bounds. *)
Definition within (max_inst min_bs max_bs : Z) (c : Dict) : Prop :=
  ∃ count batch,
    A.config_instance_count c = Some count ∧ 1 ≤ count ≤ max_inst
    ∧ A.config_max_batch_size c = Some batch ∧ min_bs ≤ batch ≤ max_bs.

Lemma drive_within (feedback : nat → B.Results Measurement)
    (max_inst min_bs max_bs : Z) (K : nat) :
  1 ≤ min_bs →
  (∀ j : nat, (j < K)%nat → min_bs * 2 ^ Z.of_nat j ≤ max_bs) →
  min_bs * 2 ^ Z.of_nat K > max_bs →
  ∀ fuel k g (j : nat),
    A._state_machine_started g = true →
    B._live (A.base g) = true →
    A._max_instance_count g = max_inst →
    A._min_model_batch_size g = min_bs →
    A._max_model_batch_size g = max_bs →
    A._curr_max_batch_size g = min_bs * 2 ^ Z.of_nat j →
    (j < K)%nat →
    1 ≤ A._curr_instance_count g ≤ max_inst →
    ((K - 1 - j) + Z.to_nat (max_inst - A._curr_instance_count g) * K ≤ fuel)%nat →
    let run := A.drive fuel feedback k A.Suspended g in
    run.2 = true
    ∧ (length run.1
       ≤ (K - 1 - j) + Z.to_nat (max_inst - A._curr_instance_count g) * K)%nat
    ∧ Forall (within max_inst min_bs max_bs) run.1.
Proof.
  intros Hmin Hin Hout.
  induction fuel as [|fuel IH];
    intros k g j Hstarted Hlive Hmi Hmb Hxb Hbatch Hj Hcount Hfuel.
  - assert (Z.to_nat (max_inst - A._curr_instance_count g) = 0%nat) as Hlast.
    { destruct (Z.to_nat (max_inst - A._curr_instance_count g)); [done|].
      simpl in Hfuel. lia. }
    rewrite Hlast in *.
    assert (A.is_done g = true) as Hdone.
    { apply AutomaticFacts.is_done_iff. split_and!; [done|lia|]. left.
      rewrite Hbatch, Hxb. replace K with (S j) in Hout by lia.
      rewrite Nat2Z.inj_succ, Z.pow_succ_r in Hout by lia. lia. }
    simpl. rewrite Hdone. simpl. split_and!; [done|lia|constructor].
  - destruct (A.is_done g) eqn:Hdone.
    { simpl. rewrite Hdone. simpl.
      split_and!; [done|apply Nat.le_0_l|constructor]. }
    rewrite SweepFacts.drive_S_not_done by done. cbv zeta.
    rewrite AutomaticFacts.frame_after_next.
    destruct (SweepFacts.next_state A.Suspended g) as (b' & Hstate & Hlive').
    rewrite Hstate.
    pose proof (OverlayFacts.started_emission_carries (A._step g)
                  (NamingFacts.step_started g)) as (Hc & Hb & _).
    assert ((A.next A.Suspended g).1 = (A._get_next_model_config (A._step g)).1)
      as Hemitted.
    { unfold A.next. by destruct (A._get_next_model_config (A._step g)). }
    rewrite Hemitted.
    pose proof (OverlayFacts.step_parameters g) as (Hmin' & Hmax' & Hinst' & _).
    set (g' := A.set_last_results (feedback k)
                 (A.with_base b' (SweepFacts.before_emission A.Suspended g))).
    assert (B._live (A.base g') = true) as Hlive_g'.
    { unfold g'. simpl. rewrite Hlive'. simpl.
      by rewrite NamingFacts.step_base. }
    destruct (A._done_walking_max_batch_size g) eqn:Hwalk.
    + assert (A._curr_instance_count g < max_inst) as Hlt.
      { unfold A.is_done, A._done_walking, A._done_walking_instance_count in Hdone.
        rewrite Hlive, Hwalk in Hdone. simpl in Hdone.
        apply bool_decide_eq_false in Hdone. lia. }
      assert (A._curr_instance_count (A._step g) = A._curr_instance_count g + 1
              ∧ A._curr_max_batch_size (A._step g) = min_bs) as [Hci Hcb].
      { unfold A._step, A._step_state_machine. rewrite Hstarted, Hwalk. simpl.
        by rewrite Hmb. }
      assert (Z.to_nat (max_inst - A._curr_instance_count g)
              = S (Z.to_nat (max_inst - (A._curr_instance_count g + 1)))) as Hm
        by lia.
      rewrite Hm, Nat.mul_succ_l in Hfuel |- *.
      assert (A._curr_instance_count g' = A._curr_instance_count g + 1) as Hci'
        by (unfold g'; simpl; done).
      pose proof (IH (S k) g' 0%nat) as IHg. rewrite Hci' in IHg.
      remember (Z.to_nat (max_inst - (A._curr_instance_count g + 1)) * K)%nat
        as rest_budget.
      destruct IHg as (Hfin & Hlen & Hall).
      * apply NamingFacts.step_started.
      * done.
      * unfold g'. simpl. congruence.
      * unfold g'. simpl. congruence.
      * unfold g'. simpl. congruence.
      * unfold g'. simpl. rewrite Hcb. simpl. lia.
      * lia.
      * lia.
      * lia.
      * cbn [fst snd length]. split_and!; [done|lia|]. constructor; [|done].
        exists (A._curr_instance_count g + 1), min_bs.
        rewrite Hc, Hb, Hci, Hcb. split_and!; try done; try lia.
        specialize (Hin 0%nat ltac:(lia)). simpl in Hin. lia.
    + assert (¬ A._curr_max_batch_size g * 2 > max_bs) as Hroom.
      { unfold A._done_walking_max_batch_size, A._max_batch_size_limit_reached in Hwalk.
        apply orb_false_iff in Hwalk as [Hlimit _].
        apply bool_decide_eq_false in Hlimit. by rewrite Hxb in Hlimit. }
      assert (A._curr_instance_count (A._step g) = A._curr_instance_count g
              ∧ A._curr_max_batch_size (A._step g)
                = min_bs * 2 ^ Z.of_nat (S j)) as [Hci Hcb].
      { unfold A._step, A._step_state_machine. rewrite Hstarted, Hwalk. simpl.
        rewrite Hbatch, Nat2Z.inj_succ, Z.pow_succ_r by lia. split; lia. }
      assert (S j < K)%nat as HSj.
      { apply (rung_below_top min_bs max_bs); [done| |done].
        rewrite Nat2Z.inj_succ, Z.pow_succ_r by lia.
        rewrite Hbatch in Hroom. lia. }
      assert (A._curr_instance_count g' = A._curr_instance_count g) as Hci'
        by (unfold g'; simpl; done).
      pose proof (IH (S k) g' (S j)) as IHg. rewrite Hci' in IHg.
      remember (Z.to_nat (max_inst - A._curr_instance_count g) * K)%nat
        as rest_budget.
      destruct IHg as (Hfin & Hlen & Hall).
      * apply NamingFacts.step_started.
      * done.
      * unfold g'. simpl. congruence.
      * unfold g'. simpl. congruence.
      * unfold g'. simpl. congruence.
      * unfold g'. simpl. done.
      * done.
      * lia.
      * lia.
      * cbn [fst snd length]. split_and!; [done|lia|]. constructor; [|done].
        exists (A._curr_instance_count g), (min_bs * 2 ^ Z.of_nat (S j)).
        rewrite Hc, Hb, Hci, Hcb. split_and!; try done; try lia.
        -- specialize (Hin 0%nat ltac:(lia)). simpl in Hin.
           assert (1 ≤ 2 ^ Z.of_nat (S j)) by (apply Z.pow_le_mono_r with (b:=0); lia).
           nia.
        -- by apply Hin.
Qed.

(** The whole loop, from a new generator, under any feedback. *)
Lemma search_run config model stored (feedback : nat → B.Results Measurement) :
  let max_inst := run_config_search_max_instance_count config in
  let min_bs := run_config_search_min_model_batch_size config in
  let max_bs := run_config_search_max_model_batch_size config in
  let K := length (SpecUtils.power_of_two_ladder_between min_bs max_bs) in
  1 ≤ max_inst → 1 ≤ min_bs → min_bs ≤ max_bs →
  ∀ fuel, (Z.to_nat max_inst * K + 1 ≤ fuel)%nat →
    let run := A.drive fuel feedback 0 A.Created (A.__init__ config model stored) in
    run.2 = true
    ∧ (2 ≤ length run.1 ≤ Z.to_nat max_inst * K + 1)%nat
    ∧ Forall (within max_inst min_bs max_bs) (drop 1 run.1).
Proof.
  intros max_inst min_bs max_bs K Hinst Hmin Hle fuel Hfuel.
  destruct (SweepFacts.ladder_from_rungs (Z.to_nat max_bs) min_bs max_bs)
    as [Hin Hout]; [lia..|].
  fold (SpecUtils.power_of_two_ladder_between min_bs max_bs) in Hin, Hout.
  fold K in Hin, Hout.
  assert (0 < K)%nat as HK.
  { destruct K; [|lia]. simpl in Hout. lia. }
  assert (Z.to_nat max_inst = S (Z.to_nat (max_inst - 1))) as Hm by lia.
  rewrite Hm, Nat.mul_succ_l in Hfuel |- *.
  destruct fuel as [|[|fuel]]; [lia..|].
  set (g0 := A.__init__ (Measurement:=Measurement) config model stored).
  rewrite SweepFacts.drive_S_not_done by done. cbv zeta.
  rewrite AutomaticFacts.frame_after_next.
  destruct (SweepFacts.next_state A.Created g0) as (b1 & -> & Hlive1).
  set (g1 := A.set_last_results (feedback 0%nat)
               (A.with_base b1 (SweepFacts.before_emission A.Created g0))).
  assert (A.is_done g1 = false) as Hnot_done.
  { unfold A.is_done, A._done_walking, A._done_walking_instance_count.
    rewrite (bool_decide_eq_false_2 (A._curr_instance_count g1 >= _))
      by (simpl; fold max_inst; lia).
    by rewrite !andb_false_r. }
  rewrite SweepFacts.drive_S_not_done by done. cbv zeta.
  rewrite AutomaticFacts.frame_after_next.
  destruct (SweepFacts.next_state A.Suspended g1) as (b2 & Hstate2 & Hlive2).
  rewrite Hstate2.
  set (g2 := A.set_last_results (feedback 1%nat)
               (A.with_base b2 (SweepFacts.before_emission A.Suspended g1))).
  pose proof (drive_within feedback max_inst min_bs max_bs K Hmin Hin Hout
                fuel 2 g2 0%nat) as Hrest.
  change (A._curr_instance_count g2) with 1 in Hrest.
  remember (Z.to_nat (max_inst - 1) * K)%nat as rest_budget.
  destruct Hrest as (Hfin & Hlen & Hall).
  - done.
  - unfold g2. simpl. rewrite Hlive2. simpl. done.
  - done.
  - done.
  - done.
  - simpl. lia.
  - done.
  - lia.
  - lia.
  - cbn [fst snd length drop]. split_and!; [done|lia|lia|].
    constructor; [|done].
    pose proof (OverlayFacts.started_emission_carries (A._step g1)
                  (NamingFacts.step_started g1)) as (Hc & Hb & _).
    exists 1, min_bs. unfold A.next.
    destruct (A._get_next_model_config (A._step g1)) as [c g']. simpl in *.
    split_and!; [done|lia|lia|done|lia|lia].
Qed.

(** X4.  With a maximum instance count of at least 1 and batch-size
    bounds [1 ≤ min ≤ max], the loop that consumes the generator ends
    whatever the feedback is, after at least two candidates and at most
    one per instance count and rung of the ladder plus the default. *)
Theorem search_terminates config model stored
    (feedback : nat → B.Results Measurement) :
  let max_inst := run_config_search_max_instance_count config in
  let min_bs := run_config_search_min_model_batch_size config in
  let max_bs := run_config_search_max_model_batch_size config in
  let K := length (SpecUtils.power_of_two_ladder_between min_bs max_bs) in
  1 ≤ max_inst → 1 ≤ min_bs → min_bs ≤ max_bs →
  ∀ fuel, (Z.to_nat max_inst * K + 1 ≤ fuel)%nat →
    let run := A.drive fuel feedback 0 A.Created (A.__init__ config model stored) in
    run.2 = true ∧ (2 ≤ length run.1 ≤ Z.to_nat max_inst * K + 1)%nat.
Proof.
  intros max_inst min_bs max_bs K Hinst Hmin Hle fuel Hfuel.
  destruct (search_run config model stored feedback Hinst Hmin Hle fuel Hfuel)
    as (Hfin & Hlen & _).
  done.
Qed.

(** X5.  Under the same bounds and whatever the feedback is, every
    candidate that the loop consumes after the default has an instance
    count between 1 and the maximum and a max batch size between the
    configured minimum and maximum. *)
Theorem search_stays_within_bounds config model stored
    (feedback : nat → B.Results Measurement) :
  let max_inst := run_config_search_max_instance_count config in
  let min_bs := run_config_search_min_model_batch_size config in
  let max_bs := run_config_search_max_model_batch_size config in
  let K := length (SpecUtils.power_of_two_ladder_between min_bs max_bs) in
  1 ≤ max_inst → 1 ≤ min_bs → min_bs ≤ max_bs →
  ∀ fuel, (Z.to_nat max_inst * K + 1 ≤ fuel)%nat →
    Forall (within max_inst min_bs max_bs)
      (drop 1 (A.drive fuel feedback 0 A.Created
                 (A.__init__ config model stored)).1).
Proof.
  intros max_inst min_bs max_bs K Hinst Hmin Hle fuel Hfuel.
  destruct (search_run config model stored feedback Hinst Hmin Hle fuel Hfuel)
    as (_ & _ & Hall).
  done.
Qed.

End WithMeasurement.

(** Feedback whose third result holds a [None]. *)
Definition failing_third : nat → B.Results unit :=
  fun k => if decide (k = 2%nat) then [[Some (); None]] else [[Some ()]].

Lemma search_terminates_witness :
  let run := A.drive 10 failing_third 0 A.Created
               (A.__init__ OverlayFacts.sample_config OverlayFacts.sample_model
                  OverlayFacts.sample_stored) in
  run.2 = true ∧ (2 ≤ length run.1 ≤ 7)%nat.
Proof.
  apply (search_terminates OverlayFacts.sample_config OverlayFacts.sample_model
           OverlayFacts.sample_stored failing_third);
    [simpl; lia.. | vm_compute; lia].
Defined.

Lemma search_stays_within_bounds_witness :
  Forall (within 2 3 15)
    (drop 1 (A.drive 10 failing_third 0 A.Created
               (A.__init__ OverlayFacts.sample_config OverlayFacts.sample_model
                  OverlayFacts.sample_stored)).1).
Proof.
  apply (search_stays_within_bounds OverlayFacts.sample_config
           OverlayFacts.sample_model OverlayFacts.sample_stored failing_third);
    [simpl; lia.. | vm_compute; lia].
Defined.

Example failing_third_run :
  let run := A.drive 10 failing_third 0 A.Created
               (A.__init__ OverlayFacts.sample_config OverlayFacts.sample_model
                  OverlayFacts.sample_stored) in
  A.config_instance_count <$> run.1 = [None; Some 1; Some 1; Some 2; Some 2; Some 2]
  ∧ A.config_max_batch_size <$> run.1 = Some <$> [4; 3; 6; 3; 6; 12].
Proof. vm_compute. by split. Qed.

End BoundedSearch.

(** ** The load-profile generator: order of candidates, exceptions, history *)

Module PerfAnalyzerMore.
Module P := PerfAnalyzerConfigGenerator.
Module F := PerfAnalyzerFacts.

Lemma py_index_nonneg {A : Type} (l : list A) (i : nat) :
  P.py_index l (Z.of_nat i) =
    match l !! i with
    | Some a => Ok a
    | None => Raise IndexError
    end.
Proof.
  unfold P.py_index.
  rewrite (bool_decide_eq_false_2 (Z.of_nat i < 0)) by lia.
  rewrite bool_decide_eq_false_2 by lia.
  by rewrite Nat2Z.id.
Qed.

Section WithNumbers.
Context {Measurement PerfAnalyzerConfig Num : Type}.
Context (throughput : Measurement → Num).
Context (num_sub num_div : Num → Num → Num).
Context (num_is_zero : Num → bool).
Context (num_gt : Num → Num → bool).
Context (THROUGHPUT_GAIN : Num).

Implicit Types s : P.t Measurement PerfAnalyzerConfig.

Abbreviation is_done :=
  (P.is_done throughput num_sub num_div num_is_zero num_gt THROUGHPUT_GAIN).

(** One [next_config()] and one [set_last_results(batch)] per batch,
    without asking [is_done]. *)
Fixpoint consume (batches : list (list Measurement)) s
  : Exc (list PerfAnalyzerConfig * P.t Measurement PerfAnalyzerConfig) :=
  match batches with
  | [] => Ok ([], s)
  | measurement :: rest =>
      match P.next_config s with
      | Raise e => Raise e
      | Ok (config, s1) =>
          match consume rest (P.set_last_results measurement s1) with
          | Raise e => Raise e
          | Ok (configs, s2) => Ok (config :: configs, s2)
          end
      end
  end.

Lemma consume_from batches s (i : nat) :
  P._curr_config_index s = Z.of_nat i →
  (i ≤ length (P._configs s))%nat →
  if decide (i + length batches ≤ length (P._configs s))%nat then
    ∃ s', consume batches s
            = Ok (take (length batches) (drop i (P._configs s)), s')
          ∧ P._curr_config_index s' = Z.of_nat (i + length batches)
          ∧ P._all_results s' = P._all_results s ++ concat batches
          ∧ P._configs s' = P._configs s
  else consume batches s = Raise IndexError.
Proof.
  revert s i. induction batches as [|measurement rest IH]; intros s i Hidx Hi.
  - simpl. rewrite decide_True by lia.
    exists s. by rewrite Nat.add_0_r, app_nil_r.
  - simpl. unfold P.next_config. rewrite Hidx, py_index_nonneg.
    destruct (P._configs s !! i) as [config|] eqn:Hlookup; simpl.
    + apply lookup_lt_Some in Hlookup as Hlt.
      match goal with |- context [consume rest ?st] =>
        specialize (IH st (S i)); set (s1 := st) in * end.
      simpl in IH. specialize (IH ltac:(lia) ltac:(lia)).
      destruct (decide (S (i + length rest) ≤ length (P._configs s))%nat)
        as [Hle|Hgt].
      * rewrite decide_True by lia.
        destruct IH as (s' & -> & Hidx' & Hall & Hconfigs).
        exists s'. split_and!; [|rewrite Hidx'; f_equal; lia| |done].
        -- f_equal. f_equal.
           rewrite (drop_S _ config i Hlookup). done.
        -- rewrite Hall. by rewrite <- app_assoc.
      * rewrite decide_False by lia. by rewrite IH.
    + apply lookup_ge_None in Hlookup. by rewrite decide_False by lia.
Qed.

(** X6.  From a new generator, with one batch of measurements handed
    back per candidate: as long as candidates remain, the calls return
    the configurations in their order and the history is the batches in
    order; one call more than there are configurations raises
    [IndexError]. *)
Theorem candidates_in_order (configs : list PerfAnalyzerConfig)
    (batches : list (list Measurement)) :
  ((length batches ≤ length configs)%nat →
   ∃ s, consume batches (P.__init__ configs)
          = Ok (take (length batches) configs, s)
        ∧ P._curr_config_index s = Z.of_nat (length batches)
        ∧ P._all_results s = concat batches)
  ∧ ((length configs < length batches)%nat →
     consume batches (P.__init__ configs) = Raise IndexError).
Proof.
  pose proof (consume_from batches (P.__init__ configs) 0 eq_refl) as Hfrom.
  simpl in Hfrom. specialize (Hfrom ltac:(lia)).
  destruct (decide (length batches ≤ length configs)%nat) as [Hle|Hgt].
  - split; [|lia]. intros _. destruct Hfrom as (s & Hs & Hidx & Hall & _).
    by exists s.
  - split; [lia|]. by intros _.
Qed.

(** X7.  The only exception of [is_done] is [ZeroDivisionError].  It is
    raised exactly when configurations remain, the last measurement list
    is not empty, four measurements are recorded, and a gain has to be
    computed from a zero throughput: the most recent gain always, an
    earlier one only when every gain after it is at most the threshold. *)
Theorem is_done_raises s (e : Raised) :
  is_done s = Raise e ↔
    e = ZeroDivisionError
    ∧ Z.of_nat (length (P._configs s)) ≠ P._curr_config_index s
    ∧ P._last_results s ≠ []
    ∧ ∃ older a b c d,
        P._all_results s = older ++ [a; b; c; d]
        ∧ (num_is_zero (throughput c) = true
           ∨ (num_is_zero (throughput c) = false
              ∧ num_gt (F.relative_gain throughput num_sub num_div c d)
                  THROUGHPUT_GAIN = false
              ∧ (num_is_zero (throughput b) = true
                 ∨ (num_is_zero (throughput b) = false
                    ∧ num_gt (F.relative_gain throughput num_sub num_div b c)
                        THROUGHPUT_GAIN = false
                    ∧ num_is_zero (throughput a) = true)))).
Proof.
  unfold P.is_done, P._all_configs_returned, P._last_results_erroneous.
  case_bool_decide as Hidx; simpl.
  { split; [done|]. by intros (_ & ? & _). }
  destruct (P._last_results s) as [|r rs] eqn:Hlast; simpl.
  { split; [done|]. by intros (_ & _ & ? & _). }
  destruct (decide (length (P._all_results s) < 4)%nat) as [Hshort|Hlong].
  - rewrite F.throughput_gain_valid_short by done. simpl.
    split; [done|]. intros (_ & _ & _ & older & a & b & c & d & Hall & _).
    rewrite Hall, length_app in Hshort. simpl in Hshort. lia.
  - destruct (F.last_four (P._all_results s)) as (older & a & b & c & d & Hall);
      [lia|].
    rewrite (F.throughput_gain_valid_last_four throughput num_sub num_div
               num_is_zero num_gt THROUGHPUT_GAIN s older a b c d Hall).
    unfold F.gain_test. split.
    + intros Hraise. 
      assert (e = ZeroDivisionError
              ∧ (num_is_zero (throughput c) = true
                 ∨ (num_is_zero (throughput c) = false
                    ∧ num_gt (F.relative_gain throughput num_sub num_div c d)
                        THROUGHPUT_GAIN = false
                    ∧ (num_is_zero (throughput b) = true
                       ∨ (num_is_zero (throughput b) = false
                          ∧ num_gt (F.relative_gain throughput num_sub num_div b c)
                              THROUGHPUT_GAIN = false
                          ∧ num_is_zero (throughput a) = true))))) as [-> Hzero].
      { destruct (num_is_zero (throughput c)); simpl in Hraise;
          [by simplify_eq; split; [|left]|].
        destruct (num_gt (F.relative_gain _ _ _ c d) _); simpl in Hraise; [done|].
        destruct (num_is_zero (throughput b)); simpl in Hraise;
          [by simplify_eq; split; [|right; split_and!; [..|left]]|].
        destruct (num_gt (F.relative_gain _ _ _ b c) _); simpl in Hraise; [done|].
        destruct (num_is_zero (throughput a)); simpl in Hraise;
          [by simplify_eq; split; [|right; split_and!; [..|right]]|].
        by destruct (num_gt (F.relative_gain _ _ _ a b) _). }
      split_and!; [done..|]. by exists older, a, b, c, d.
    + intros (-> & _ & _ & older' & a' & b' & c' & d' & Hall' & Hzero).
      rewrite Hall in Hall'.
      apply app_inj_2 in Hall' as [_ Heq]; [|done]. simplify_eq.
      destruct Hzero as [->|(-> & -> & [->|(-> & -> & ->)])]; done.
Qed.

(** X8.  [is_done] looks at the last four measurements of the history
    only: two generators that agree on the index test and on the last
    measurement list, and whose histories end with the same four
    measurements, give the same answer. *)
Theorem is_done_last_four s s' (older older' recent : list Measurement) :
  length recent = 4%nat →
  P._all_results s = older ++ recent →
  P._all_results s' = older' ++ recent →
  P._all_configs_returned s = P._all_configs_returned s' →
  P._last_results_erroneous s = P._last_results_erroneous s' →
  is_done s = is_done s'.
Proof.
  intros Hlen Hall Hall' Hreturned Herroneous.
  destruct recent as [|a [|b [|c [|d [|? ?]]]]]; try discriminate.
  unfold P.is_done. rewrite Hreturned, Herroneous.
  rewrite (F.throughput_gain_valid_last_four throughput num_sub num_div
             num_is_zero num_gt THROUGHPUT_GAIN s older a b c d Hall).
  rewrite (F.throughput_gain_valid_last_four throughput num_sub num_div
             num_is_zero num_gt THROUGHPUT_GAIN s' older' a b c d Hall').
  done.
Qed.

End WithNumbers.

(** Rational throughputs, three configurations. *)
Definition fed (throughputs : list Q) : P.t Q nat :=
  foldl (fun s m => P.set_last_results [m] s) (P.__init__ [1; 2; 3]%nat) throughputs.

Lemma candidates_in_order_witness :
  (∃ s, consume [[10 # 1]; [11 # 1]]%Q (P.__init__ [1; 2; 3]%nat) = Ok ([1; 2]%nat, s)
        ∧ P._curr_config_index s = 2
        ∧ P._all_results s = [10 # 1; 11 # 1]%Q)
  ∧ consume [[10 # 1]; [11 # 1]; []; [12 # 1]]%Q (P.__init__ [1; 2; 3]%nat)
    = Raise IndexError.
Proof.
  split.
  - apply (proj1 (candidates_in_order [1; 2; 3]%nat [[10 # 1]; [11 # 1]]%Q)).
    simpl. lia.
  - apply (proj2 (candidates_in_order [1; 2; 3]%nat
                    [[10 # 1]; [11 # 1]; []; [12 # 1]]%Q)).
    simpl. lia.
Defined.

Lemma is_done_last_four_witness :
  P.is_done (fun m : Q => m) Qminus Qdiv (fun q => Qeq_bool q 0)
    (fun a b => negb (Qle_bool a b)) (5 # 100)
    (fed [0 # 1; 10 # 1; 11 # 1; 111 # 10; 1115 # 100]%Q)
  = P.is_done (fun m : Q => m) Qminus Qdiv (fun q => Qeq_bool q 0)
      (fun a b => negb (Qle_bool a b)) (5 # 100)
      (fed [10 # 1; 11 # 1; 111 # 10; 1115 # 100]%Q).
Proof.
  apply (is_done_last_four (fun m : Q => m) Qminus Qdiv (fun q => Qeq_bool q 0)
           (fun a b => negb (Qle_bool a b)) (5 # 100) _ _
           [0 # 1]%Q [] [10 # 1; 11 # 1; 111 # 10; 1115 # 100]%Q);
    reflexivity.
Defined.

End PerfAnalyzerMore.

(** ** Constraints per model, and measurements regrouped *)

Module ConstraintMore.
Module C := ConstraintManager.
Module CF := ConstraintFacts.

Lemma per_model_lookup (models : list C.AnalysisModel) (name : string) :
  foldl (fun acc model => <[C.model_name model := C.constraints model]> acc)
    (∅ : gmap string (option (gmap string (gmap string Q)))) models !! name
  = C.constraints <$> last (filter (fun model => C.model_name model = name) models).
Proof.
  induction models as [|model models IH] using rev_ind; [done|].
  rewrite foldl_app, filter_app. simpl.
  destruct (decide (C.model_name model = name)) as [Heq|Hne].
  - rewrite filter_cons_True by done. rewrite filter_nil, last_snoc.
    rewrite Heq. by rewrite lookup_insert_eq.
  - rewrite filter_cons_False by done. rewrite filter_nil, app_nil_r.
    by rewrite lookup_insert_ne.
Qed.

(** X9.  In the result of [get_constraints_for_all_models], a name other
    than ["default"] maps to the constraints of the last model with that
    name, and is absent when no model has it.  When the configuration
    has a ["constraints"] entry, ["default"] maps to that entry, also
    when a model is named ["default"]. *)
Theorem constraints_for_all_models_lookup (config : C.AnalysisConfig) (name : string) :
  C.get_constraints_for_all_models config !! name =
    match C.all_config_constraints config with
    | Some global =>
        if decide (name = "default") then Some global
        else C.constraints
               <$> last (filter (fun model => C.model_name model = name)
                           (C.analysis_models config))
    | None =>
        C.constraints
          <$> last (filter (fun model => C.model_name model = name)
                      (C.analysis_models config))
    end.
Proof.
  unfold C.get_constraints_for_all_models.
  destruct (C.all_config_constraints config) as [global|].
  - destruct (decide (name = "default")) as [->|Hne].
    + by rewrite lookup_insert_eq.
    + rewrite lookup_insert_ne by done. apply per_model_lookup.
  - apply per_model_lookup.
Qed.

Lemma check_models_false_flat constraints (models : list (list C.Metric)) :
  C.check_models constraints models = false
  ↔ ∃ metric, metric ∈ concat models ∧ CF.violates constraints metric.
Proof.
  rewrite CF.check_models_false. split.
  - intros (model_metrics & metric & Hin & Hmetric & Hviolates).
    exists metric. split; [|done].
    apply list_elem_of_In, in_concat. exists model_metrics.
    split; by apply list_elem_of_In.
  - intros (metric & Hin & Hviolates).
    apply list_elem_of_In, in_concat in Hin as (model_metrics & Hin & Hmetric).
    exists model_metrics, metric. split_and!; [..|done]; by apply list_elem_of_In.
Qed.

(** X10.  The answer of [check_constraints] depends on the metrics of
    the measurement only, not on how they are grouped by model nor on
    their order: two measurements whose metrics are the same up to
    order get the same answer. *)
Theorem check_constraints_regrouped
    (constraints : option (gmap string (gmap string Q)))
    (m1 m2 : C.RunConfigMeasurement) :
  concat (C.data m1) ≡ₚ concat (C.data m2) →
  C.check_constraints constraints m1 = C.check_constraints constraints m2.
Proof.
  intros Hperm. unfold C.check_constraints.
  destruct constraints as [cs|]; [|done].
  case_bool_decide; [|done].
  destruct (C.check_models cs (C.data m1)) eqn:H1,
    (C.check_models cs (C.data m2)) eqn:H2; try done.
  - apply check_models_false_flat in H2 as (metric & Hin & Hviolates).
    rewrite <- Hperm in Hin.
    assert (C.check_models cs (C.data m1) = false)
      by (apply check_models_false_flat; by exists metric).
    congruence.
  - apply check_models_false_flat in H1 as (metric & Hin & Hviolates).
    rewrite Hperm in Hin.
    assert (C.check_models cs (C.data m2) = false)
      by (apply check_models_false_flat; by exists metric).
    congruence.
Qed.

Lemma check_constraints_regrouped_witness :
  C.check_constraints
    (Some {[ "perf_throughput" := {[ "min" := (100 # 1)%Q ]} ]})
    {| C.data := [[ {| C.tag := "perf_latency_p99"; C.value := (5000 # 1)%Q |} ];
                  [ {| C.tag := "perf_throughput"; C.value := (90 # 1)%Q |} ]] |}
  = C.check_constraints
      (Some {[ "perf_throughput" := {[ "min" := (100 # 1)%Q ]} ]})
      {| C.data := [[ {| C.tag := "perf_throughput"; C.value := (90 # 1)%Q |};
                      {| C.tag := "perf_latency_p99"; C.value := (5000 # 1)%Q |} ]] |}.
Proof.
  apply check_constraints_regrouped. simpl. apply Permutation_swap.
Defined.

Example default_entry_overrides_model :
  C.get_constraints_for_all_models
    {| C.analysis_models :=
         [ {| C.model_name := "default";
              C.constraints := Some {[ "perf_throughput" := {[ "min" := (1 # 1)%Q ]} ]} |} ];
       C.all_config_constraints := Some None |} !! "default"
  = Some None.
Proof. by vm_compute. Qed.

End ConstraintMore.

(** ** The run-config generator between its candidates *)

Module RunConfigMore.
Module R := RunConfigGenerator.

(** The first [k] entries of a list of optional values are present. *)
Definition set_upto {X : Type} (k : nat) (l : list (option X)) : Prop :=
  ∀ i, (i < k)%nat → ∃ x, l !! i = Some (Some x).

Lemma set_upto_le {X : Type} (k k' : nat) (l : list (option X)) :
  (k' ≤ k)%nat → set_upto k l → set_upto k' l.
Proof. intros Hle Hset i Hi. apply Hset. lia. Qed.

Lemma set_upto_insert {X : Type} (k i : nat) (x : X) (l : list (option X)) :
  (i < length l)%nat → set_upto k l → set_upto k (<[i := Some x]> l).
Proof.
  intros Hi Hset j Hj. destruct (decide (i = j)) as [->|Hne].
  - exists x. by apply list_lookup_insert_eq.
  - rewrite list_lookup_insert_ne by done. by apply Hset.
Qed.

Lemma set_upto_extend {X : Type} (k : nat) (x : X) (l : list (option X)) :
  (k < length l)%nat → set_upto k l → set_upto (S k) (<[k := Some x]> l).
Proof.
  intros Hk Hset j Hj. destruct (decide (k = j)) as [->|Hne].
  - exists x. by apply list_lookup_insert_eq.
  - rewrite list_lookup_insert_ne by done. apply Hset. lia.
Qed.

Section WithGenerators.
Context {Measurement ModelRunConfig G : Type}.
Context `{!ModelRunConfigGeneratorInterface Measurement ModelRunConfig G}.
Implicit Types (s : R.t Measurement ModelRunConfig G) (models : list ModelSpec).

(** The lists of the object have one entry per model, and there is a
    model. *)
Definition well_formed s : Prop :=
  R._num_models s = length (R._models s)
  ∧ length (R._curr_model_run_configs s) = length (R._models s)
  ∧ length (R._curr_results s) = length (R._models s)
  ∧ length (R._curr_generators s) = length (R._models s)
  ∧ (0 < length (R._models s))%nat.

Lemma init_state config models s :
  R.__init__ config models = Ok s →
  well_formed s
  ∧ R._models s = models
  ∧ R._curr_generators s = replicate (length models) None
  ∧ R._curr_results s = replicate (length models) 0%nat
  ∧ R.store s = {[ 0%nat := [] ]}.
Proof.
  unfold R.__init__. intros Hinit.
  destruct (R._determine_triton_server_env models) as [env|e] eqn:Hdet;
    simpl in Hinit; [|done].
  apply RunConfigFacts.determine_env_ok in Hdet as [Hne _].
  simplify_eq. unfold well_formed. simpl.
  rewrite !length_replicate. split_and!; try done.
  destruct models; [done|simpl; lia].
Qed.

(** [_update_results_for_all_generators] changes the store only. *)
Lemma update_loop_frame indices measurements s :
  (∀ index, index ∈ indices → (index < length (R._curr_results s))%nat) →
  ∃ h, R.update_loop indices measurements s = Ok (R.with_store h (R.store_next s) s).
Proof.
  revert s. induction indices as [|index rest IH]; intros s Hrange; simpl.
  - exists (R.store s). by destruct s.
  - destruct (lookup_lt_is_Some_2 (R._curr_results s) index) as [l Hl].
    { apply Hrange. apply list_elem_of_here. }
    rewrite Hl.
    match goal with |- context [R.update_loop rest measurements ?st] =>
      destruct (IH st) as [h Hh] end.
    { intros i Hi. simpl. apply Hrange. by apply list_elem_of_further. }
    exists h. rewrite Hh. done.
Qed.

Lemma update_frame measurements s :
  well_formed s →
  ∃ h, R._update_results_for_all_generators measurements s
       = Ok (R.with_store h (R.store_next s) s).
Proof.
  intros (Hnum & _ & Hres & _). unfold R._update_results_for_all_generators.
  apply update_loop_frame. intros index Hin.
  apply elem_of_seq in Hin. lia.
Qed.

Lemma rev_seq_S (n : nat) : rev (seq 0 (S n)) = n :: rev (seq 0 n).
Proof. by rewrite seq_S, rev_app_distr. Qed.

(** X11.  Before the first candidate has been asked for, [is_done]
    answers false and [set_last_results] raises [AttributeError]: the
    generators it would hand the measurements to do not exist yet. *)
Theorem feedback_before_first_candidate config models s
    (measurements : list Measurement) :
  R.__init__ config models = Ok s →
  R.is_done s = Ok false
  ∧ R.set_last_results measurements s = Raise AttributeError.
Proof.
  intros Hinit.
  apply init_state in Hinit as (Hwf & Hmodels & Hgens & Hres & _).
  pose proof Hwf as (Hnum & _ & _ & _ & Hpos).
  rewrite Hmodels in *.
  destruct (length models) as [|n] eqn:Hlen; [lia|]. split.
  - unfold R.is_done. by rewrite Hgens.
  - unfold R.set_last_results.
    destruct (update_frame measurements s Hwf) as [h ->]. simpl.
    unfold R._send_results_to_appropriate_generators. simpl.
    rewrite Hnum, rev_seq_S. simpl.
    rewrite Hgens, lookup_replicate_2 by lia. done.
Qed.

(** Between two candidates: every generator exists and every slot holds
    a model run config. *)
Definition ready s : Prop :=
  well_formed s
  ∧ set_upto (length (R._models s)) (R._curr_generators s)
  ∧ set_upto (length (R._models s)) (R._curr_model_run_configs s).

(** What [next] leaves alone. *)
Definition same_queues s s' : Prop :=
  R._models s' = R._models s
  ∧ R._curr_results s' = R._curr_results s
  ∧ R.store s' = R.store s
  ∧ R.store_next s' = R.store_next s.

Lemma subset_loop_ready fuel index s :
  well_formed s →
  (index < length (R._models s))%nat →
  set_upto (S index) (R._curr_generators s) →
  set_upto index (R._curr_model_run_configs s) →
  match R.subset_loop fuel index s with
  | R.Yield rc s' => ready s' ∧ rc = R._make_run_config s' ∧ same_queues s s'
  | R.Stopped s' => well_formed s' ∧ same_queues s s'
  | R.Failed _ => False
  | R.OutOfFuel => True
  end.
Proof.
  revert index s. induction fuel as [|fuel IH]; intros index s Hwf Hindex Hgens Hslots;
    simpl; [done|].
  destruct (Hgens index ltac:(lia)) as [mrcg Hmrcg]. rewrite Hmrcg.
  pose proof Hwf as (Hnum & Hlen_slots & Hlen_res & Hlen_gens & Hpos).
  destruct (negb (mrcg_is_done (R.store s) mrcg)).
  - destruct (mrcg_next (R.store s) mrcg) as [next_config mrcg'].
    set (s1 := R.with_curr_model_run_configs _ _).
    assert (well_formed s1) as Hwf1.
    { unfold well_formed, s1. simpl. rewrite !length_insert. done. }
    assert (set_upto (S index) (R._curr_generators s1)) as Hgens1.
    { unfold s1. simpl. apply set_upto_insert; [lia|done]. }
    assert (set_upto (S index) (R._curr_model_run_configs s1)) as Hslots1.
    { unfold s1. simpl. apply set_upto_extend; [lia|done]. }
    case_bool_decide as Hleaf.
    + assert (S index = length (R._models s1)) as Hlast by (simpl in *; lia).
      split_and!; [|done|done].
      unfold ready. rewrite <- Hlast. done.
    + unfold R.enter_subset.
      destruct (lookup_lt_is_Some_2 (R._models s1) (S index)) as [model Hmodel].
      { simpl in *. lia. }
      rewrite Hmodel.
      match goal with |- context [R.subset_loop fuel (S index) ?st] =>
        specialize (IH (S index) st); set (s2 := st) in * end.
      assert (length (R._curr_generators s1) = length (R._models s1)) as Hlen1
        by apply Hwf1.
      destruct (R.subset_loop fuel (S index) s2) as [rc s'|s'|e|].
      * destruct IH as (Hready & Hrc & Hsame).
        { unfold well_formed, s2. simpl. rewrite !length_insert. done. }
        { simpl in *. lia. }
        { unfold s2. simpl. apply set_upto_extend; [|done].
          fold (R._curr_generators s1). simpl in *. rewrite length_insert. lia. }
        { done. }
        split_and!; done.
      * apply IH.
        { unfold well_formed, s2. simpl. rewrite !length_insert. done. }
        { simpl in *. lia. }
        { unfold s2. simpl. apply set_upto_extend; [|done].
          simpl in *. rewrite length_insert. lia. }
        { done. }
      * apply IH.
        { unfold well_formed, s2. simpl. rewrite !length_insert. done. }
        { simpl in *. lia. }
        { unfold s2. simpl. apply set_upto_extend; [|done].
          simpl in *. rewrite length_insert. lia. }
        { done. }
      * done.
  - destruct index as [|below]; [done|].
    apply IH; [done|lia| |].
    + eapply set_upto_le; [|done]. lia.
    + eapply set_upto_le; [|done]. lia.
Qed.

Lemma next_ready fuel fr s :
  well_formed s →
  (fr = R.Suspended → ready s) →
  match R.next fuel fr s with
  | R.Yield rc s' => ready s' ∧ rc = R._make_run_config s' ∧ same_queues s s'
  | R.Stopped s' => well_formed s' ∧ same_queues s s'
  | R.Failed e => fr = R.Finished ∧ e = StopIteration
  | R.OutOfFuel => True
  end.
Proof.
  intros Hwf Hready. pose proof Hwf as (Hnum & Hlen_slots & Hlen_res & Hlen_gens & Hpos).
  destruct fr; simpl.
  - unfold R.enter_subset.
    destruct (lookup_lt_is_Some_2 (R._models s) 0) as [model Hmodel]; [done|].
    rewrite Hmodel.
    match goal with |- context [R.subset_loop fuel 0 ?st] =>
      pose proof (subset_loop_ready fuel 0 st) as Hloop; set (s1 := st) in * end.
    destruct (R.subset_loop fuel 0 s1) as [rc s'|s'|e|]; [| | |done].
    + apply Hloop.
      * unfold well_formed, s1. simpl. rewrite !length_insert. done.
      * done.
      * unfold s1. simpl. apply set_upto_extend; [lia|]. intros i Hi. lia.
      * intros i Hi. lia.
    + apply Hloop.
      * unfold well_formed, s1. simpl. rewrite !length_insert. done.
      * done.
      * unfold s1. simpl. apply set_upto_extend; [lia|]. intros i Hi. lia.
      * intros i Hi. lia.
    + exfalso. apply Hloop.
      * unfold well_formed, s1. simpl. rewrite !length_insert. done.
      * done.
      * unfold s1. simpl. apply set_upto_extend; [lia|]. intros i Hi. lia.
      * intros i Hi. lia.
  - destruct (Hready eq_refl) as (_ & Hgens & Hslots).
    pose proof (subset_loop_ready fuel (length (R._models s) - 1) s Hwf) as Hloop.
    destruct (R.subset_loop fuel (length (R._models s) - 1) s) as [rc s'|s'|e|];
      [| | |done].
    + apply Hloop; [lia| |].
      * eapply set_upto_le; [|done]. lia.
      * eapply set_upto_le; [|done]. lia.
    + apply Hloop; [lia| |].
      * eapply set_upto_le; [|done]. lia.
      * eapply set_upto_le; [|done]. lia.
    + exfalso. apply Hloop; [lia| |].
      * eapply set_upto_le; [|done]. lia.
      * eapply set_upto_le; [|done]. lia.
  - done.
Qed.

(** With every generator in place, the hand-over of results succeeds and
    leaves every generator in place. *)
Lemma send_loop_ready indices s :
  ready s →
  (∀ index, index ∈ indices → (index < length (R._models s))%nat) →
  ∃ s', R.send_loop indices s = Ok s'
        ∧ ready s'
        ∧ R._models s' = R._models s
        ∧ R._curr_model_run_configs s' = R._curr_model_run_configs s.
Proof.
  revert s. induction indices as [|index rest IH]; intros s Hready Hrange; simpl.
  - by exists s.
  - destruct Hready as (Hwf & Hgens & Hslots).
    pose proof Hwf as (Hnum & Hlen_slots & Hlen_res & Hlen_gens & Hpos).
    assert (index < length (R._models s))%nat as Hindex
      by (apply Hrange, list_elem_of_here).
    destruct (Hgens index Hindex) as [g Hg]. rewrite Hg.
    destruct (lookup_lt_is_Some_2 (R._curr_results s) index) as [l Hl]; [lia|].
    rewrite Hl.
    match goal with |- context [R.send_loop rest ?st] => set (s2 := st) in * end.
    assert (ready s2) as Hready2.
    { unfold ready, well_formed, s2. simpl. rewrite !length_insert.
      split_and!; try done. apply set_upto_insert; [lia|done]. }
    destruct (negb _).
    + by exists s2.
    + destruct (IH s2 Hready2) as (s' & Hsend & Hready' & Hmodels & Hslots').
      { intros i Hi. simpl. apply Hrange. by apply list_elem_of_further. }
      exists s'. by split_and!.
Qed.

Lemma set_last_results_ready measurements s :
  ready s →
  ∃ s', R.set_last_results measurements s = Ok s'
        ∧ ready s'
        ∧ R._models s' = R._models s
        ∧ R._curr_model_run_configs s' = R._curr_model_run_configs s.
Proof.
  intros Hready. pose proof Hready as (Hwf & Hgens & Hslots).
  unfold R.set_last_results.
  destruct (update_frame measurements s Hwf) as [h ->]. simpl.
  unfold R._send_results_to_appropriate_generators.
  set (s1 := R.with_store h (R.store_next s) s).
  destruct (send_loop_ready (rev (seq 0 (R._num_models s1))) s1)
    as (s' & Hsend & Hready' & Hmodels & Hslots').
  - done.
  - intros index Hin. apply list_elem_of_In, in_rev, list_elem_of_In in Hin.
    apply elem_of_seq in Hin. destruct Hwf as (Hnum & _). simpl in *. lia.
  - by exists s'.
Qed.

(** Where a sequence of driver actions leads. *)
Inductive Replay : Type :=
| Reached (fr : R.Frame) (s : R.t Measurement ModelRunConfig G)
| Raised_ (e : Raised)
| Exhausted.

Fixpoint replay (actions : list (RunConfigFacts.Action (Measurement:=Measurement)))
    (fr : R.Frame) s : Replay :=
  match actions with
  | [] => Reached fr s
  | RunConfigFacts.DoNext fuel :: rest =>
      match R.next fuel fr s with
      | R.Yield _ s' => replay rest R.Suspended s'
      | R.Stopped s' => replay rest R.Finished s'
      | R.Failed e => Raised_ e
      | R.OutOfFuel => Exhausted
      end
  | RunConfigFacts.DoSetLastResults measurements :: rest =>
      match R.set_last_results measurements s with
      | Ok s' => replay rest fr s'
      | Raise e => Raised_ e
      end
  end.

Lemma replay_finished actions s fr' s' :
  replay actions R.Finished s = Reached fr' s' → fr' = R.Finished.
Proof.
  revert s. induction actions as [|[fuel|measurements] rest IH]; intros s Hreplay;
    simpl in Hreplay; [congruence|done|].
  destruct (R.set_last_results measurements s); [by eapply IH|done].
Qed.

Lemma created_feedback_raises measurements s :
  well_formed s →
  R._curr_generators s = replicate (length (R._models s)) None →
  R.set_last_results measurements s = Raise AttributeError.
Proof.
  intros Hwf Hgens. pose proof Hwf as (Hnum & _ & _ & _ & Hpos).
  unfold R.set_last_results.
  destruct (update_frame measurements s Hwf) as [h ->]. simpl.
  unfold R._send_results_to_appropriate_generators. simpl.
  destruct (length (R._models s)) as [|n] eqn:Hlen; [lia|].
  rewrite Hnum, rev_seq_S. simpl.
  rewrite Hgens, lookup_replicate_2 by lia. done.
Qed.

(** What holds of the object in each frame of the generator. *)
Definition frame_invariant (fr : R.Frame) s : Prop :=
  match fr with
  | R.Created =>
      well_formed s
      ∧ R._curr_generators s = replicate (length (R._models s)) None
  | R.Suspended => ready s
  | R.Finished => True
  end.

Lemma replay_ready actions fr s fr' s' :
  frame_invariant fr s →
  replay actions fr s = Reached fr' s' →
  fr' = R.Suspended →
  ready s' ∧ R._models s' = R._models s.
Proof.
  revert fr s. induction actions as [|[fuel|measurements] rest IH];
    intros fr s Hinv Hreplay Hfr'; simpl in Hreplay.
  - simplify_eq. by split.
  - assert (well_formed s ∧ (fr = R.Suspended → ready s)) as [Hwf Hready].
    { destruct fr; simpl in Hinv.
      - by split; [apply Hinv|].
      - by split; [apply Hinv|].
      - by simpl in Hreplay. }
    pose proof (next_ready fuel fr s Hwf Hready) as Hnext.
    destruct (R.next fuel fr s) as [rc s1|s1|e|]; [| |done..].
    + destruct Hnext as (Hready1 & _ & Hmodels & _).
      destruct (IH R.Suspended s1 Hready1 Hreplay Hfr') as [Hr Hm].
      split; [done|congruence].
    + apply replay_finished in Hreplay. congruence.
  - destruct fr; simpl in Hinv.
    + destruct Hinv as [Hwf Hgens].
      by rewrite (created_feedback_raises measurements s Hwf Hgens) in Hreplay.
    + destruct (set_last_results_ready measurements s Hinv)
        as (s1 & Hset & Hready1 & Hmodels & _).
      rewrite Hset in Hreplay.
      destruct (IH R.Suspended s1 Hready1 Hreplay Hfr') as [Hr Hm].
      split; [done|congruence].
    + destruct (R.set_last_results measurements s) as [s1|e]; [|done].
      apply replay_finished in Hreplay. congruence.
Qed.

Lemma ready_run_config s :
  ready s →
  length (R.rc_model_run_configs (R._make_run_config s)) = length (R._models s)
  ∧ Forall is_Some (R.rc_model_run_configs (R._make_run_config s)).
Proof.
  intros (Hwf & _ & Hslots). unfold R._make_run_config. simpl.
  rewrite length_fmap, length_seq. split; [done|].
  apply Forall_fmap, Forall_forall. intros index Hin.
  apply elem_of_seq in Hin. destruct (Hslots index ltac:(lia)) as [x Hx].
  simpl. rewrite Hx. by eexists.
Qed.

Lemma session_filled actions fr s :
  frame_invariant fr s →
  Forall (fun rc =>
            length (R.rc_model_run_configs rc) = length (R._models s)
            ∧ Forall is_Some (R.rc_model_run_configs rc))
    (RunConfigFacts.session actions fr s).
Proof.
  revert fr s. induction actions as [|[fuel|measurements] rest IH];
    intros fr s Hinv; simpl; [by constructor| |].
  - destruct fr; simpl in Hinv.
    + destruct Hinv as [Hwf Hgens].
      pose proof (next_ready fuel R.Created s Hwf ltac:(done)) as Hnext.
      destruct (R.next fuel R.Created s) as [rc s1|s1|e|]; [| |by constructor..].
      * destruct Hnext as (Hready1 & -> & Hmodels & _).
        rewrite <- Hmodels. constructor; [by apply ready_run_config|].
        by apply (IH R.Suspended).
      * destruct Hnext as (_ & Hmodels & _). rewrite <- Hmodels.
        by apply (IH R.Finished).
    + pose proof Hinv as (Hwf & _).
      pose proof (next_ready fuel R.Suspended s Hwf ltac:(done)) as Hnext.
      destruct (R.next fuel R.Suspended s) as [rc s1|s1|e|]; [| |by constructor..].
      * destruct Hnext as (Hready1 & -> & Hmodels & _).
        rewrite <- Hmodels. constructor; [by apply ready_run_config|].
        by apply (IH R.Suspended).
      * destruct Hnext as (_ & Hmodels & _). rewrite <- Hmodels.
        by apply (IH R.Finished).
    + simpl. constructor.
  - destruct fr; simpl in Hinv.
    + destruct Hinv as [Hwf Hgens].
      rewrite (created_feedback_raises measurements s Hwf Hgens). constructor.
    + destruct (set_last_results_ready measurements s Hinv)
        as (s1 & -> & Hready1 & Hmodels & _).
      rewrite <- Hmodels. by apply (IH R.Suspended).
    + destruct (R.set_last_results measurements s) as [s1|e]; [|constructor].
      (* an ended generator emits nothing more *)
      clear. revert s1. induction rest as [|[fuel|measurements'] rest IHrest];
        intros s1; simpl; [constructor..|].
      destruct (R.set_last_results measurements' s1); [apply IHrest|constructor].
Qed.

(** X12.  Every candidate emitted after a successful construction, along
    any sequence of [next] and [set_last_results], holds one model run
    config per model, none of them missing. *)
Theorem emitted_run_configs_complete config models s
    (actions : list (RunConfigFacts.Action (Measurement:=Measurement))) :
  R.__init__ config models = Ok s →
  Forall (fun rc =>
            length (R.rc_model_run_configs rc) = length models
            ∧ Forall is_Some (R.rc_model_run_configs rc))
    (RunConfigFacts.session actions R.Created s).
Proof.
  intros Hinit.
  apply init_state in Hinit as (Hwf & Hmodels & Hgens & _).
  rewrite <- Hmodels. apply session_filled. simpl. by rewrite Hmodels.
Qed.

Lemma all_present {X : Type} (l : list (option X)) :
  set_upto (length l) l → ∃ xs, l = Some <$> xs.
Proof.
  induction l as [|x l IH]; intros Hset; [by exists []|].
  destruct (Hset 0%nat ltac:(simpl; lia)) as [x0 Hx0]. simpl in Hx0.
  destruct IH as [xs ->].
  { intros i Hi. apply (Hset (S i)). simpl. lia. }
  exists (x0 :: xs). by simplify_eq.
Qed.

Lemma is_done_all_present s (gens : list G) :
  gens ≠ [] →
  R._curr_generators s = Some <$> gens →
  R.is_done s = Ok (forallb (mrcg_is_done (R.store s)) gens).
Proof.
  intros Hne Hgens. unfold R.is_done. rewrite Hgens.
  destruct gens as [|g0 rest]; [done|].
  change ((Some <$> g0 :: rest) !! 0%nat) with (Some (Some g0)). cbv beta iota.
  generalize (R.store s) (g0 :: rest). clear. intros h present.
  induction present as [|g present IH]; [done|].
  cbn [fmap list_fmap] in *. rewrite IH. done.
Qed.

(** A generator that has just been built is not done. *)
Definition new_not_done : Prop :=
  ∀ (h : gmap loc (list Measurement)) config model,
    mrcg_is_done (ModelRunConfig:=ModelRunConfig) (G:=G) h (mrcg_new config model)
    = false.

(** From a generator that is not done, the loops go down to the last
    model and emit: every generator built on the way is new. *)
Lemma subset_loop_descends fuel index s (g : G) :
  new_not_done →
  well_formed s →
  (index < length (R._models s))%nat →
  R._curr_generators s !! index = Some (Some g) →
  mrcg_is_done (R.store s) g = false →
  (length (R._models s) - index ≤ fuel)%nat →
  ∃ rc s', R.subset_loop fuel index s = R.Yield rc s'.
Proof.
  intros Hnew. revert index s g.
  induction fuel as [|fuel IH]; intros index s g Hwf Hindex Hg Hnot Hfuel; [lia|].
  simpl. rewrite Hg, Hnot. simpl.
  pose proof Hwf as (Hnum & Hlen_slots & Hlen_res & Hlen_gens & Hpos).
  destruct (mrcg_next (R.store s) g) as [next_config g'].
  set (s1 := R.with_curr_model_run_configs _ _).
  case_bool_decide as Hleaf; [by eexists _, _|].
  unfold R.enter_subset.
  destruct (lookup_lt_is_Some_2 (R._models s1) (S index)) as [model Hmodel].
  { simpl in *. lia. }
  rewrite Hmodel.
  match goal with |- context [R.subset_loop fuel (S index) ?st] =>
    set (s2 := st) end.
  apply (IH (S index) s2 (mrcg_new (R._config s1) model)).
  - unfold well_formed, s2, s1. simpl. rewrite !length_insert. done.
  - simpl in *. lia.
  - unfold s2, s1. simpl. apply list_lookup_insert_eq.
    rewrite length_insert. simpl in *. lia.
  - apply Hnew.
  - simpl in *. lia.
Qed.

(** From any index, the loops end: they go up past the generators that
    are done, then down from the first that is not, or end the
    generator when the outermost one is done. *)
Lemma subset_loop_ends fuel index s :
  new_not_done →
  well_formed s →
  (index < length (R._models s))%nat →
  set_upto (S index) (R._curr_generators s) →
  (index + 1 + length (R._models s) ≤ fuel)%nat →
  (∃ rc s', R.subset_loop fuel index s = R.Yield rc s')
  ∨ (∃ s', R.subset_loop fuel index s = R.Stopped s').
Proof.
  intros Hnew Hwf. revert fuel.
  induction index as [|below IH]; intros fuel Hindex Hgens Hfuel.
  - destruct (Hgens 0%nat ltac:(lia)) as [g Hg].
    destruct (mrcg_is_done (R.store s) g) eqn:Hdone.
    + right. destruct fuel as [|fuel]; [lia|]. simpl. rewrite Hg, Hdone. simpl.
      by eexists.
    + left. apply (subset_loop_descends fuel 0 s g); [done..|lia].
  - destruct (Hgens (S below) ltac:(lia)) as [g Hg].
    destruct (mrcg_is_done (R.store s) g) eqn:Hdone.
    + destruct fuel as [|fuel]; [lia|]. simpl. rewrite Hg, Hdone. simpl.
      apply IH; [lia| |lia]. eapply set_upto_le; [|done]. lia.
    + left. apply (subset_loop_descends fuel (S below) s g); [done..|lia].
Qed.

(** X13.  Once a candidate has been emitted and until the generator
    ends, nothing raises: every generator exists and [is_done] is the
    conjunction of their [is_done], [set_last_results] succeeds for any
    measurements, and [next] does not raise.  When a generator that has
    just been built is never done, [next] also ends: within twice as
    many loop tests as there are models it emits a candidate or ends the
    generator. *)
Theorem no_exception_between_candidates config models s0
    (actions : list (RunConfigFacts.Action (Measurement:=Measurement))) s :
  R.__init__ config models = Ok s0 →
  replay actions R.Created s0 = Reached R.Suspended s →
  (∃ gens, R._curr_generators s = Some <$> gens
           ∧ length gens = length models
           ∧ R.is_done s = Ok (forallb (mrcg_is_done (R.store s)) gens))
  ∧ (∀ measurements, ∃ s', R.set_last_results measurements s = Ok s')
  ∧ (∀ fuel e, R.next fuel R.Suspended s ≠ R.Failed e)
  ∧ (new_not_done →
     ∀ fuel, (2 * length models ≤ fuel)%nat →
       (∃ rc s', R.next fuel R.Suspended s = R.Yield rc s')
       ∨ (∃ s', R.next fuel R.Suspended s = R.Stopped s')).
Proof.
  intros Hinit Hreplay.
  apply init_state in Hinit as (Hwf & Hmodels & Hgens & _).
  destruct (replay_ready actions R.Created s0 R.Suspended s) as [Hready Hsame];
    [by simpl; rewrite Hmodels|done..|].
  split_and!.
  - pose proof Hready as (Hwf' & Hset & _).
    pose proof Hwf' as (_ & _ & _ & Hlen & Hpos).
    rewrite <- Hlen in Hset. destruct (all_present _ Hset) as [gens Hall].
    exists gens. rewrite Hall, length_fmap in Hlen.
    split_and!; [done|congruence|].
    apply is_done_all_present; [|done]. intros ->. simpl in Hlen. lia.
  - intros measurements.
    destruct (set_last_results_ready measurements s Hready) as (s' & ? & _).
    by exists s'.
  - intros fuel e Hfail.
    pose proof Hready as (Hwf' & _).
    pose proof (next_ready fuel R.Suspended s Hwf' ltac:(done)) as Hnext.
    rewrite Hfail in Hnext. by destruct Hnext.
  - intros Hnew fuel Hfuel.
    pose proof Hready as (Hwf' & Hset & _).
    pose proof Hwf' as (_ & _ & _ & _ & Hpos).
    assert (length (R._models s) = length models) as Hn by congruence.
    simpl. apply subset_loop_ends; [done..|lia| |lia].
    eapply set_upto_le; [|done]. lia.
Qed.

(** The hand-over loop leaves alone the generators and the pending lists
    of the indices it does not visit. *)
Lemma send_loop_other indices s s' (index : nat) :
  R.send_loop indices s = Ok s' →
  index ∉ indices →
  R._curr_generators s' !! index = R._curr_generators s !! index
  ∧ R._curr_results s' !! index = R._curr_results s !! index.
Proof.
  revert s. induction indices as [|visited rest IH]; intros s Hsend Hnot;
    simpl in Hsend.
  - by simplify_eq.
  - apply not_elem_of_cons in Hnot as [Hne Hrest].
    destruct (R._curr_generators s !! visited) as [[g|]|]; [|done..].
    destruct (R._curr_results s !! visited) as [l|]; [|done].
    destruct (negb _).
    + simplify_eq. simpl. by rewrite !list_lookup_insert_ne.
    + apply IH in Hsend as [Hgens Hres]; [|done].
      rewrite Hgens, Hres. simpl. by rewrite !list_lookup_insert_ne.
Qed.

(** When all slots of [_curr_results] name one list, every index of the
    update loop extends that list. *)
Lemma update_loop_shared indices measurements s (l : loc) :
  R._curr_results s = replicate (length (R._curr_results s)) l →
  (∀ index, index ∈ indices → (index < length (R._curr_results s))%nat) →
  ∃ h, R.update_loop indices measurements s
         = Ok (R.with_store h (R.store_next s) s)
       ∧ h !! l = (fun old => old ++ concat (replicate (length indices) measurements))
                    <$> R.store s !! l.
Proof.
  revert s. induction indices as [|index rest IH]; intros s Hshared Hrange; simpl.
  - exists (R.store s). split; [by destruct s|].
    destruct (R.store s !! l); simpl; [|done]. by rewrite app_nil_r.
  - assert (R._curr_results s !! index = Some l) as Hl.
    { rewrite Hshared. apply lookup_replicate_2, Hrange, list_elem_of_here. }
    rewrite Hl.
    match goal with |- context [R.update_loop rest measurements ?st] =>
      destruct (IH st) as (h & Hh & Hlookup) end.
    { done. }
    { intros i Hi. simpl. apply Hrange. by apply list_elem_of_further. }
    exists h. split; [by rewrite Hh|].
    rewrite Hlookup. simpl. rewrite lookup_alter_eq.
    destruct (R.store s !! l); simpl; [|done]. by rewrite <- app_assoc.
Qed.

(** X14.  On the first [set_last_results] after the first candidate, the
    innermost generator is handed a list that holds the measurements
    once per model: the slots of [_curr_results] still name the one list
    built at construction. *)
Theorem first_feedback_once_per_model config models s0 fuel rc s1
    (measurements : list Measurement) :
  R.__init__ config models = Ok s0 →
  R.next fuel R.Created s0 = R.Yield rc s1 →
  ∃ g h s2,
    R._curr_generators s1 !! (length models - 1)%nat = Some (Some g)
    ∧ R.set_last_results measurements s1 = Ok s2
    ∧ R._curr_generators s2 !! (length models - 1)%nat
      = Some (Some (mrcg_set_last_results 0%nat h g))
    ∧ h !! 0%nat = Some (concat (replicate (length models) measurements)).
Proof.
  intros Hinit Hnext.
  apply init_state in Hinit as (Hwf0 & Hmodels0 & Hgens0 & Hres0 & Hstore0).
  pose proof (next_ready fuel R.Created s0 Hwf0 ltac:(done)) as Hready.
  rewrite Hnext in Hready.
  destruct Hready as (Hready & _ & Hmodels & Hres & Hstore & _).
  pose proof Hready as (Hwf & Hset & _).
  pose proof Hwf as (Hnum & _ & Hlen_res & _ & Hpos).
  rewrite Hmodels, Hmodels0 in *.
  destruct (length models) as [|n] eqn:Hlen; [lia|].
  replace (S n - 1)%nat with n by lia.
  destruct (Hset n ltac:(lia)) as [g Hg]. exists g.
  destruct (set_last_results_ready measurements s1 Hready) as (s2 & Hok & _).
  unfold R.set_last_results, R._update_results_for_all_generators in *.
  destruct (update_loop_shared (seq 0 (R._num_models s1)) measurements s1 0%nat)
    as (h & Hupdate & Hh).
  { rewrite Hres, Hres0, length_replicate. done. }
  { intros index Hin. apply elem_of_seq in Hin. lia. }
  rewrite Hupdate in Hok |- *. simpl in Hok |- *.
  exists h, s2. split_and!; [done|done| |].
  - unfold R._send_results_to_appropriate_generators in Hok. simpl in Hok.
    rewrite Hnum, rev_seq_S in Hok. simpl in Hok. rewrite Hg in Hok.
    assert (R._curr_results s1 !! n = Some 0%nat) as Hl
      by (rewrite Hres, Hres0; apply lookup_replicate_2; lia).
    match type of Hok with
    | match ?x with _ => _ end = _ =>
        replace x with (Some 0%nat) in Hok by (symmetry; exact Hl)
    end.
    destruct (negb _).
    + simplify_eq. simpl. apply list_lookup_insert_eq.
      apply lookup_lt_Some in Hg. done.
    + apply (send_loop_other _ _ _ n) in Hok as [-> _].
      * simpl. apply list_lookup_insert_eq. apply lookup_lt_Some in Hg. done.
      * intros Hin. apply list_elem_of_In, in_rev, list_elem_of_In, elem_of_seq in Hin.
        lia.
  - etrans; [exact Hh|].
    rewrite Hstore, Hstore0, lookup_singleton_eq. simpl.
    by rewrite length_seq, Hnum.
Qed.

(** One model, and the list that its slot names is empty. *)
Definition single_empty_queue s : Prop :=
  length (R._models s) = 1%nat
  ∧ ∃ l, R._curr_results s = [l] ∧ R.store s !! l = Some [].

Lemma single_handover (measurements : list Measurement) s :
  ready s → single_empty_queue s →
  ∃ g l h s',
    R._curr_generators s = [Some g]
    ∧ R._curr_results s = [l]
    ∧ R.set_last_results measurements s = Ok s'
    ∧ R._curr_generators s' = [Some (mrcg_set_last_results l h g)]
    ∧ h !! l = Some measurements
    ∧ ready s' ∧ single_empty_queue s'.
Proof.
  intros Hready (Hone & l & Hres & Hstore).
  pose proof Hready as (Hwf & Hset & Hslots).
  pose proof Hwf as (Hnum & Hlen_slots & Hlen_res & Hlen_gens & Hpos).
  rewrite Hone in *.
  destruct (Hset 0%nat ltac:(lia)) as [g Hg].
  assert (R._curr_generators s = [Some g]) as Hgens.
  { destruct (R._curr_generators s) as [|g0 [|? ?]]; simpl in *; try lia.
    by simplify_eq. }
  exists g, l, (alter (fun old => old ++ measurements) l (R.store s)).
  destruct (set_last_results_ready measurements s Hready)
    as (s' & Hok & Hready' & Hmodels' & _).
  exists s'. 
  unfold R.set_last_results, R._update_results_for_all_generators,
    R._send_results_to_appropriate_generators in Hok.
  rewrite Hnum in Hok. simpl in Hok. rewrite Hres in Hok. simpl in Hok.
  rewrite Hnum in Hok. simpl in Hok. rewrite Hgens, Hres in Hok. simpl in Hok.
  assert (s' = R.with_curr_results [R.store_next s]
                 (R.with_store
                    (<[R.store_next s := []]>
                       (alter (fun old => old ++ measurements) l (R.store s)))
                    (S (R.store_next s))
                    (R.with_curr_generators
                       [Some (mrcg_set_last_results l
                                (alter (fun old => old ++ measurements) l (R.store s)) g)]
                       (R.with_store
                          (alter (fun old => old ++ measurements) l (R.store s))
                          (R.store_next s) s)))) as Hs'.
  { destruct (negb _); by simplify_eq. }
  split_and!; [done|done| | | |done|].
  - unfold R.set_last_results, R._update_results_for_all_generators,
      R._send_results_to_appropriate_generators.
    rewrite Hnum. simpl. rewrite Hres. simpl.
    rewrite Hnum. simpl. rewrite Hgens, Hres. simpl.
    rewrite Hs'. by destruct (negb _).
  - by rewrite Hs'.
  - by rewrite lookup_alter_eq, Hstore.
  - split; [congruence|]. exists (R.store_next s). rewrite Hs'. simpl.
    split; [done|]. apply lookup_insert_eq.
Qed.

Lemma replay_single actions fr s fr' s' :
  frame_invariant fr s → single_empty_queue s →
  replay actions fr s = Reached fr' s' →
  fr' = R.Suspended →
  single_empty_queue s'.
Proof.
  revert fr s. induction actions as [|[fuel|measurements] rest IH];
    intros fr s Hinv Hsingle Hreplay Hfr'; simpl in Hreplay.
  - by simplify_eq.
  - assert (well_formed s ∧ (fr = R.Suspended → ready s)) as [Hwf Hready].
    { destruct fr; simpl in Hinv.
      - by split; [apply Hinv|].
      - by split; [apply Hinv|].
      - by simpl in Hreplay. }
    pose proof (next_ready fuel fr s Hwf Hready) as Hnext.
    destruct (R.next fuel fr s) as [rc s1|s1|e|]; [| |done..].
    + destruct Hnext as (Hready1 & _ & Hmodels & Hres & Hstore & _).
      apply (IH R.Suspended s1); [done| |done..].
      destruct Hsingle as (Hone & l & Hl & Hempty).
      split; [congruence|]. exists l. by rewrite Hres, Hstore.
    + apply replay_finished in Hreplay. congruence.
  - destruct fr; simpl in Hinv.
    + destruct Hinv as [Hwf Hgens].
      by rewrite (created_feedback_raises measurements s Hwf Hgens) in Hreplay.
    + destruct (single_handover measurements s Hinv Hsingle)
        as (g & l & h & s1 & _ & _ & Hset & _ & _ & Hready1 & Hsingle1).
      rewrite Hset in Hreplay. by apply (IH R.Suspended s1).
    + destruct (R.set_last_results measurements s) as [s1|e]; [|done].
      apply replay_finished in Hreplay. congruence.
Qed.

(** X15.  With a single model, at any point between two candidates,
    [set_last_results(measurements)] hands the generator a list that
    holds exactly those measurements: nothing is left over from earlier
    calls and nothing is repeated. *)
Theorem single_model_feedback config (model : ModelSpec) s0
    (actions : list (RunConfigFacts.Action (Measurement:=Measurement))) s
    (measurements : list Measurement) :
  R.__init__ config [model] = Ok s0 →
  replay actions R.Created s0 = Reached R.Suspended s →
  ∃ g l h s',
    R._curr_generators s = [Some g]
    ∧ R.set_last_results measurements s = Ok s'
    ∧ R._curr_generators s' = [Some (mrcg_set_last_results l h g)]
    ∧ h !! l = Some measurements.
Proof.
  intros Hinit Hreplay.
  apply init_state in Hinit as (Hwf & Hmodels & Hgens & Hres & Hstore).
  assert (frame_invariant R.Created s0) as Hinv by (by simpl; rewrite Hmodels).
  assert (single_empty_queue s0) as Hsingle.
  { split; [by rewrite Hmodels|]. exists 0%nat.
    rewrite Hres, Hstore. split; [done|]. apply lookup_singleton_eq. }
  destruct (replay_ready actions R.Created s0 R.Suspended s Hinv Hreplay eq_refl)
    as [Hready _].
  pose proof (replay_single actions R.Created s0 R.Suspended s Hinv Hsingle
                Hreplay eq_refl) as Hsingle'.
  destruct (single_handover measurements s Hready Hsingle')
    as (g & l & h & s' & ? & ? & ? & ? & ? & _).
  by exists g, l, h, s'.
Qed.

(** What the hand-over has done when it stopped at index [k] of [n]:
    the generators below [k] and their pending lists are untouched;
    every generator from [k] on has been handed its pending list; every
    one above [k] was done after consuming; the one at [k], unless it is
    the outermost, was not. *)
Definition handed_from (k n : nat) s s' : Prop :=
  (∀ i, (i < k)%nat →
        R._curr_generators s' !! i = R._curr_generators s !! i
        ∧ R._curr_results s' !! i = R._curr_results s !! i)
  ∧ (∀ j, (k ≤ j < n)%nat →
          ∃ g l h, R._curr_generators s !! j = Some (Some g)
                   ∧ R._curr_results s !! j = Some l
                   ∧ R._curr_generators s' !! j
                     = Some (Some (mrcg_set_last_results l h g)))
  ∧ (∀ j, (k < j < n)%nat →
          ∃ g h, R._curr_generators s' !! j = Some (Some g)
                 ∧ mrcg_is_done h g = true)
  ∧ ((0 < k)%nat →
     ∃ g h, R._curr_generators s' !! k = Some (Some g)
            ∧ mrcg_is_done h g = false).

Lemma send_suffix (n : nat) s :
  ready s → (n < length (R._models s))%nat →
  ∃ s' k, R.send_loop (rev (seq 0 (S n))) s = Ok s'
          ∧ (k ≤ n)%nat ∧ handed_from k (S n) s s'.
Proof.
  revert s. induction n as [|n IH]; intros s Hready Hn.
  - pose proof Hready as (Hwf & Hgens & _).
    pose proof Hwf as (_ & _ & Hlen_res & Hlen_gens & _).
    destruct (Hgens 0%nat Hn) as [g Hg].
    destruct (lookup_lt_is_Some_2 (R._curr_results s) 0) as [l Hl]; [lia|].
    change (rev (seq 0 1)) with [0%nat]. simpl. rewrite Hg, Hl.
    match goal with |- context [if _ then Ok ?st else _] => set (s2 := st) in * end.
    exists s2, 0%nat. split; [by destruct (negb _)|]. split; [done|].
    unfold handed_from. split_and!.
    + intros i Hi. lia.
    + intros j Hj. replace j with 0%nat by lia.
      exists g, l, (R.store s). split_and!; [done..|].
      unfold s2. simpl. apply list_lookup_insert_eq. apply lookup_lt_Some in Hg. done.
    + intros j Hj. lia.
    + intros Hk. lia.
  - pose proof Hready as (Hwf & Hgens & Hslots).
    pose proof Hwf as (Hnum & Hlen_slots & Hlen_res & Hlen_gens & Hpos).
    destruct (Hgens (S n) Hn) as [g Hg].
    destruct (lookup_lt_is_Some_2 (R._curr_results s) (S n)) as [l Hl]; [lia|].
    rewrite rev_seq_S. remember (rev (seq 0 (S n))) as outer eqn:Houter.
    simpl. rewrite Hg, Hl.
    match goal with |- context [R.send_loop outer ?st] => set (s2 := st) in * end.
    assert (ready s2) as Hready2.
    { unfold ready, well_formed, s2. simpl. rewrite !length_insert.
      split_and!; try done. apply set_upto_insert; [lia|done]. }
    assert (R._curr_generators s2 !! S n
            = Some (Some (mrcg_set_last_results l (R.store s) g))) as Hg2.
    { unfold s2. simpl. apply list_lookup_insert_eq. lia. }
    destruct (negb _) eqn:Hdone.
    + exists s2, (S n). split; [done|]. split; [done|].
      unfold handed_from. split_and!.
      * intros i Hi. unfold s2. simpl. rewrite !list_lookup_insert_ne by lia. done.
      * intros j Hj. replace j with (S n) by lia.
        by exists g, l, (R.store s).
      * intros j Hj. lia.
      * intros _. eexists _, (R.store s2). split; [exact Hg2|].
        by apply negb_true_iff.
    + subst outer.
      destruct (IH s2 Hready2) as (s' & k & Hsend & Hk & Hbelow & Hhanded & Hdone' & Hstop).
      { simpl. lia. }
      exists s', k. split; [done|]. split; [lia|].
      assert (R._curr_generators s' !! S n = R._curr_generators s2 !! S n) as Hkeep.
      { apply (send_loop_other _ _ _ (S n)) in Hsend as [? _]; [done|].
        intros Hin. apply list_elem_of_In, in_rev, list_elem_of_In, elem_of_seq in Hin.
        lia. }
      unfold handed_from. split_and!.
      * intros i Hi. destruct (Hbelow i Hi) as [-> ->].
        unfold s2. simpl. rewrite !list_lookup_insert_ne by lia. done.
      * intros j Hj. destruct (decide (j = S n)) as [->|Hne].
        -- exists g, l, (R.store s). split_and!; [done..|]. by rewrite Hkeep.
        -- destruct (Hhanded j ltac:(lia)) as (gj & lj & hj & Hgj & Hlj & Hj').
           exists gj, lj, hj. split_and!; [..|done].
           ++ revert Hgj. unfold s2. simpl. by rewrite list_lookup_insert_ne by lia.
           ++ revert Hlj. unfold s2. simpl. by rewrite list_lookup_insert_ne by lia.
      * intros j Hj. destruct (decide (j = S n)) as [->|Hne].
        -- eexists _, (R.store s2). rewrite Hkeep. split; [exact Hg2|].
           by apply negb_false_iff.
        -- apply Hdone'. lia.
      * done.
Qed.

(** X16.  Between two candidates, [set_last_results] hands the pending
    lists over from the innermost generator outwards and stops at the
    first generator that is not done after consuming: some index [k]
    splits the generators into those below [k], untouched with their
    pending lists kept, and those from [k] on, each handed its pending
    list, all of them above [k] being done afterwards. *)
Theorem feedback_cascade config models s0
    (actions : list (RunConfigFacts.Action (Measurement:=Measurement))) s
    (measurements : list Measurement) :
  R.__init__ config models = Ok s0 →
  replay actions R.Created s0 = Reached R.Suspended s →
  ∃ s' k,
    R.set_last_results measurements s = Ok s'
    ∧ (k < length models)%nat
    ∧ (∀ i, (i < k)%nat →
            R._curr_generators s' !! i = R._curr_generators s !! i
            ∧ R._curr_results s' !! i = R._curr_results s !! i)
    ∧ (∀ j, (k ≤ j < length models)%nat →
            ∃ g l h, R._curr_generators s !! j = Some (Some g)
                     ∧ R._curr_results s !! j = Some l
                     ∧ R._curr_generators s' !! j
                       = Some (Some (mrcg_set_last_results l h g)))
    ∧ (∀ j, (k < j < length models)%nat →
            ∃ g h, R._curr_generators s' !! j = Some (Some g)
                   ∧ mrcg_is_done h g = true)
    ∧ ((0 < k)%nat →
       ∃ g h, R._curr_generators s' !! k = Some (Some g)
              ∧ mrcg_is_done h g = false).
Proof.
  intros Hinit Hreplay.
  apply init_state in Hinit as (Hwf0 & Hmodels0 & Hgens0 & _).
  destruct (replay_ready actions R.Created s0 R.Suspended s) as [Hready Hsame];
    [by simpl; rewrite Hmodels0|done..|].
  pose proof Hready as (Hwf & _).
  pose proof Hwf as (Hnum & _ & _ & _ & Hpos).
  assert (length (R._models s) = length models) as HN by congruence.
  rewrite HN in Hnum, Hpos.
  unfold R.set_last_results.
  destruct (update_frame measurements s Hwf) as [h ->]. simpl.
  unfold R._send_results_to_appropriate_generators.
  set (s1 := R.with_store h (R.store_next s) s).
  destruct (length models) as [|n] eqn:Hlen; [lia|].
  destruct (send_suffix n s1) as (s' & k & Hsend & Hk & Hhanded).
  { done. }
  { simpl. lia. }
  exists s', k. simpl. rewrite Hnum. split; [done|]. split; [lia|].
  exact Hhanded.
Qed.

End WithGenerators.

End RunConfigMore.
(** ** Runs with generators that end after two candidates *)

Module CountedRun.
Module R := RunConfigGenerator.
Module M := RunConfigMore.

(** A generator that counts its candidates, is done once it has emitted
    two, and records the contents of every list it is handed. *)
Record Counted : Type := mkCounted {
  emitted : nat;
  handed : list (list nat)
}.

#[global] Instance counted_interface : ModelRunConfigGeneratorInterface nat nat Counted := {
  mrcg_new _ _ := {| emitted := 0; handed := [] |};
  mrcg_is_done _ c := bool_decide (2 ≤ emitted c)%nat;
  mrcg_next _ c := (emitted c, {| emitted := S (emitted c); handed := handed c |});
  mrcg_set_last_results l h c :=
    {| emitted := emitted c; handed := handed c ++ [default [] (h !! l)] |}
}.

Definition env : gmap string string := {[ "LD_LIBRARY_PATH" := "/opt/lib" ]}.

Definition resnet : ModelSpec :=
  {| model_name := "resnet"; cpu_only := false; triton_server_environment := env |}.

Definition bert : ModelSpec :=
  {| model_name := "bert"; cpu_only := true; triton_server_environment := env |}.

Definition options : Config :=
  {| model_repository := "models";
     run_config_search_min_instance_count := 1;
     run_config_search_max_instance_count := 2;
     run_config_search_min_model_batch_size := 1;
     run_config_search_max_model_batch_size := 4 |}.

(** The object after construction over the given models. *)
Definition built (models : list ModelSpec) : option (R.t nat nat Counted) :=
  match R.__init__ options models with
  | Ok s => Some s
  | Raise _ => None
  end.

(** The object reached by the given actions, if they end between two
    candidates. *)
Definition reached (models : list ModelSpec)
    (actions : list (RunConfigFacts.Action (Measurement:=nat)))
  : option (R.t nat nat Counted) :=
  match R.__init__ options models with
  | Ok s0 =>
      match M.replay actions R.Created s0 with
      | M.Reached R.Suspended s => Some s
      | _ => None
      end
  | Raise _ => None
  end.

Definition candidate_feedback_candidate
  : list (RunConfigFacts.Action (Measurement:=nat)) :=
  [RunConfigFacts.DoNext 10; RunConfigFacts.DoSetLastResults [7%nat];
   RunConfigFacts.DoNext 10].

Lemma feedback_before_first_candidate_witness :
  match built [resnet; bert] with
  | Some s => R.is_done s = Ok false
              ∧ R.set_last_results [7%nat] s = Raise AttributeError
  | None => False
  end.
Proof.
  unfold built.
  destruct (R.__init__ options [resnet; bert]) as [s|e] eqn:Hinit;
    [|vm_compute in Hinit; discriminate].
  exact (M.feedback_before_first_candidate options [resnet; bert] s [7%nat] Hinit).
Defined.

Lemma emitted_run_configs_complete_witness :
  match built [resnet; bert] with
  | Some s =>
      length (RunConfigFacts.session candidate_feedback_candidate R.Created s) = 2%nat
      ∧ Forall (fun rc =>
                  length (R.rc_model_run_configs rc) = 2%nat
                  ∧ Forall is_Some (R.rc_model_run_configs rc))
          (RunConfigFacts.session candidate_feedback_candidate R.Created s)
  | None => False
  end.
Proof.
  unfold built.
  destruct (R.__init__ options [resnet; bert]) as [s|e] eqn:Hinit;
    [|vm_compute in Hinit; discriminate].
  split.
  - vm_compute in Hinit. injection Hinit as <-. by vm_compute.
  - exact (M.emitted_run_configs_complete options [resnet; bert] s
             candidate_feedback_candidate Hinit).
Defined.

Lemma counted_new_not_done :
  M.new_not_done (Measurement:=nat) (ModelRunConfig:=nat) (G:=Counted).
Proof. intros h config model. reflexivity. Qed.

Lemma no_exception_between_candidates_witness :
  match reached [resnet; bert] candidate_feedback_candidate with
  | Some s =>
      (∃ gens, R._curr_generators s = Some <$> gens
               ∧ length gens = 2%nat
               ∧ R.is_done s = Ok (forallb (mrcg_is_done (R.store s)) gens))
      ∧ (∀ measurements, ∃ s', R.set_last_results measurements s = Ok s')
      ∧ (∀ fuel e, R.next fuel R.Suspended s ≠ R.Failed e)
      ∧ (∀ fuel, (4 ≤ fuel)%nat →
           (∃ rc s', R.next fuel R.Suspended s = R.Yield rc s')
           ∨ (∃ s', R.next fuel R.Suspended s = R.Stopped s'))
  | None => False
  end.
Proof.
  unfold reached.
  destruct (R.__init__ options [resnet; bert]) as [s0|e] eqn:Hinit;
    [|vm_compute in Hinit; discriminate].
  pose proof Hinit as Hinit'. vm_compute in Hinit. injection Hinit as <-.
  destruct (M.replay candidate_feedback_candidate R.Created _) as [fr s| |]
    eqn:Hreplay; [|vm_compute in Hreplay; discriminate..].
  pose proof Hreplay as Hreplay'. vm_compute in Hreplay.
  injection Hreplay as <- <-.
  destruct (M.no_exception_between_candidates options [resnet; bert] _
              candidate_feedback_candidate _ Hinit' Hreplay')
    as (Hgens & Hset & Hnext & Hends).
  split_and!; [exact Hgens|exact Hset|exact Hnext|].
  exact (Hends counted_new_not_done).
Defined.

Lemma first_feedback_once_per_model_witness :
  match built [resnet; bert] with
  | Some s0 =>
      match R.next 10 R.Created s0 with
      | R.Yield _ s1 =>
          ∃ g h s2,
            R._curr_generators s1 !! 1%nat = Some (Some g)
            ∧ R.set_last_results [7%nat] s1 = Ok s2
            ∧ R._curr_generators s2 !! 1%nat
              = Some (Some (mrcg_set_last_results 0%nat h g))
            ∧ h !! 0%nat = Some [7; 7]%nat
      | _ => False
      end
  | None => False
  end.
Proof.
  unfold built.
  destruct (R.__init__ options [resnet; bert]) as [s0|e] eqn:Hinit;
    [|vm_compute in Hinit; discriminate].
  pose proof Hinit as Hinit'. vm_compute in Hinit. injection Hinit as <-.
  destruct (R.next 10 R.Created _) as [rc s1|s1|e|] eqn:Hnext;
    [|vm_compute in Hnext; discriminate..].
  exact (M.first_feedback_once_per_model options [resnet; bert] _ 10 rc s1
           [7%nat] Hinit' Hnext).
Defined.

Lemma single_model_feedback_witness :
  match reached [resnet] candidate_feedback_candidate with
  | Some s =>
      ∃ g l h s',
        R._curr_generators s = [Some g]
        ∧ R.set_last_results [8; 9]%nat s = Ok s'
        ∧ R._curr_generators s' = [Some (mrcg_set_last_results l h g)]
        ∧ h !! l = Some [8; 9]%nat
  | None => False
  end.
Proof.
  unfold reached.
  destruct (R.__init__ options [resnet]) as [s0|e] eqn:Hinit;
    [|vm_compute in Hinit; discriminate].
  pose proof Hinit as Hinit'. vm_compute in Hinit. injection Hinit as <-.
  destruct (M.replay candidate_feedback_candidate R.Created _) as [fr s| |]
    eqn:Hreplay; [|vm_compute in Hreplay; discriminate..].
  pose proof Hreplay as Hreplay'. vm_compute in Hreplay.
  injection Hreplay as <- <-.
  exact (M.single_model_feedback options resnet _ candidate_feedback_candidate _
           [8; 9]%nat Hinit' Hreplay').
Defined.

Lemma feedback_cascade_witness :
  match reached [resnet; bert] candidate_feedback_candidate with
  | Some s =>
      ∃ s' k,
        R.set_last_results [8%nat] s = Ok s'
        ∧ (k < 2)%nat
        ∧ M.handed_from k 2 s s'
  | None => False
  end.
Proof.
  unfold reached.
  destruct (R.__init__ options [resnet; bert]) as [s0|e] eqn:Hinit;
    [|vm_compute in Hinit; discriminate].
  pose proof Hinit as Hinit'. vm_compute in Hinit. injection Hinit as <-.
  destruct (M.replay candidate_feedback_candidate R.Created _) as [fr s| |]
    eqn:Hreplay; [|vm_compute in Hreplay; discriminate..].
  pose proof Hreplay as Hreplay'. vm_compute in Hreplay.
  injection Hreplay as <- <-.
  exact (M.feedback_cascade options [resnet; bert] _
           candidate_feedback_candidate _ [8%nat] Hinit' Hreplay').
Defined.

(** After two candidates the inner generator is done: the third hand-over
    reaches the outer generator, which is handed every measurement so
    far, the first one twice. *)
Example cascade_reaches_outer :
  fmap (M:=option)
    (fun s =>
       match R.set_last_results [8%nat] s with
       | Ok s' => fmap (M:=list) (fmap (M:=option) handed) (R._curr_generators s')
       | Raise _ => []
       end)
    (reached [resnet; bert] candidate_feedback_candidate)
  = Some [Some [[7; 7; 8]%nat]; Some [[7; 7]; [8]]%nat].
Proof. by vm_compute. Qed.

End CountedRun.

(** ** The automatic search under clean feedback: the grid, in order *)

Module GridSearch.
Import Py PyFacts.
Module A := AutomaticModelConfigGenerator.
Module B := BaseModelConfigGenerator.

(** The instance count and the max batch size of a candidate. *)
Definition config_point (c : Dict) : option Z * option Z :=
  (A.config_instance_count c, A.config_max_batch_size c).

(** The rungs [from .. from + len - 1] of the ladder at one instance
    count. *)
Definition row (count min_bs : Z) (from len : nat) : list (option Z * option Z) :=
  (fun j : nat => (Some count, Some (min_bs * 2 ^ Z.of_nat j))) <$> seq from len.

(** [m] full rows, from instance count [count] on. *)
Fixpoint rows (m : nat) (count min_bs : Z) (K : nat) : list (option Z * option Z) :=
  match m with
  | O => []
  | S m' => row count min_bs 0 K ++ rows m' (count + 1) min_bs K
  end.

Section WithMeasurement.
Context {Measurement : Type}.
Implicit Types g : A.t Measurement.

Lemma drive_done fuel (feedback : nat → B.Results Measurement) k fr g :
  A.is_done g = true → A.drive fuel feedback k fr g = ([], true).
Proof. intros Hdone. destruct fuel; simpl; by rewrite Hdone. Qed.

Lemma drive_grid (feedback : nat → B.Results Measurement)
    (max_inst min_bs max_bs : Z) (K : nat) :
  (∀ k, SweepFacts.clean (feedback k)) →
  1 ≤ min_bs →
  (∀ j : nat, (j < K)%nat → min_bs * 2 ^ Z.of_nat j ≤ max_bs) →
  min_bs * 2 ^ Z.of_nat K > max_bs →
  (0 < K)%nat →
  ∀ (m d fuel k : nat) g (j : nat),
    SweepFacts.sweeping g →
    A._max_instance_count g = max_inst →
    A._min_model_batch_size g = min_bs →
    A._max_model_batch_size g = max_bs →
    A._curr_max_batch_size g = min_bs * 2 ^ Z.of_nat j →
    (j + d = K - 1)%nat →
    A._curr_instance_count g = max_inst - Z.of_nat m →
    (d + m * K ≤ fuel)%nat →
    let run := A.drive fuel feedback k A.Suspended g in
    run.2 = true
    ∧ config_point <$> run.1
      = row (A._curr_instance_count g) min_bs (S j) d
        ++ rows m (A._curr_instance_count g + 1) min_bs K.
Proof.
  intros Hfeedback Hmin Hin Hout HK.
  assert (∀ j : nat, (j + 0 = K - 1)%nat → min_bs * 2 ^ Z.of_nat j * 2 > max_bs)
    as Htop.
  { intros j Hj. replace K with (S j) in Hout by lia.
    rewrite Nat2Z.inj_succ, Z.pow_succ_r in Hout by lia. lia. }
  assert (∀ (j d : nat), (j + S d = K - 1)%nat →
            ¬ min_bs * 2 ^ Z.of_nat j * 2 > max_bs) as Hbelow.
  { intros j d Hj. specialize (Hin (S j) ltac:(lia)).
    rewrite Nat2Z.inj_succ, Z.pow_succ_r in Hin by lia. lia. }
  assert (∀ fuel k g,
            SweepFacts.sweeping g → A.is_done g = false →
            ∃ g', A.drive (S fuel) feedback k A.Suspended g
                  = ((A._get_next_model_config (A._step g)).1
                     :: (A.drive fuel feedback (S k) A.Suspended g').1,
                     (A.drive fuel feedback (S k) A.Suspended g').2)
                  ∧ SweepFacts.sweeping g'
                  ∧ A._max_instance_count g' = A._max_instance_count g
                  ∧ A._min_model_batch_size g' = A._min_model_batch_size g
                  ∧ A._max_model_batch_size g' = A._max_model_batch_size g
                  ∧ A._curr_instance_count g' = A._curr_instance_count (A._step g)
                  ∧ A._curr_max_batch_size g' = A._curr_max_batch_size (A._step g))
    as Hunfold.
  { intros fuel k g Hsweep Hnot.
    rewrite SweepFacts.drive_S_not_done by done. cbv zeta.
    rewrite AutomaticFacts.frame_after_next.
    destruct (SweepFacts.next_state A.Suspended g) as (b' & Hstate & Hlive').
    rewrite Hstate.
    assert ((A.next A.Suspended g).1 = (A._get_next_model_config (A._step g)).1)
      as ->.
    { unfold A.next. by destruct (A._get_next_model_config (A._step g)). }
    pose proof (OverlayFacts.step_parameters g) as (Hmin' & Hmax' & Hinst' & _).
    eexists. split; [reflexivity|].
    destruct Hsweep as (Hstarted & Hlive & Hclean).
    split_and!; simpl; try done.
    unfold SweepFacts.sweeping. simpl. split_and!.
    - apply NamingFacts.step_started.
    - rewrite Hlive'. simpl. by rewrite NamingFacts.step_base.
    - apply Hfeedback. }
  induction m as [|m IHm]; induction d as [|d IHd];
    intros fuel k g j Hsweep Hmi Hmb Hxb Hbatch Hj Hcount Hfuel.
  - rewrite drive_done; [done|].
    rewrite (SweepFacts.is_done_sweeping g Hsweep), Hbatch, Hxb, Hmi.
    rewrite (bool_decide_eq_true_2 _ (Htop j Hj)).
    by rewrite bool_decide_eq_true_2 by lia.
  - destruct fuel as [|fuel]; [lia|].
    assert (A.is_done g = false) as Hnot.
    { rewrite (SweepFacts.is_done_sweeping g Hsweep), Hbatch, Hxb.
      by rewrite (bool_decide_eq_false_2 _ (Hbelow j d Hj)). }
    destruct (Hunfold fuel k g Hsweep Hnot)
      as (g' & -> & Hsweep' & Hmi' & Hmb' & Hxb' & Hci' & Hcb').
    pose proof (OverlayFacts.started_emission_carries (A._step g)
                  (NamingFacts.step_started g)) as (Hc & Hb & _).
    assert (A._curr_instance_count (A._step g) = A._curr_instance_count g
            ∧ A._curr_max_batch_size (A._step g) = min_bs * 2 ^ Z.of_nat (S j))
      as [Hsi Hsb].
    { destruct Hsweep as (Hstarted & _ & Hclean).
      unfold A._step, A._step_state_machine, A._done_walking_max_batch_size,
        A._max_batch_size_limit_reached.
      rewrite Hstarted, (SweepFacts.clean_not_erroneous g Hclean), orb_false_r.
      simpl. rewrite Hbatch, Hxb.
      rewrite (bool_decide_eq_false_2 _ (Hbelow j d Hj)). simpl.
      rewrite Hbatch, Nat2Z.inj_succ, Z.pow_succ_r by lia. split; lia. }
    destruct (IHd fuel (S k) g' (S j)) as [Hfin Hpoints]; try congruence; try lia.
    cbn [fst snd]. split; [done|].
    rewrite fmap_cons, Hpoints. unfold config_point at 1.
    rewrite Hc, Hb, Hsi, Hsb, Hci', Hsi. done.
  - destruct fuel as [|fuel]; [lia|].
    assert (A.is_done g = false) as Hnot.
    { rewrite (SweepFacts.is_done_sweeping g Hsweep), Hbatch, Hxb, Hmi.
      rewrite (bool_decide_eq_false_2 (A._curr_instance_count g >= max_inst))
        by lia.
      by rewrite andb_false_r. }
    destruct (Hunfold fuel k g Hsweep Hnot)
      as (g' & -> & Hsweep' & Hmi' & Hmb' & Hxb' & Hci' & Hcb').
    pose proof (OverlayFacts.started_emission_carries (A._step g)
                  (NamingFacts.step_started g)) as (Hc & Hb & _).
    assert (A._curr_instance_count (A._step g) = A._curr_instance_count g + 1
            ∧ A._curr_max_batch_size (A._step g) = min_bs * 2 ^ Z.of_nat 0)
      as [Hsi Hsb].
    { destruct Hsweep as (Hstarted & _ & Hclean).
      unfold A._step, A._step_state_machine, A._done_walking_max_batch_size,
        A._max_batch_size_limit_reached.
      rewrite Hstarted, (SweepFacts.clean_not_erroneous g Hclean), orb_false_r.
      simpl. rewrite Hbatch, Hxb.
      rewrite (bool_decide_eq_true_2 _ (Htop j Hj)). simpl. split; lia. }
    destruct (IHm (K - 1)%nat fuel (S k) g' 0%nat) as [Hfin Hpoints];
      try congruence; try lia.
    cbn [fst snd]. split; [done|].
    rewrite fmap_cons, Hpoints. unfold config_point at 1.
    rewrite Hc, Hb, Hsi, Hsb, Hci', Hsi.
    cbn [row seq fmap list_fmap app rows].
    destruct K as [|K']; [lia|]. cbn [row seq fmap list_fmap app].
    replace (S K' - 1)%nat with K' by lia. done.
  - destruct fuel as [|fuel]; [lia|].
    assert (A.is_done g = false) as Hnot.
    { rewrite (SweepFacts.is_done_sweeping g Hsweep), Hbatch, Hxb.
      by rewrite (bool_decide_eq_false_2 _ (Hbelow j d Hj)). }
    destruct (Hunfold fuel k g Hsweep Hnot)
      as (g' & -> & Hsweep' & Hmi' & Hmb' & Hxb' & Hci' & Hcb').
    pose proof (OverlayFacts.started_emission_carries (A._step g)
                  (NamingFacts.step_started g)) as (Hc & Hb & _).
    assert (A._curr_instance_count (A._step g) = A._curr_instance_count g
            ∧ A._curr_max_batch_size (A._step g) = min_bs * 2 ^ Z.of_nat (S j))
      as [Hsi Hsb].
    { destruct Hsweep as (Hstarted & _ & Hclean).
      unfold A._step, A._step_state_machine, A._done_walking_max_batch_size,
        A._max_batch_size_limit_reached.
      rewrite Hstarted, (SweepFacts.clean_not_erroneous g Hclean), orb_false_r.
      simpl. rewrite Hbatch, Hxb.
      rewrite (bool_decide_eq_false_2 _ (Hbelow j d Hj)). simpl.
      rewrite Hbatch, Nat2Z.inj_succ, Z.pow_succ_r by lia. split; lia. }
    destruct (IHd fuel (S k) g' (S j)) as [Hfin Hpoints]; try congruence; try lia.
    cbn [fst snd]. split; [done|].
    rewrite fmap_cons, Hpoints. unfold config_point at 1.
    rewrite Hc, Hb, Hsi, Hsb, Hci', Hsi. done.
Qed.

(** X17.  With a maximum instance count of at least 1, batch-size
    bounds [1 ≤ min ≤ max] and feedback without [None], the loop ends
    and the candidates after the default are exactly the grid of
    instance counts 1 to the maximum by the rungs of the ladder, in
    order: the instance count outermost, the max batch size doubling
    within each instance count. *)
Theorem clean_search_is_the_grid config model stored
    (feedback : nat → B.Results Measurement) :
  let max_inst := run_config_search_max_instance_count config in
  let min_bs := run_config_search_min_model_batch_size config in
  let max_bs := run_config_search_max_model_batch_size config in
  let K := length (SpecUtils.power_of_two_ladder_between min_bs max_bs) in
  1 ≤ max_inst → 1 ≤ min_bs → min_bs ≤ max_bs →
  (∀ k, SweepFacts.clean (feedback k)) →
  ∀ fuel, (Z.to_nat max_inst * K + 1 ≤ fuel)%nat →
    let run := A.drive fuel feedback 0 A.Created (A.__init__ config model stored) in
    run.2 = true
    ∧ config_point <$> drop 1 run.1 = rows (Z.to_nat max_inst) 1 min_bs K.
Proof.
  intros max_inst min_bs max_bs K Hinst Hmin Hle Hfeedback fuel Hfuel.
  destruct (SweepFacts.ladder_from_rungs (Z.to_nat max_bs) min_bs max_bs)
    as [Hin Hout]; [lia..|].
  fold (SpecUtils.power_of_two_ladder_between min_bs max_bs) in Hin, Hout.
  fold K in Hin, Hout.
  assert (0 < K)%nat as HK.
  { destruct K; [|lia]. simpl in Hout. lia. }
  assert (Z.to_nat max_inst = S (Z.to_nat (max_inst - 1))) as Hm by lia.
  rewrite Hm. rewrite Hm, Nat.mul_succ_l in Hfuel.
  destruct fuel as [|[|fuel]]; [lia..|].
  set (g0 := A.__init__ (Measurement:=Measurement) config model stored).
  rewrite SweepFacts.drive_S_not_done by done. cbv zeta.
  rewrite AutomaticFacts.frame_after_next.
  destruct (SweepFacts.next_state A.Created g0) as (b1 & -> & Hlive1).
  set (g1 := A.set_last_results (feedback 0%nat)
               (A.with_base b1 (SweepFacts.before_emission A.Created g0))).
  assert (A.is_done g1 = false) as Hnot_done.
  { unfold A.is_done, A._done_walking, A._done_walking_instance_count.
    rewrite (bool_decide_eq_false_2 (A._curr_instance_count g1 >= _))
      by (simpl; fold max_inst; lia).
    by rewrite !andb_false_r. }
  rewrite SweepFacts.drive_S_not_done by done. cbv zeta.
  rewrite AutomaticFacts.frame_after_next.
  destruct (SweepFacts.next_state A.Suspended g1) as (b2 & Hstate2 & Hlive2).
  rewrite Hstate2.
  set (g2 := A.set_last_results (feedback 1%nat)
               (A.with_base b2 (SweepFacts.before_emission A.Suspended g1))).
  assert (SweepFacts.sweeping g2) as Hsweep.
  { unfold SweepFacts.sweeping, g2. simpl. split_and!; [done| |apply Hfeedback].
    rewrite Hlive2. simpl. done. }
  pose proof (drive_grid feedback max_inst min_bs max_bs K Hfeedback Hmin Hin Hout HK
                (Z.to_nat (max_inst - 1)) (K - 1) fuel 2 g2 0%nat Hsweep) as Hrest.
  change (A._curr_instance_count g2) with 1 in Hrest.
  destruct Hrest as (Hfin & Hpoints).
  - done.
  - done.
  - done.
  - simpl. lia.
  - lia.
  - lia.
  - lia.
  - cbn [fst snd drop]. split; [done|].
    rewrite fmap_cons, Hpoints.
    pose proof (OverlayFacts.started_emission_carries (A._step g1)
                  (NamingFacts.step_started g1)) as (Hc & Hb & _).
    unfold config_point at 1, A.next.
    destruct (A._get_next_model_config (A._step g1)) as [c g']. simpl in Hc, Hb.
    cbn [fst]. rewrite Hc, Hb.
    cbn [rows]. destruct K as [|K']; [lia|].
    replace (S K' - 1)%nat with K' by lia.
    cbn [row seq fmap list_fmap app]. simpl Z.of_nat. rewrite Z.mul_1_r.
    done.
Qed.

End WithMeasurement.

Lemma clean_search_is_the_grid_witness :
  let run := A.drive 10 (fun _ => [[Some ()]]) 0 A.Created
               (A.__init__ OverlayFacts.sample_config OverlayFacts.sample_model
                  OverlayFacts.sample_stored) in
  run.2 = true
  ∧ config_point <$> drop 1 run.1
    = [ (Some 1, Some 3); (Some 1, Some 6); (Some 1, Some 12);
        (Some 2, Some 3); (Some 2, Some 6); (Some 2, Some 12) ].
Proof.
  apply (clean_search_is_the_grid OverlayFacts.sample_config
           OverlayFacts.sample_model OverlayFacts.sample_stored
           (fun _ => [[Some ()]])).
  - simpl. lia.
  - simpl. lia.
  - simpl. lia.
  - intros k (result & Hin & Hnone).
    apply list_elem_of_singleton in Hin as ->.
    apply list_elem_of_singleton in Hnone. discriminate.
  - vm_compute. lia.
Defined.

End GridSearch.

